(** * motion-lite: CSV import, session building and the persistent store

    A shallow embedding of [src/utils/parseCsv.ts], [src/utils/selectors.ts],
    [src/utils/storage.ts], [src/utils/storageReducer.ts],
    [src/utils/progress.ts], [src/utils/analytics.ts] and the upload
    handlers of [src/components/UploadPanel.tsx] and [src/App.tsx], with
    the properties of the specification, and further properties of the
    code, stated over it.

    Strings are JavaScript strings: finite sequences of UTF-16 code units.
    A code unit is an [N]; a string is a [list N].  Literals of the source
    are written with [lit], which maps an ASCII literal to its code units. *)

From Stdlib Require Import List NArith ZArith Lia Bool String Ascii.
From Stdlib Require Import Sorting.Sorted DecimalString.
From Stdlib Require Import DecimalNat DecimalFacts Permutation.
From stdpp Require Import gmap strings list fin_maps sorting lexico.

Local Open Scope N_scope.

(** ** Strings *)

Module Str.

Abbreviation str := (list N).

Definition lit (s : string) : str :=
  List.map N_of_ascii (list_ascii_of_string s).

Definition QUOTE : N := 34.
Definition CR : N := 13.
Definition LF : N := 10.
Definition TAB : N := 9.
Definition COMMA : N := 44.
Definition SPACE : N := 32.
Definition BOM : N := 65279.

(** [s.length === 0], which for a string is also [!s]. *)
Definition isEmpty (s : str) : bool :=
  match s with [] => true | _ => false end.

(** [Array.prototype.join]. *)
Fixpoint join (sep : str) (parts : list str) : str :=
  match parts with
  | [] => []
  | [p] => p
  | p :: rest => p ++ sep ++ join sep rest
  end.

(** [s.includes(c)] for a one-unit needle. *)
Definition includes (c : N) (s : str) : bool := existsb (N.eqb c) s.

(** ECMAScript WhiteSpace and LineTerminator code points: what
    [String.prototype.trim] strips and what [\s] matches. *)
Definition isWhiteSpace (c : N) : bool :=
  (c =? 9) || (c =? 10) || (c =? 11) || (c =? 12) || (c =? 13) || (c =? 32)
  || (c =? 160) || (c =? 5760) || ((8192 <=? c) && (c <=? 8202))
  || (c =? 8232) || (c =? 8233) || (c =? 8239) || (c =? 8287)
  || (c =? 12288) || (c =? 65279).

Fixpoint trimStart (s : str) : str :=
  match s with
  | [] => []
  | c :: rest => if isWhiteSpace c then trimStart rest else s
  end.

Definition trimEnd (s : str) : str := rev (trimStart (rev s)).

(** [String.prototype.trim]. *)
Definition trim (s : str) : str := trimEnd (trimStart s).

(** A string is trimmed when neither its first nor its last unit is
    white space. *)
Definition Trimmed (s : str) : Prop :=
  (forall c, List.hd_error s = Some c -> isWhiteSpace c = false)
  /\ (forall c, List.hd_error (rev s) = Some c -> isWhiteSpace c = false).

End Str.
Import Str.

(** ** The tokenizer: [splitCsvLine] *)

Inductive Delimiter := Comma | Tab.

Definition delimChar (d : Delimiter) : N :=
  match d with Comma => COMMA | Tab => TAB end.

(** The [while (i < n)] loop of [splitCsvLine].  The list is the part of
    the line from index [i] on; [peek] at [line[i + 1]] is the head of the
    rest.  [out.push] appends. *)
Fixpoint splitLoop (delimiter : N) (line : str) (inQuotes : bool)
    (cur : str) (out : list str) : list str :=
  match line with
  | [] => out ++ [cur]
  | ch :: rest =>
    if inQuotes then
      if ch =? QUOTE then
        match rest with
        | ch' :: rest' =>
          if ch' =? QUOTE
          then splitLoop delimiter rest' true (cur ++ [QUOTE]) out
          else splitLoop delimiter rest false cur out
        | [] => splitLoop delimiter rest false cur out
        end
      else splitLoop delimiter rest true (cur ++ [ch]) out
    else
      if ch =? QUOTE then splitLoop delimiter rest true cur out
      else if ch =? delimiter then splitLoop delimiter rest false [] (out ++ [cur])
      else if ch =? CR then splitLoop delimiter rest false cur out
      else splitLoop delimiter rest false (cur ++ [ch]) out
  end.

Definition splitCsvLine (line : str) (delimiter : Delimiter) : list str :=
  splitLoop (delimChar delimiter) line false [] [].

(** *** The line builder of the round-trip property

    This is not code of the repository: it follows the words of the
    specification ("joining fields with the delimiter and wrapping any
    field containing the delimiter or a quote in double quotes, doubling
    internal quotes"). *)
Module LineBuilder.

Definition needsQuoting (d : Delimiter) (field : str) : bool :=
  existsb (fun c => (c =? delimChar d) || (c =? QUOTE)) field.

Definition doubleQuotes (field : str) : str :=
  flat_map (fun c => if c =? QUOTE then [QUOTE; QUOTE] else [c]) field.

Definition encodeField (d : Delimiter) (field : str) : str :=
  if needsQuoting d field
  then QUOTE :: doubleQuotes field ++ [QUOTE]
  else field.

Definition buildLine (d : Delimiter) (fields : list str) : str :=
  join [delimChar d] (List.map (encodeField d) fields).

(** A field the tokenizer gives back as it is: if the builder leaves it
    unwrapped, it holds no carriage return. *)
Definition survives (d : Delimiter) (field : str) : bool :=
  needsQuoting d field || negb (includes CR field).

End LineBuilder.
Import LineBuilder.

(** ** The importer: [parseCsv] *)

(** [keyof CsvRow]. *)
Inductive Key :=
| K_Day | K_Exercise | K_Sets | K_Reps_or_Time | K_Weight
| K_Notes | K_Form_Guidance | K_Muscle_Group | K_Main_Muscle | K_Day_Type.

Global Instance Key_eq_dec : EqDecision Key.
Proof. solve_decision. Defined.

(** The property name a key stands for. *)
Definition keyName (k : Key) : str :=
  match k with
  | K_Day => lit "Day"
  | K_Exercise => lit "Exercise"
  | K_Sets => lit "Sets"
  | K_Reps_or_Time => lit "Reps or Time"
  | K_Weight => lit "Weight"
  | K_Notes => lit "Notes"
  | K_Form_Guidance => lit "Form Guidance"
  | K_Muscle_Group => lit "Muscle Group"
  | K_Main_Muscle => lit "Main Muscle"
  | K_Day_Type => lit "Day Type"
  end.

Record CsvRow := {
  Day : str;
  Exercise : str;
  Sets : str;
  Reps_or_Time : str;
  Weight : str;
  Notes : str;
  Form_Guidance : str;
  Muscle_Group : str;
  Main_Muscle : str;
  Day_Type : str
}.

(** [row[k]]. *)
Definition field (k : Key) (row : CsvRow) : str :=
  match k with
  | K_Day => Day row
  | K_Exercise => Exercise row
  | K_Sets => Sets row
  | K_Reps_or_Time => Reps_or_Time row
  | K_Weight => Weight row
  | K_Notes => Notes row
  | K_Form_Guidance => Form_Guidance row
  | K_Muscle_Group => Muscle_Group row
  | K_Main_Muscle => Main_Muscle row
  | K_Day_Type => Day_Type row
  end.

Record ParseResult := {
  rows : list CsvRow;
  sessionNames : list str;
  errors : list str
}.

(** [s.replace(/^\uFEFF/, '')]. *)
Definition stripLeadingBOM (s : str) : str :=
  match s with
  | c :: rest => if c =? BOM then rest else s
  | [] => []
  end.

(** [s.replace(/\r$/, '')]: without the [m] flag [$] is the end of input. *)
Fixpoint stripTrailingCR (s : str) : str :=
  match s with
  | [] => []
  | [c] => if c =? CR then [] else [c]
  | c :: rest => c :: stripTrailingCR rest
  end.

(** [s.split(/\n/)]. *)
Fixpoint splitLF (s : str) : list str :=
  match s with
  | [] => [[]]
  | c :: rest =>
    if c =? LF then [] :: splitLF rest
    else match splitLF rest with
         | l :: ls => (c :: l) :: ls
         | [] => [[c]]
         end
  end.

(** [s.replace(/[class]+/g, ' ')]: every maximal run of units of the class
    becomes one space.  [inRun] says that the unit before was of the class. *)
Fixpoint collapseRuns (class : N -> bool) (inRun : bool) (s : str) : str :=
  match s with
  | [] => []
  | c :: rest =>
    if class c
    then if inRun then collapseRuns class true rest
         else SPACE :: collapseRuns class true rest
    else c :: collapseRuns class false rest
  end.

(** [s.replace(/c/g, '')]. *)
Definition removeAll (c : N) (s : str) : str :=
  List.filter (fun x => negb (x =? c)) s.

Definition isDashOrUnderscore (c : N) : bool := (c =? 45) || (c =? 95).

(** Number to string inside a template literal, for a natural number. *)
Definition decimal (n : nat) : str :=
  lit (NilZero.string_of_uint (Nat.to_uint n)).

(** [x < y] on strings: code unit by code unit, a proper prefix is less. *)
Fixpoint strLtb (x y : str) : bool :=
  match x, y with
  | _, [] => false
  | [], _ :: _ => true
  | a :: x', b :: y' =>
    if a <? b then true else if b <? a then false else strLtb x' y'
  end.

(** The default [SortCompare] of [Array.prototype.sort] puts [x] before
    [y] unless [y < x]. *)
Definition sortBefore (x y : str) : Prop := strLtb y x = false.

Global Instance sortBefore_dec x y : Decision (sortBefore x y).
Proof. unfold sortBefore. apply _. Defined.

(** [Array.prototype.sort()] with the default comparison.  The engine's
    algorithm is not fixed by the language; any sort gives the same array
    for a total order, here a merge sort. *)
Definition sort (l : list str) : list str := merge_sort sortBefore l.

(** [Set.prototype.add] on a [Set<string>], kept in insertion order as
    [Array.from] lists it. *)
Definition setAdd (x : str) (s : list str) : list str :=
  if bool_decide (x ∈ s) then s else s ++ [x].

Definition headerMap : list (Key * list str) :=
  [ (K_Day, [lit "day"; lit "date"]);
    (K_Exercise, [lit "exercise"; lit "workout"; lit "name"]);
    (K_Sets, [lit "sets"; lit "set"]);
    (K_Reps_or_Time, [lit "reps or time"; lit "reps/time"; lit "reps time";
                      lit "time"; lit "duration"; lit "reps"]);
    (K_Weight, [lit "weight"; lit "load"; lit "kg"; lit "lbs"]);
    (K_Notes, [lit "notes"; lit "note"; lit "comments"]);
    (K_Form_Guidance, [lit "form guidance"; lit "form"; lit "guidance";
                       lit "cues"; lit "form cues"]);
    (K_Muscle_Group, [lit "muscle group"; lit "muscle groups"; lit "group"]);
    (K_Main_Muscle, [lit "main muscle"; lit "primary muscle"; lit "target"]);
    (K_Day_Type, [lit "day type"; lit "type"]) ].

Definition required : list Key :=
  [K_Day; K_Exercise; K_Sets; K_Reps_or_Time; K_Weight].

Definition detectDelimiter (headerLine : str) : Delimiter :=
  if includes TAB headerLine then Tab else Comma.

Definition MSG_EMPTY : str := lit "CSV is empty".
Definition MSG_TOO_FEW : str :=
  lit "CSV must have a header and at least one data row".

Definition missingHeadersMessage (missingRequired : list Key)
    (headerCells : list str) : str :=
  lit "Missing required headers: "
  ++ join (lit ", ") (List.map keyName missingRequired)
  ++ lit ". Found headers: " ++ join (lit " | ") headerCells.

Definition rowMessage (lineNo : nat) (missingInRow : list Key) : str :=
  lit "Row " ++ decimal (lineNo + 1) ++ lit ": missing "
  ++ join (lit ", ") (List.map keyName missingInRow).

(** [indexOf[k]] on the record filled from [headerMap]. *)
Definition lookupIndex (indexOf : list (Key * option nat)) (k : Key)
    : option nat :=
  match List.find (fun e => bool_decide (fst e = k)) indexOf with
  | Some (_, idx) => idx
  | None => None
  end.

(** The state the [for] loop over the data lines updates. *)
Record LoopState := {
  l_rows : list CsvRow;
  l_sessionNames : list str;
  l_errors : list str
}.

Definition initialLoopState : LoopState :=
  {| l_rows := []; l_sessionNames := []; l_errors := [] |}.

Section Importer.

(** [String.prototype.toLowerCase] follows the Unicode case tables of the
    host; the importer is stated for any such function. *)
Variable toLowerCase : str -> str.

Definition normHeader (h : str) : str :=
  toLowerCase
    (removeAll 58
      (collapseRuns isDashOrUnderscore false
        (collapseRuns isWhiteSpace false
          (removeAll BOM (trim h))))).

(** [headerCells.forEach((h, idx) => headerIndexByNorm.set(normHeader(h), idx))]. *)
Fixpoint indexHeaders (headerCells : list str) (idx : nat)
    (headerIndexByNorm : gmap str nat) : gmap str nat :=
  match headerCells with
  | [] => headerIndexByNorm
  | h :: rest =>
    indexHeaders rest (S idx) (<[normHeader h := idx]> headerIndexByNorm)
  end.

Fixpoint findIndex (headerIndexByNorm : gmap str nat) (variants : list str)
    : option nat :=
  match variants with
  | [] => None
  | v :: rest =>
    match headerIndexByNorm !! normHeader v with
    | Some idx => Some idx
    | None => findIndex headerIndexByNorm rest
    end
  end.

(** [Object.entries(headerMap).forEach(...)]: one entry per canonical key. *)
Definition resolveHeaders (headerCells : list str) : list (Key * option nat) :=
  let headerIndexByNorm := indexHeaders headerCells 0%nat ∅ in
  List.map (fun e => (fst e, findIndex headerIndexByNorm (keyName (fst e) :: snd e)))
    headerMap.

Definition missingRequiredOf (indexOf : list (Key * option nat)) : list Key :=
  List.filter (fun k => negb (bool_decide (is_Some (lookupIndex indexOf k)))) required.

(** The safe accessor [get] of the loop body. *)
Definition getCell (indexOf : list (Key * option nat)) (values : list str)
    (key : Key) : str :=
  match lookupIndex indexOf key with
  | Some idx => default [] (values !! idx)
  | None => []
  end.

Definition buildRow (indexOf : list (Key * option nat)) (values : list str)
    : CsvRow :=
  {| Day := getCell indexOf values K_Day;
     Exercise := getCell indexOf values K_Exercise;
     Sets := getCell indexOf values K_Sets;
     Reps_or_Time := getCell indexOf values K_Reps_or_Time;
     Weight := getCell indexOf values K_Weight;
     Notes := getCell indexOf values K_Notes;
     Form_Guidance := getCell indexOf values K_Form_Guidance;
     Muscle_Group := getCell indexOf values K_Muscle_Group;
     Main_Muscle := getCell indexOf values K_Main_Muscle;
     Day_Type := getCell indexOf values K_Day_Type |}.

(** The row a data line gives: tokenized, every cell trimmed. *)
Definition rowOfLine (indexOf : list (Key * option nat)) (delimiter : Delimiter)
    (raw : str) : CsvRow :=
  buildRow indexOf
    (List.map trim (splitCsvLine (stripTrailingCR raw) delimiter)).

Definition missingInRowOf (row : CsvRow) : list Key :=
  List.filter (fun k => isEmpty (field k row)) required.

(** One iteration of the loop, for the line [rawLines[lineNo]]. *)
Definition loopBody (indexOf : list (Key * option nat)) (delimiter : Delimiter)
    (lineNo : nat) (raw : str) (st : LoopState) : LoopState :=
  if isEmpty raw || isEmpty (trim raw) then st
  else
    let row := rowOfLine indexOf delimiter raw in
    if isEmpty (Day row) && isEmpty (Exercise row) then st
    else
      let missingInRow := missingInRowOf row in
      {| l_rows := l_rows st ++ [row];
         l_sessionNames :=
           if isEmpty (Day row) then l_sessionNames st
           else setAdd (Day row) (l_sessionNames st);
         l_errors :=
           match missingInRow with
           | [] => l_errors st
           | _ => l_errors st ++ [rowMessage lineNo missingInRow]
           end |}.

(** [for (let lineNo = ...; lineNo < rawLines.length; lineNo++)], over the
    lines from [lineNo] on. *)
Fixpoint dataLoop (indexOf : list (Key * option nat)) (delimiter : Delimiter)
    (lineNo : nat) (lines : list str) (st : LoopState) : LoopState :=
  match lines with
  | [] => st
  | raw :: rest =>
    dataLoop indexOf delimiter (S lineNo) rest
      (loopBody indexOf delimiter lineNo raw st)
  end.

Definition failure (message : str) : ParseResult :=
  {| rows := []; sessionNames := []; errors := [message] |}.

(** The header line of a document and what is read from it. *)
Definition headerLineOf (csvText : str) : str :=
  stripTrailingCR (List.hd [] (splitLF (stripLeadingBOM csvText))).

Definition headerCellsOf (csvText : str) : list str :=
  let headerLine := headerLineOf csvText in
  List.map trim (splitCsvLine headerLine (detectDelimiter headerLine)).

Definition parseCsv (csvText : str) : ParseResult :=
  if isEmpty csvText || isEmpty (trim csvText) then failure MSG_EMPTY
  else
    let text := stripLeadingBOM csvText in
    let rawLines := splitLF text in
    if (length rawLines <? 2)%nat then failure MSG_TOO_FEW
    else
      let headerLine := stripTrailingCR (List.hd [] rawLines) in
      let delimiter := detectDelimiter headerLine in
      let headerCells := List.map trim (splitCsvLine headerLine delimiter) in
      let indexOf := resolveHeaders headerCells in
      let missingRequired := missingRequiredOf indexOf in
      match missingRequired with
      | _ :: _ => failure (missingHeadersMessage missingRequired headerCells)
      | [] =>
        let st :=
          dataLoop indexOf delimiter 1%nat (List.tl rawLines)
            initialLoopState in
        {| rows := l_rows st;
           sessionNames := sort (l_sessionNames st);
           errors := l_errors st |}
      end.

End Importer.

(** Lower-casing of the ASCII letters, other units kept: what
    [toLowerCase] does on a string of ASCII units. *)
Definition asciiLower (s : str) : str :=
  List.map (fun c => if (65 <=? c) && (c <=? 90) then c + 32 else c) s.

(** [!csvText || !csvText.trim()], also the test on a data line. *)
Definition isBlank (s : str) : bool := isEmpty s || isEmpty (trim s).

Definition allWhiteSpace (s : str) : bool := forallb isWhiteSpace s.

(** The lines after the header line. *)
Definition dataLinesOf (csvText : str) : list str :=
  List.tl (splitLF (stripLeadingBOM csvText)).

(** The state of the loop when it reaches the line [rawLines[lineNo]],
    for [lineNo] from 1 on. *)
Definition stateAtLine (toLowerCase : str -> str) (csvText : str)
    (lineNo : nat) : LoopState :=
  dataLoop (resolveHeaders toLowerCase (headerCellsOf csvText))
    (detectDelimiter (headerLineOf csvText)) 1%nat
    (take (lineNo - 1) (dataLinesOf csvText)) initialLoopState.

(** The required headers of a document that do not resolve. *)
Definition missingRequiredIn (toLowerCase : str -> str) (csvText : str)
    : list Key :=
  missingRequiredOf (resolveHeaders toLowerCase (headerCellsOf csvText)).

(** A row-level diagnostic. *)
Definition isRowMessage (e : str) : Prop :=
  exists lineNo k missing, e = rowMessage lineNo (k :: missing).

(** A document-level diagnostic: one of the three the importer returns
    without reading rows. *)
Definition isDocumentMessage (e : str) : Prop :=
  e = MSG_EMPTY \/ e = MSG_TOO_FEW
  \/ exists missing cells, e = missingHeadersMessage missing cells.

Definition strLt (x y : str) : Prop := strLtb x y = true.

(** What the loop keeps true of its state. *)
Definition loopInvariant (st : LoopState) : Prop :=
  (forall s, s ∈ l_sessionNames st
     <-> s <> [] /\ exists row, row ∈ l_rows st /\ Day row = s)
  /\ NoDup (l_sessionNames st)
  /\ Forall isRowMessage (l_errors st)
  /\ Forall (fun row => forall k, Trimmed (field k row)) (l_rows st).

(** What [normHeader] hands to [toLowerCase]. *)
Definition preNorm (h : str) : str :=
  removeAll 58
    (collapseRuns isDashOrUnderscore false
      (collapseRuns isWhiteSpace false
        (removeAll BOM (trim h)))).

Definition isAscii (s : str) : bool := forallb (fun c => c <? 128) s.

(** The strings of the alias table, canonical names included. *)
Definition aliasNames : list str :=
  flat_map (fun e => keyName (fst e) :: snd e) headerMap.

(** A lower-casing function that does on ASCII strings what
    [toLowerCase] does on them. *)
Definition asciiAgree (toLowerCase : str -> str) : Prop :=
  forall s, isAscii s = true -> toLowerCase s = asciiLower s.

(** Scenario A of the specification. *)
Definition scenarioA : str :=
  lit "Day,Exercise,Sets,Reps or Time,Weight" ++ [LF]
  ++ lit "Day 1,Push-ups,3,12,Bodyweight" ++ [LF]
  ++ lit "Day 1,Plank,3,60s," ++ [LF]
  ++ lit "Day 2,Squats,4,10,40kg".

(** Scenario B: scenario A without the [Weight] column. *)
Definition scenarioB : str :=
  lit "Day,Exercise,Sets,Reps or Time" ++ [LF]
  ++ lit "Day 1,Push-ups,3,12" ++ [LF]
  ++ lit "Day 2,Squats,4,10".

(** A header line, its line feed, and white space only after it. *)
Definition headerOnly : str :=
  lit "Date,Workout,Set,Reps,Load" ++ [CR; LF] ++ lit "  " ++ [CR; LF; LF].

(** A document whose [Day] cells carry white space around the name. *)
Definition paddedDays : str :=
  lit " day , name,sets,reps,kg" ++ [LF]
  ++ lit "  Leg day  ,Squats,4,10,40" ++ [LF]
  ++ lit "Arm day,Curls,3,12,10" ++ [LF]
  ++ lit "Leg day ,Lunges,3,10,".

(** ** The session builder: [buildTodaySessions] *)

Module ExerciseVM.
Record t := {
  id : str;
  sessionName : str;
  name : str;
  sets : Z;
  repsText : str;
  weightText : str;
  notes : str;
  formGuidance : str;
  muscleGroup : str;
  mainMuscle : str
}.
End ExerciseVM.

Module Session.
Record t := {
  name : str;
  exercises : list ExerciseVM.t
}.
End Session.

(** The value of a code unit as a digit of the radix, if it is one. *)
Definition digitValue (radix : N) (c : N) : option N :=
  let v :=
    if (48 <=? c) && (c <=? 57) then Some (c - 48)
    else if (97 <=? c) && (c <=? 122) then Some (c - 97 + 10)
    else if (65 <=? c) && (c <=? 90) then Some (c - 65 + 10)
    else None in
  match v with
  | Some d => if d <? radix then Some d else None
  | None => None
  end.

(** The longest prefix of digits, as a number; [None] when it is empty. *)
Fixpoint parseDigits (radix : N) (s : str) (acc : option N) : option N :=
  match s with
  | [] => acc
  | c :: rest =>
    match digitValue radix c with
    | Some d =>
      parseDigits radix rest
        (Some (match acc with Some a => a * radix + d | None => d end))
    | None => acc
    end
  end.

(** [parseInt(s)] with no radix argument (ECMA-262, 19.2.5): leading
    white space skipped, an optional sign, a [0x] prefix for radix 16,
    then the longest prefix of digits.  [None] is [NaN].  The result is
    the mathematical integer; a Number holds it exactly up to 2^53, and
    rounding beyond that changes neither its sign nor whether it is 0. *)
Definition parseInt (s : str) : option Z :=
  let s1 := trimStart s in
  let signed :=
    match s1 with
    | c :: rest =>
      if c =? 45 then ((-1)%Z, rest)
      else if c =? 43 then (1%Z, rest)
      else (1%Z, s1)
    | [] => (1%Z, s1)
    end in
  let prefixed :=
    match snd signed with
    | a :: b :: rest =>
      if (a =? 48) && ((b =? 120) || (b =? 88)) then (16, rest)
      else (10, snd signed)
    | _ => (10, snd signed)
    end in
  match parseDigits (fst prefixed) (snd prefixed) None with
  | Some n => Some (fst signed * Z.of_N n)%Z
  | None => None
  end.

(** [x || 1] on a Number: [NaN] and [0] are falsy. *)
Definition orOne (x : option Z) : Z :=
  match x with
  | Some z => if (z =? 0)%Z then 1%Z else z
  | None => 1%Z
  end.

Definition exerciseOf (sessionName : str) (index : nat) (row : CsvRow)
    : ExerciseVM.t :=
  {| ExerciseVM.id :=
       sessionName ++ lit "-" ++ Exercise row ++ lit "-" ++ decimal index;
     ExerciseVM.sessionName := sessionName;
     ExerciseVM.name := Exercise row;
     ExerciseVM.sets := orOne (parseInt (Sets row));
     ExerciseVM.repsText := Reps_or_Time row;
     ExerciseVM.weightText := Weight row;
     ExerciseVM.notes := Notes row;
     ExerciseVM.formGuidance := Form_Guidance row;
     ExerciseVM.muscleGroup := Muscle_Group row;
     ExerciseVM.mainMuscle := Main_Muscle row |}.

(** [parsedRows.filter(row => row.Day === sessionName)]. *)
Definition sessionRowsOf (parsedRows : list CsvRow) (sessionName : str)
    : list CsvRow :=
  List.filter (fun row => bool_decide (Day row = sessionName)) parsedRows.

Definition buildTodaySessions (parsedRows : list CsvRow)
    (selectedSessions : list str) : list Session.t :=
  List.map
    (fun sessionName =>
       {| Session.name := sessionName;
          Session.exercises :=
            imap (exerciseOf sessionName) (sessionRowsOf parsedRows sessionName) |})
    selectedSessions.

(** ** The persistent store: [storage.ts] and [storageReducer.ts] *)

(** JavaScript values as the store handles them.  An object is a finite
    map from property names to values; a property may hold [undefined].
    Numbers are the integers (counts, indices, versions, milliseconds). *)
#[local] Set Warnings "-register-all".
Inductive jsval :=
| VUndefined
| VNull
| VBool (b : bool)
| VNum (n : Z)
| VStr (s : str)
| VArr (items : list jsval)
| VObj (props : gmap str jsval).
#[local] Set Warnings "register-all".

(** [o[k]]: a missing property reads as [undefined]. *)
Definition getProp (o : gmap str jsval) (k : str) : jsval :=
  default VUndefined (o !! k).

(** [{ ...a, ...b }]: the properties of [b] over those of [a]. *)
Definition spread (a b : gmap str jsval) : gmap str jsval := b ∪ a.

(** An object literal. *)
Definition object (props : list (string * jsval)) : gmap str jsval :=
  list_to_map (List.map (fun p => (lit (fst p), snd p)) props).

(** [JSON.parse(JSON.stringify(v))]: a property holding [undefined] is
    left out, an array element holding [undefined] becomes [null],
    everything else is kept (ECMA-262, 25.5.2). *)
Fixpoint jsonClean (v : jsval) : jsval :=
  match v with
  | VArr items =>
    VArr (List.map
            (fun x => match x with VUndefined => VNull | _ => jsonClean x end)
            items)
  | VObj props =>
    VObj (omap
            (fun x => match x with VUndefined => None | _ => Some (jsonClean x) end)
            props)
  | _ => v
  end.

Definition isUndefined (v : jsval) : bool :=
  match v with VUndefined => true | _ => false end.

(** A value that JSON text can denote: no [undefined] in it. *)
Fixpoint jsonSafe (v : jsval) : bool :=
  match v with
  | VUndefined => false
  | VArr items => forallb jsonSafe items
  | VObj props => map_fold (fun _ x acc => jsonSafe x && acc) true props
  | _ => true
  end.

(** How deep the arrays and objects of a value nest. *)
Fixpoint depth (v : jsval) : nat :=
  match v with
  | VArr items => S (foldr (fun x acc => Nat.max (depth x) acc) 0%nat items)
  | VObj props => S (map_fold (fun _ x acc => Nat.max (depth x) acc) 0%nat props)
  | _ => 0%nat
  end.

(** What is stored under a key is text.  The program looks at a text
    only through its truthiness and through [JSON.parse], and writes only
    what [JSON.stringify] returns, so a text is represented by a value it
    is the JSON text of, when there is one. *)
Inductive StoredText :=
| EmptyText                  (* the empty string *)
| Malformed                  (* a text that is not JSON *)
| Stringified (v : jsval).   (* the JSON text of [v] *)

(** [JSON.stringify(v)], as [setItem] stores it: for [undefined] there is
    no JSON text, and the text stored is "undefined". *)
Definition JSON_stringify (v : jsval) : StoredText :=
  match v with
  | VUndefined => Malformed
  | _ => Stringified v
  end.

(** [JSON.parse(text)]; [None] when it throws. *)
Definition JSON_parse (text : StoredText) : option jsval :=
  match text with
  | EmptyText | Malformed | Stringified VUndefined => None
  | Stringified v => Some (jsonClean v)
  end.

Abbreviation Storage := (gmap str StoredText).

(** Code that reads and writes [localStorage].  The store is taken to
    serve every call: a browser that refuses access or is out of quota
    makes [getItem], [setItem] or [removeItem] throw, which the [catch]
    blocks of the source log and which is left out here. *)
Definition Store (A : Type) : Type := Storage -> A * Storage.

Definition ret {A} (a : A) : Store A := fun st => (a, st).

Definition bind {A B} (m : Store A) (f : A -> Store B) : Store B :=
  fun st => let '(a, st') := m st in f a st'.

Notation "x <- m ;; k" := (bind m (fun x => k))
  (at level 100, m at next level, right associativity).
Notation "m ;;; k" := (bind m (fun _ => k))
  (at level 100, right associativity).

Definition STORAGE_KEY : str := lit "motion_lite_state".
Definition SCHEMA_VERSION : Z := 1.

Definition DEFAULT_STATE : gmap str jsval :=
  object
    [ ("panel", VStr (lit "landing"));
      ("csvText", VUndefined);
      ("parsedRows", VUndefined);
      ("sessionNames", VUndefined);
      ("selectedSessions", VArr []);
      ("currentSessionIndex", VNum 0);
      ("currentExerciseIndex", VObj ∅);
      ("checkedSets", VObj ∅);
      ("sessionTemplates", VObj ∅);
      ("timers",
        VObj (object
          [ ("countdown",
              VObj (object [ ("remainingMs", VNum 0); ("initialMs", VNum 0);
                             ("isRunning", VBool false) ]));
            ("stopwatch",
              VObj (object [ ("elapsedMs", VNum 0);
                             ("isRunning", VBool false) ])) ]));
      ("version", VNum SCHEMA_VERSION);
      ("csvMeta", VUndefined);
      ("sessionCompletion", VObj ∅) ]%string.

(** [localStorage.removeItem(STORAGE_KEY)]. *)
Definition clearAll : Store unit :=
  fun st => (tt, delete STORAGE_KEY st).

(** [v === n] for a number [n]. *)
Definition strictEqNum (v : jsval) (n : Z) : bool :=
  match v with
  | VNum m => (m =? n)%Z
  | _ => false
  end.

(** [parsed.version]; [None] when reading the property throws, which it
    does on [null] and [undefined].  Arrays and primitive values have no
    such property. *)
Definition versionOf (parsed : jsval) : option jsval :=
  match parsed with
  | VUndefined | VNull => None
  | VObj props => Some (getProp props (lit "version"))
  | VBool _ | VNum _ | VStr _ | VArr _ => Some VUndefined
  end.

(** The properties [{ ...parsed }] copies.  The spread is reached with a
    [version] property equal to [SCHEMA_VERSION] only, that is, with an
    object. *)
Definition ownProps (parsed : jsval) : gmap str jsval :=
  match parsed with
  | VObj props => props
  | _ => ∅
  end.

(** [getState]: every path that throws ends in the [catch], which returns
    the defaults and leaves the store as it is. *)
Definition getState : Store (gmap str jsval) :=
  fun st =>
    match st !! STORAGE_KEY with
    | None | Some EmptyText => (DEFAULT_STATE, st)        (* [!stored] *)
    | Some stored =>
      match JSON_parse stored with
      | None => (DEFAULT_STATE, st)                       (* [JSON.parse] throws *)
      | Some parsed =>
        match versionOf parsed with
        | None => (DEFAULT_STATE, st)                     (* [parsed.version] throws *)
        | Some version =>
          if strictEqNum version SCHEMA_VERSION
          then (spread DEFAULT_STATE (ownProps parsed), st)
          else (clearAll ;;; ret DEFAULT_STATE) st
        end
      end
    end.

(** [localStorage.setItem(STORAGE_KEY, JSON.stringify(state))]. *)
Definition setState (state : gmap str jsval) : Store unit :=
  fun st => (tt, <[STORAGE_KEY := JSON_stringify (VObj state)]> st).

Definition updateState (updates : gmap str jsval) : Store unit :=
  currentState <- getState ;;
  setState (spread currentState updates).

Definition rowToJs (row : CsvRow) : jsval :=
  VObj (object
    [ ("Day", VStr (Day row));
      ("Exercise", VStr (Exercise row));
      ("Sets", VStr (Sets row));
      ("Reps or Time", VStr (Reps_or_Time row));
      ("Weight", VStr (Weight row));
      ("Notes", VStr (Notes row));
      ("Form Guidance", VStr (Form_Guidance row));
      ("Muscle Group", VStr (Muscle_Group row));
      ("Main Muscle", VStr (Main_Muscle row));
      ("Day Type", VStr (Day_Type row)) ]%string).

Module storageActions.

(** The object literal [setCsvData] hands to [updateState]. *)
Definition csvDataUpdates (csvText : str) (parsedRows : list CsvRow)
    (sessionNames : list str) : gmap str jsval :=
  object
    [ ("csvText", VStr csvText);
      ("parsedRows", VArr (List.map rowToJs parsedRows));
      ("sessionNames", VArr (List.map VStr sessionNames));
      (* Reset related state when CSV changes *)
      ("selectedSessions", VArr []);
      ("currentSessionIndex", VNum 0);
      ("currentExerciseIndex", VObj ∅);
      ("checkedSets", VObj ∅) ]%string.

Definition setCsvData (csvText : str) (parsedRows : list CsvRow)
    (sessionNames : list str) : Store unit :=
  updateState (csvDataUpdates csvText parsedRows sessionNames).

End storageActions.

(** The document in the store, as [JSON.parse] reads it. *)
Definition storedDocument (st : Storage) : option jsval :=
  st !! STORAGE_KEY ≫= JSON_parse.

(** A snapshot that the JSON text gives back merged over the defaults:
    each property holds a JSON value, or holds [undefined] where the
    default does too. *)
Definition survivesJson (snapshot : gmap str jsval) : bool :=
  map_fold
    (fun k v acc =>
       (if isUndefined v then isUndefined (getProp DEFAULT_STATE k)
        else jsonSafe v) && acc)
    true snapshot.

(** The properties [setCsvData] writes. *)
Definition csvDataKeys : list str :=
  [ lit "csvText"; lit "parsedRows"; lit "sessionNames";
    lit "selectedSessions"; lit "currentSessionIndex";
    lit "currentExerciseIndex"; lit "checkedSets" ].

(** The other properties of the document. *)
Definition otherKeys : list str :=
  [ lit "panel"; lit "sessionTemplates"; lit "timers"; lit "version";
    lit "csvMeta"; lit "sessionCompletion" ].

(** ** The rest of [storage.ts] and [storageReducer.ts] *)

(** [!!v]. *)
Definition truthy (v : jsval) : bool :=
  match v with
  | VUndefined | VNull => false
  | VBool b => b
  | VNum n => negb (n =? 0)%Z
  | VStr s => negb (isEmpty s)
  | VArr _ | VObj _ => true
  end.

(** [a || b]. *)
Definition orElse (a b : jsval) : jsval := if truthy a then a else b.

(** The properties [{ ...v }] copies from any value: those of an object,
    the elements of an array and the units of a string under their
    indices, nothing from the other values. *)
Definition spreadOf (v : jsval) : gmap str jsval :=
  match v with
  | VObj props => props
  | VArr items => list_to_map (imap (fun i x => (decimal i, x)) items)
  | VStr s => list_to_map (imap (fun i c => (decimal i, VStr [c])) s)
  | VUndefined | VNull | VBool _ | VNum _ => ∅
  end.

(** [v.length], read on a truthy value. *)
Definition lengthOf (v : jsval) : jsval :=
  match v with
  | VArr items => VNum (Z.of_nat (length items))
  | VStr s => VNum (Z.of_nat (length s))
  | VObj props => getProp props (lit "length")
  | VUndefined | VNull | VBool _ | VNum _ => VUndefined
  end.

Record CsvMeta := {
  sessionsCount : Z;
  uploadedAt : Z
}.

Definition metaToJs (meta : CsvMeta) : jsval :=
  VObj (object [ ("sessionsCount", VNum (sessionsCount meta));
                 ("uploadedAt", VNum (uploadedAt meta)) ]%string).

(** The entry [{ completed, completedAt: Date.now() }]. *)
Definition completionEntry (completed : bool) (now : Z) : jsval :=
  VObj (object [ ("completed", VBool completed);
                 ("completedAt", VNum now) ]%string).

Section Coercion.

(** [x > 0] turns a string, an array or an object into a number first;
    that conversion is the host's and is taken as given. *)
Variable coercedPositive : jsval -> bool.

Definition greaterThanZero (x : jsval) : bool :=
  match x with
  | VNum n => (0 <? n)%Z
  | VBool b => b
  | VUndefined | VNull => false
  | VStr _ | VArr _ | VObj _ => coercedPositive x
  end.

(** [hasCsv]. *)
Definition hasCsv : Store bool :=
  state <- getState ;;
  ret (truthy (getProp state (lit "csvText"))
       && truthy (getProp state (lit "parsedRows"))
       && greaterThanZero (lengthOf (getProp state (lit "parsedRows")))).

End Coercion.

Definition getCsvMeta : Store jsval :=
  state <- getState ;;
  ret (orElse (getProp state (lit "csvMeta")) VNull).

Definition setCsvMeta (meta : CsvMeta) : Store unit :=
  updateState (object [ ("csvMeta", metaToJs meta) ]%string).


(** [setSessionCompletion]; [now] is what [Date.now()] returns. *)
Definition setSessionCompletion (now : Z) (sessionName : str)
    (completed : bool) : Store unit :=
  currentState <- getState ;;
  let sessionCompletion :=
    orElse (getProp currentState (lit "sessionCompletion")) (VObj ∅) in
  let updatedCompletion :=
    <[ sessionName := completionEntry completed now ]>
      (spreadOf sessionCompletion) in
  updateState (object [ ("sessionCompletion", VObj updatedCompletion) ]%string).




(** The other actions of [storageReducer.ts]. *)
Module storageReducer.

Definition setPanel (panel : str) : Store unit :=
  updateState (object [ ("panel", VStr panel) ]%string).

Definition setSelectedSessions (sessions : list str) : Store unit :=
  updateState (object [ ("selectedSessions", VArr (List.map VStr sessions)) ]%string).

Definition setSessionCompletion (now : Z) (sessionName : str)
    (completed : bool) : Store unit :=
  currentState <- getState ;;
  let sessionCompletion :=
    orElse (getProp currentState (lit "sessionCompletion")) (VObj ∅) in
  let updatedCompletion :=
    <[ sessionName := completionEntry completed now ]>
      (spreadOf sessionCompletion) in
  updateState (object [ ("sessionCompletion", VObj updatedCompletion) ]%string).


Definition setVersion (version : Z) : Store unit :=
  updateState (object [ ("version", VNum version) ]%string).

Definition setCsvMeta (meta : CsvMeta) : Store unit :=
  updateState (object [ ("csvMeta", metaToJs meta) ]%string).

Definition clearAll : Store unit := clearAll.

End storageReducer.

(** What a later [getState] returns. *)
Definition readBack (st : Storage) : gmap str jsval := fst (getState st).

(** An update that leaves the version alone, or sets the current one. *)
Definition keepsVersion (updates : gmap str jsval) : bool :=
  match updates !! lit "version" with
  | None => true
  | Some x => strictEqNum x SCHEMA_VERSION
  end.

(** How a later [getState] reads a property an update has set. *)
Definition writtenAs (k : str) (x : jsval) : jsval :=
  if isUndefined x then getProp DEFAULT_STATE k else jsonClean x.

(** ** The upload flow: [UploadPanel.tsx] and [App.tsx] *)

(** What [handleUploadSuccess] does to the store; it also sets the state
    of the component, which is outside the store. *)
Definition handleUploadSuccess (rawCsvText : str) (parsedRows : list CsvRow)
    (sessionNames : list str) : Store unit :=
  storageActions.setCsvData rawCsvText parsedRows sessionNames ;;;
  storageReducer.setPanel (lit "landing").

(** [handleProcessCsv] of the upload panel, with the text the panel
    holds, its two callbacks and the value of [Date.now()]. *)
Definition handleProcessCsv (toLowerCase : str -> str) (now : Z)
    (isReupload : bool)
    (onSuccess onReplaceConfirm : str -> list CsvRow -> list str -> Store unit)
    (csvText : str) : Store unit :=
  if isEmpty csvText then ret tt
  else
    let parseResult := parseCsv toLowerCase csvText in
    if (length (errors parseResult) =? 0)%nat then
      setCsvMeta {| sessionsCount := Z.of_nat (length (sessionNames parseResult));
                    uploadedAt := now |} ;;;
      (if isReupload
       then onReplaceConfirm csvText (rows parseResult) (sessionNames parseResult)
       else onSuccess csvText (rows parseResult) (sessionNames parseResult))
    else ret tt.

(** ** Progress: [progress.ts] *)

(** The property names every object inherits from [Object.prototype]
    (ECMA-262, 20.1.3 and B.2.2). *)
Definition objectPrototypeKeys : list str :=
  [ lit "constructor"; lit "__proto__"; lit "hasOwnProperty";
    lit "isPrototypeOf"; lit "propertyIsEnumerable"; lit "toLocaleString";
    lit "toString"; lit "valueOf"; lit "__defineGetter__";
    lit "__defineSetter__"; lit "__lookupGetter__"; lit "__lookupSetter__" ].

(** [(checkedSets[id] || []).filter(Boolean).length].  A name the object
    does not hold itself may be inherited: what is inherited is truthy and
    has no [filter], so the call throws ([None]). *)
Definition completedSetsOf (checkedSets : gmap str (list bool)) (id : str)
    : option nat :=
  match checkedSets !! id with
  | Some exerciseSets => Some (length (List.filter (fun b => b) exerciseSets))
  | None =>
    if bool_decide (id ∈ objectPrototypeKeys) then None else Some 0%nat
  end.

(** [exercises.every(...)]: stops at the first exercise that is not
    complete. *)
Fixpoint everyComplete (checkedSets : gmap str (list bool))
    (exercises : list ExerciseVM.t) : option bool :=
  match exercises with
  | [] => Some true
  | exercise :: rest =>
    match completedSetsOf checkedSets (ExerciseVM.id exercise) with
    | None => None
    | Some completedSets =>
      if (ExerciseVM.sets exercise <=? Z.of_nat completedSets)%Z
      then everyComplete checkedSets rest
      else Some false
    end
  end.

Definition isSessionFullyComplete (exercises : list ExerciseVM.t)
    (checkedSets : gmap str (list bool)) : option bool :=
  match exercises with
  | [] => Some false
  | _ => everyComplete checkedSets exercises
  end.

(** ** Analytics: [analytics.ts] *)

Module analytics.

Record AnalyticsEvent := {
  event : str;
  properties : jsval
}.

Definition MAX_EVENTS : nat := 100.

(** The module keeps [eventsBuffer]; every function takes it and, where
    it changes it, returns it. *)
Definition track (event : str) (properties : jsval)
    (eventsBuffer : list AnalyticsEvent) : list AnalyticsEvent :=
  let pushed := eventsBuffer ++ [ {| event := event; properties := properties |} ] in
  if (MAX_EVENTS <? length pushed)%nat
  then drop (length pushed - MAX_EVENTS) pushed
  else pushed.

Definition clearEvents (eventsBuffer : list AnalyticsEvent)
    : list AnalyticsEvent := [].

Definition getEvents (eventsBuffer : list AnalyticsEvent)
    : list AnalyticsEvent := eventsBuffer.

Definition eventToJs (e : AnalyticsEvent) : jsval :=
  VObj (object [ ("event", VStr (event e));
                 ("properties", properties e) ]%string).

Definition exportEvents (eventsBuffer : list AnalyticsEvent) : StoredText :=
  JSON_stringify (VArr (List.map eventToJs eventsBuffer)).

Definition trackPanelTransition (from to : str) :=
  track (lit "panel_transition")
    (VObj (object [ ("from", VStr from); ("to", VStr to) ]%string)).

(** [error ?? null] and [rowCount ?? 0] for the two optional arguments. *)
Definition trackCsvValidation (success : bool) (error : option str)
    (rowCount : option Z) :=
  track (lit "csv_validation")
    (VObj (object
      [ ("success", VBool success);
        ("error", match error with Some e => VStr e | None => VNull end);
        ("rowCount", VNum (default 0%Z rowCount)) ]%string)).

Definition trackWorkoutSession (action : str) (sessionCount : Z) :=
  track (lit "workout_session")
    (VObj (object [ ("action", VStr action);
                    ("sessionCount", VNum sessionCount) ]%string)).

(** Tracking one event after the other. *)
Definition trackAll (events : list AnalyticsEvent)
    (eventsBuffer : list AnalyticsEvent) : list AnalyticsEvent :=
  fold_left (fun buffer e => track (event e) (properties e) buffer)
    events eventsBuffer.

End analytics.

(** ** Statements about the importer *)

(** The names a key resolves from, in the order [findIndex] tries them. *)
Definition namesOf (k : Key) : list str :=
  match List.find (fun e => bool_decide (fst e = k)) headerMap with
  | Some e => keyName (fst e) :: snd e
  | None => []
  end.

(** What one data line alone adds to the rows and to the diagnostics. *)
Definition lineOutcome (indexOf : list (Key * option nat))
    (delimiter : Delimiter) (lineNo : nat) (raw : str) : LoopState :=
  loopBody indexOf delimiter lineNo raw initialLoopState.

(** A row with all five required fields. *)
Definition isComplete (row : CsvRow) : bool :=
  match missingInRowOf row with [] => true | _ :: _ => false end.

(** Upper-casing of the ASCII letters. *)
Definition asciiUpper (s : str) : str :=
  List.map (fun c => if (97 <=? c) && (c <=? 122) then c - 32 else c) s.

(** A text with every line feed preceded by a carriage return: the line
    endings of Windows. *)
Definition withCRLF (text : str) : str :=
  flat_map (fun c => if c =? LF then [CR; LF] else [c]) text.

(** * Properties *)

(** ** Strings *)

Section StringFacts.

Lemma existsb_false_In {A} (f : A -> bool) (l : list A) (x : A) :
  existsb f l = false -> In x l -> f x = false.
Proof.
  intros H Hin. destruct (f x) eqn:E; [|reflexivity].
  rewrite <- H. symmetry. apply existsb_exists. eauto.
Qed.

Lemma trimStart_head_not_space (s : str) c rest :
  trimStart s = c :: rest -> isWhiteSpace c = false.
Proof.
  induction s as [|a s IH]; simpl; [discriminate|].
  destruct (isWhiteSpace a) eqn:Ha; [exact IH|].
  intros [= <- _]. exact Ha.
Qed.

Lemma trimStart_fixed (s : str) c rest :
  s = c :: rest -> isWhiteSpace c = false -> trimStart s = s.
Proof. intros -> H. simpl. now rewrite H. Qed.

(** [trimStart] only removes a prefix, so the last unit stays the last. *)
Lemma trimStart_suffix (s : str) : exists p, s = p ++ trimStart s.
Proof.
  induction s as [|a s [p Hp]]; simpl.
  - now exists [].
  - destruct (isWhiteSpace a).
    + exists (a :: p). simpl. now f_equal.
    + now exists [].
Qed.

Lemma trimStart_last (s : str) c :
  isWhiteSpace c = false -> trimStart (s ++ [c]) = trimStart s ++ [c].
Proof.
  intros Hc. induction s as [|a s IH]; simpl.
  - now rewrite Hc.
  - destruct (isWhiteSpace a); [exact IH | reflexivity].
Qed.

Lemma Trimmed_nil : Trimmed [].
Proof. split; simpl; discriminate. Qed.

Lemma trim_Trimmed (s : str) : Trimmed (trim s).
Proof.
  unfold trim, trimEnd. split; intros c Hc.
  - (* the first unit survives the trim at the end, so it is the first
       unit of [trimStart s] *)
    destruct (trimStart (rev (trimStart s))) as [|z zs] eqn:Hz;
      [simpl in Hc; discriminate|].
    destruct (trimStart_suffix (rev (trimStart s))) as [p Hp].
    rewrite Hz in Hp.
    assert (Hs : trimStart s = rev zs ++ z :: rev p).
    { rewrite <- (rev_involutive (trimStart s)), Hp, rev_app_distr. simpl.
      now rewrite <- app_assoc. }
    assert (Hz0 : isWhiteSpace z = false)
      by (eapply trimStart_head_not_space; exact Hz).
    simpl in Hc.
    destruct (rev zs) as [|y ys] eqn:Hr; simpl in Hc.
    + injection Hc as <-. exact Hz0.
    + injection Hc as <-.
      eapply trimStart_head_not_space. exact Hs.
  - rewrite rev_involutive in Hc.
    destruct (trimStart (rev (trimStart s))) as [|z zs] eqn:Hz;
      [discriminate|].
    injection Hc as <-. eapply trimStart_head_not_space. exact Hz.
Qed.

Lemma Trimmed_trim (s : str) : Trimmed s -> trim s = s.
Proof.
  intros [Hh Hl]. unfold trim, trimEnd.
  assert (H1 : trimStart s = s).
  { destruct s as [|c r]; [reflexivity|].
    eapply trimStart_fixed; [reflexivity | apply Hh; reflexivity]. }
  rewrite H1.
  destruct (rev s) as [|c r] eqn:Hr.
  - simpl. rewrite <- (rev_involutive s), Hr. reflexivity.
  - rewrite (trimStart_fixed (c :: r) c r eq_refl (Hl c eq_refl)).
    rewrite <- Hr. apply rev_involutive.
Qed.

Lemma trim_idempotent (s : str) : trim (trim s) = trim s.
Proof. apply Trimmed_trim, trim_Trimmed. Qed.

End StringFacts.

(** ** The tokenizer *)

Section Tokenizer.

Variable D : Delimiter.

Abbreviation d := (delimChar D).

Lemma delim_not_quote : (d =? QUOTE) = false.
Proof. now destruct D. Qed.

Lemma delim_not_cr : (d =? CR) = false.
Proof. now destruct D. Qed.

(** Outside quotes, units that are no quote, delimiter or carriage return
    are copied to the current field. *)
Lemma splitLoop_plain (f tail cur : str) (out : list str) :
  Forall (fun c => ((c =? QUOTE) || (c =? d) || (c =? CR)) = false) f ->
  splitLoop d (f ++ tail) false cur out
  = splitLoop d tail false (cur ++ f) out.
Proof.
  intros Hf. revert cur.
  induction Hf as [|c f Hc _ IH]; intros cur.
  - now rewrite app_nil_r.
  - apply orb_false_elim in Hc as [Hc Hcr].
    apply orb_false_elim in Hc as [Hq Hd].
    simpl. rewrite Hq, Hd, Hcr, IH.
    now rewrite <- app_assoc.
Qed.

(** Inside quotes, a field with its quotes doubled is read back up to the
    closing quote. *)
Lemma splitLoop_quoted (f tail cur : str) (out : list str) :
  List.hd_error tail <> Some QUOTE ->
  splitLoop d (doubleQuotes f ++ QUOTE :: tail) true cur out
  = splitLoop d tail false (cur ++ f) out.
Proof.
  intros Htail. revert cur.
  induction f as [|c f IH]; intros cur.
  - rewrite app_nil_r. simpl.
    destruct tail as [|t tail']; [reflexivity|].
    destruct (N.eqb_spec t QUOTE) as [->|_]; [now elim Htail | reflexivity].
  - simpl. destruct (N.eqb_spec c QUOTE) as [->|Hc].
    + simpl. rewrite IH. now rewrite <- app_assoc.
    + simpl. apply N.eqb_neq in Hc. rewrite Hc, IH.
      now rewrite <- app_assoc.
Qed.

Lemma splitLoop_encodeField (f tail cur : str) (out : list str) :
  survives D f = true ->
  List.hd_error tail <> Some QUOTE ->
  splitLoop d (encodeField D f ++ tail) false cur out
  = splitLoop d tail false (cur ++ f) out.
Proof.
  intros Hs Htail. unfold encodeField.
  destruct (needsQuoting D f) eqn:Hq.
  - simpl. rewrite <- app_assoc. simpl. now apply splitLoop_quoted.
  - apply splitLoop_plain.
    unfold survives in Hs. rewrite Hq in Hs. simpl in Hs.
    apply negb_true_iff in Hs. unfold needsQuoting, includes in *.
    apply List.Forall_forall. intros c Hc.
    assert (H1 := existsb_false_In _ _ c Hq Hc).
    assert (H2 := existsb_false_In _ _ c Hs Hc).
    simpl in H1, H2. apply orb_false_elim in H1 as [H1 H1'].
    rewrite H1', H1. simpl.
    rewrite N.eqb_sym. exact H2.
Qed.

Lemma splitLoop_delim (rest cur : str) (out : list str) :
  splitLoop d (d :: rest) false cur out
  = splitLoop d rest false [] (out ++ [cur]).
Proof. simpl. now rewrite delim_not_quote, N.eqb_refl. Qed.

Lemma splitLoop_buildLine (fields : list str) (f : str) (out : list str) :
  forallb (survives D) (f :: fields) = true ->
  splitLoop d (buildLine D (f :: fields)) false [] out = out ++ f :: fields.
Proof.
  unfold buildLine. revert f out.
  induction fields as [|g fields IH]; intros f out Hall.
  - simpl. rewrite <- (app_nil_r (encodeField D f)).
    simpl in Hall. apply andb_true_iff in Hall as [Hf _].
    rewrite splitLoop_encodeField; [reflexivity|exact Hf|simpl; discriminate].
  - change (join [delimChar D] (List.map (encodeField D) (f :: g :: fields)))
      with (encodeField D f
            ++ d :: join [delimChar D] (List.map (encodeField D) (g :: fields))).
    apply andb_true_iff in Hall as [Hf Hrest].
    rewrite splitLoop_encodeField; [|exact Hf|].
    + rewrite splitLoop_delim, IH by exact Hrest.
      now rewrite <- app_assoc.
    + simpl. intros [= E]. pose proof delim_not_quote as Hq.
      rewrite E in Hq. discriminate.
Qed.

End Tokenizer.

(** C3, as amended: for every non-empty sequence of fields in which each
    field that the builder leaves unwrapped holds no carriage return,
    tokenizing the built line with the same delimiter gives the fields
    back. *)
Theorem C3_tokenizer_round_trip (d : Delimiter) (f : str) (fields : list str) :
  forallb (survives d) (f :: fields) = true ->
  splitCsvLine (buildLine d (f :: fields)) d = f :: fields.
Proof.
  intros H. unfold splitCsvLine.
  now rewrite (splitLoop_buildLine d fields f []).
Qed.

Lemma C3_tokenizer_round_trip_witness :
  let fields :=
    [lit "Squats, Barbell"; [65; CR; COMMA; QUOTE; 66]; []; lit "say 3"] in
  forallb (survives Comma) (lit "Day 1" :: fields) = true
  /\ splitCsvLine (buildLine Comma (lit "Day 1" :: fields)) Comma
     = lit "Day 1" :: fields.
Proof.
  split; [reflexivity|].
  apply (C3_tokenizer_round_trip Comma). reflexivity.
Defined.

(** C3 as stated fails: an unwrapped field loses its carriage return, and
    the empty sequence comes back as one empty field. *)
Lemma C3_counterexample :
  splitCsvLine (buildLine Comma [[97; CR; 98]]) Comma = [[97; 98]]
  /\ splitCsvLine (buildLine Comma [[97; CR; 98]]) Comma <> [[97; CR; 98]]
  /\ splitCsvLine (buildLine Tab []) Tab = [[]].
Proof. repeat split. discriminate. Qed.

(** Scenario C: a quoted field keeps its comma and loses its quotes. *)
Example scenario_C :
  splitCsvLine (lit "Day 1," ++ QUOTE :: lit "Squats, Barbell" ++ QUOTE :: lit ",3")
    Comma
  = [lit "Day 1"; lit "Squats, Barbell"; lit "3"].
Proof. reflexivity. Qed.

(** A line always gives at least one field, and an open quote is closed
    by the end of the line. *)
Example tokenizer_lenient :
  splitCsvLine [] Tab = [[]]
  /\ splitCsvLine (lit "a," ++ QUOTE :: lit "b,c") Comma = [lit "a"; lit "b,c"].
Proof. split; reflexivity. Qed.

(** ** The order of [sort] *)

Section StringOrder.

Lemma strLtb_irrefl (x : str) : strLtb x x = false.
Proof.
  induction x as [|a x IH]; [reflexivity|]. simpl.
  now rewrite N.ltb_irrefl.
Qed.

Lemma strLtb_trans (x y z : str) :
  strLtb x y = true -> strLtb y z = true -> strLtb x z = true.
Proof.
  revert y z. induction x as [|a x IH]; intros [|b y] [|c z]; simpl;
    try discriminate; try reflexivity.
  destruct (N.ltb_spec a b), (N.ltb_spec b a), (N.ltb_spec b c),
    (N.ltb_spec c b), (N.ltb_spec a c), (N.ltb_spec c a);
    try discriminate; try reflexivity; try lia.
  apply IH.
Qed.

Lemma strLtb_trichotomy (x y : str) :
  strLtb x y = false -> strLtb y x = false -> x = y.
Proof.
  revert y. induction x as [|a x IH]; intros [|b y]; simpl;
    try discriminate; try reflexivity.
  destruct (N.ltb_spec a b), (N.ltb_spec b a); try discriminate; try lia.
  intros H1 H2. assert (a = b) by lia. subst. f_equal. now apply IH.
Qed.

Lemma strLtb_asym (x y : str) : strLtb x y = true -> strLtb y x = false.
Proof.
  intros H. destruct (strLtb y x) eqn:E; [|reflexivity].
  pose proof (strLtb_trans _ _ _ H E) as Hxx.
  now rewrite strLtb_irrefl in Hxx.
Qed.

Global Instance sortBefore_total : Total sortBefore.
Proof.
  intros x y. unfold sortBefore.
  destruct (strLtb y x) eqn:E; [right|left; reflexivity].
  now apply strLtb_asym.
Qed.

Global Instance sortBefore_trans : Transitive sortBefore.
Proof.
  intros x y z Hxy Hyz. unfold sortBefore in *.
  destruct (strLtb z x) eqn:E; [|reflexivity].
  destruct (strLtb x y) eqn:Exy.
  - pose proof (strLtb_trans _ _ _ E Exy). congruence.
  - pose proof (strLtb_trichotomy _ _ Exy Hxy). subst. congruence.
Qed.

Lemma sort_elem_of (l : list str) (x : str) : x ∈ sort l <-> x ∈ l.
Proof. unfold sort. now rewrite merge_sort_Permutation. Qed.

Lemma sort_NoDup (l : list str) : NoDup l -> NoDup (sort l).
Proof. unfold sort. now rewrite merge_sort_Permutation. Qed.

(** Without duplicates, what [sort] returns is strictly increasing. *)
Lemma StronglySorted_strict (l : list str) :
  StronglySorted sortBefore l -> NoDup l -> StronglySorted strLt l.
Proof.
  induction 1 as [|x l Hs IH Hx]; intros Hnd; constructor.
  - apply IH. now inversion Hnd.
  - apply List.Forall_forall. intros y Hy.
    rewrite List.Forall_forall in Hx. specialize (Hx y Hy).
    unfold sortBefore in Hx. unfold strLt.
    destruct (strLtb x y) eqn:E; [reflexivity|].
    pose proof (strLtb_trichotomy _ _ E Hx). subst.
    inversion Hnd as [|? ? Hnotin _]; subst.
    elim Hnotin. now apply list_elem_of_In.
Qed.

Lemma sort_strictly_sorted (l : list str) :
  NoDup l -> StronglySorted strLt (sort l).
Proof.
  intros Hnd. apply StronglySorted_strict.
  - apply StronglySorted_merge_sort; apply _.
  - now apply sort_NoDup.
Qed.

End StringOrder.

(** ** The importer *)

Section ImporterFacts.

Variable toLowerCase : str -> str.

Lemma normHeader_preNorm (h : str) :
  normHeader toLowerCase h = toLowerCase (preNorm h).
Proof. reflexivity. Qed.

Lemma splitLF_cons (s : str) : exists l ls, splitLF s = l :: ls.
Proof.
  induction s as [|c s (l & ls & IH)]; simpl; [eauto|].
  destruct (c =? LF); [eauto|]. rewrite IH. eauto.
Qed.

(** There are fewer than two lines exactly when there is no line feed. *)
Lemma splitLF_length (s : str) :
  (length (splitLF s) <? 2)%nat = negb (includes LF s).
Proof.
  unfold includes. induction s as [|c s IH]; [reflexivity|].
  cbn [splitLF existsb]. rewrite (N.eqb_sym LF c).
  destruct (c =? LF); cbn [orb negb].
  - destruct (splitLF_cons s) as (l & ls & ->). reflexivity.
  - destruct (splitLF_cons s) as (l & ls & E). rewrite E in *. exact IH.
Qed.

Lemma includes_LF_stripLeadingBOM (s : str) :
  includes LF (stripLeadingBOM s) = includes LF s.
Proof.
  destruct s as [|c s]; [reflexivity|]. simpl.
  destruct (N.eqb_spec c BOM) as [->|_]; reflexivity.
Qed.

(** The four ways out of [parseCsv]. *)
Lemma parseCsv_blank (csvText : str) :
  isBlank csvText = true ->
  parseCsv toLowerCase csvText = failure MSG_EMPTY.
Proof. unfold parseCsv, isBlank. now intros ->. Qed.

Lemma parseCsv_one_line (csvText : str) :
  isBlank csvText = false -> includes LF csvText = false ->
  parseCsv toLowerCase csvText = failure MSG_TOO_FEW.
Proof.
  unfold parseCsv, isBlank. intros -> H.
  now rewrite splitLF_length, includes_LF_stripLeadingBOM, H.
Qed.

Lemma parseCsv_missing (csvText : str) (k : Key) (ks : list Key) :
  isBlank csvText = false -> includes LF csvText = true ->
  missingRequiredIn toLowerCase csvText = k :: ks ->
  parseCsv toLowerCase csvText
  = failure (missingHeadersMessage (k :: ks) (headerCellsOf csvText)).
Proof.
  unfold parseCsv, isBlank, missingRequiredIn, headerCellsOf, headerLineOf.
  intros -> H Hm.
  rewrite splitLF_length, includes_LF_stripLeadingBOM, H. simpl.
  now rewrite Hm.
Qed.

Lemma parseCsv_rows (csvText : str) :
  isBlank csvText = false -> includes LF csvText = true ->
  missingRequiredIn toLowerCase csvText = [] ->
  parseCsv toLowerCase csvText
  = let st :=
      dataLoop (resolveHeaders toLowerCase (headerCellsOf csvText))
        (detectDelimiter (headerLineOf csvText)) 1%nat
        (dataLinesOf csvText) initialLoopState in
    {| rows := l_rows st;
       sessionNames := sort (l_sessionNames st);
       errors := l_errors st |}.
Proof.
  unfold parseCsv, isBlank, missingRequiredIn, headerCellsOf, headerLineOf,
    dataLinesOf.
  intros -> H Hm.
  rewrite splitLF_length, includes_LF_stripLeadingBOM, H. simpl.
  now rewrite Hm.
Qed.

(** *** The loop over the data lines *)

Section Loop.

Variable indexOf : list (Key * option nat).
Variable delimiter : Delimiter.

Lemma dataLoop_invariant (P : LoopState -> Prop) :
  (forall lineNo raw st, P st -> P (loopBody indexOf delimiter lineNo raw st)) ->
  forall lines lineNo st, P st -> P (dataLoop indexOf delimiter lineNo lines st).
Proof.
  intros Hstep lines. induction lines as [|raw lines IH]; intros lineNo st Hst.
  - exact Hst.
  - simpl. apply IH, Hstep, Hst.
Qed.

Lemma dataLoop_app (l1 l2 : list str) (lineNo : nat) (st : LoopState) :
  dataLoop indexOf delimiter lineNo (l1 ++ l2) st
  = dataLoop indexOf delimiter (lineNo + length l1) l2
      (dataLoop indexOf delimiter lineNo l1 st).
Proof.
  revert lineNo st. induction l1 as [|raw l1 IH]; intros lineNo st; simpl.
  - now rewrite Nat.add_0_r.
  - rewrite IH. f_equal. lia.
Qed.

(** A line that is skipped, or whose row is dropped, changes nothing. *)
Lemma loopBody_blank (lineNo : nat) (raw : str) (st : LoopState) :
  isBlank raw = true -> loopBody indexOf delimiter lineNo raw st = st.
Proof. unfold loopBody, isBlank. now intros ->. Qed.

(** What the loop body does with a line whose row is kept. *)
Lemma loopBody_kept (lineNo : nat) (raw : str) (st : LoopState) :
  isBlank raw = false ->
  isEmpty (Day (rowOfLine indexOf delimiter raw))
    && isEmpty (Exercise (rowOfLine indexOf delimiter raw)) = false ->
  loopBody indexOf delimiter lineNo raw st
  = let row := rowOfLine indexOf delimiter raw in
    {| l_rows := l_rows st ++ [row];
       l_sessionNames :=
         if isEmpty (Day row) then l_sessionNames st
         else setAdd (Day row) (l_sessionNames st);
       l_errors :=
         match missingInRowOf row with
         | [] => l_errors st
         | _ => l_errors st ++ [rowMessage lineNo (missingInRowOf row)]
         end |}.
Proof. unfold loopBody, isBlank. now intros -> ->. Qed.

(** Rows and diagnostics are only ever appended. *)
Lemma loopBody_extends (lineNo : nat) (raw : str) (st : LoopState) :
  exists rs es,
    l_rows (loopBody indexOf delimiter lineNo raw st) = l_rows st ++ rs
    /\ l_errors (loopBody indexOf delimiter lineNo raw st) = l_errors st ++ es.
Proof.
  unfold loopBody.
  destruct (isEmpty raw || isEmpty (trim raw));
    [exists [], []; now rewrite !app_nil_r|].
  destruct (isEmpty _ && isEmpty _);
    [exists [], []; now rewrite !app_nil_r|].
  simpl. destruct (missingInRowOf _); eexists _, _; split; try reflexivity.
  now rewrite app_nil_r.
Qed.

Lemma dataLoop_extends (lines : list str) (lineNo : nat) (st : LoopState) :
  exists rs es,
    l_rows (dataLoop indexOf delimiter lineNo lines st) = l_rows st ++ rs
    /\ l_errors (dataLoop indexOf delimiter lineNo lines st) = l_errors st ++ es.
Proof.
  revert lineNo st. induction lines as [|raw lines IH]; intros lineNo st; simpl.
  - exists [], []. now rewrite !app_nil_r.
  - destruct (IH (S lineNo) (loopBody indexOf delimiter lineNo raw st))
      as (rs & es & -> & ->).
    destruct (loopBody_extends lineNo raw st) as (rs' & es' & -> & ->).
    exists (rs' ++ rs), (es' ++ es). now rewrite !app_assoc.
Qed.

(** The loop up to a line and over it, and the rest of the loop. *)
Lemma dataLoop_at (lines : list str) (i : nat) (raw : str) (st : LoopState) :
  lines !! i = Some raw ->
  let before := dataLoop indexOf delimiter 1 (take i lines) st in
  let after := dataLoop indexOf delimiter 1 (take (S i) lines) st in
  after = loopBody indexOf delimiter (1 + i) raw before
  /\ exists rs es,
       l_rows (dataLoop indexOf delimiter 1 lines st) = l_rows after ++ rs
       /\ l_errors (dataLoop indexOf delimiter 1 lines st) = l_errors after ++ es.
Proof.
  intros Hi before after.
  assert (Hlen : length (take i lines) = i).
  { apply length_take_le. apply lookup_lt_Some in Hi. lia. }
  assert (Hafter : after = loopBody indexOf delimiter (1 + i) raw before).
  { subst after before. rewrite (take_S_r lines i raw Hi), dataLoop_app.
    simpl. now rewrite Hlen. }
  split; [exact Hafter|].
  pose proof (dataLoop_app (take (S i) lines) (drop (S i) lines) 1 st) as Happ.
  rewrite take_drop in Happ. rewrite Happ. fold after.
  apply dataLoop_extends.
Qed.

(** Every cell of a row is a trimmed token, or the empty string. *)
Lemma getCell_Trimmed (values : list str) (k : Key) :
  Forall Trimmed values -> Trimmed (getCell indexOf values k).
Proof.
  intros Hv. unfold getCell.
  destruct (lookupIndex indexOf k) as [idx|]; [|apply Trimmed_nil].
  destruct (values !! idx) as [v|] eqn:E; simpl; [|apply Trimmed_nil].
  rewrite List.Forall_forall in Hv. apply Hv.
  apply list_elem_of_In. eapply list_elem_of_lookup_2. exact E.
Qed.

Lemma rowOfLine_Trimmed (raw : str) (k : Key) :
  Trimmed (field k (rowOfLine indexOf delimiter raw)).
Proof.
  assert (Hv : Forall Trimmed
                 (List.map trim (splitCsvLine (stripTrailingCR raw) delimiter))).
  { apply List.Forall_forall. intros v Hin. apply in_map_iff in Hin as (x & <- & _).
    apply trim_Trimmed. }
  unfold rowOfLine, buildRow. destruct k; simpl; now apply getCell_Trimmed.
Qed.

End Loop.

End ImporterFacts.

Lemma rowMessage_head (lineNo : nat) (missing : list Key) :
  exists t, rowMessage lineNo missing = 82 :: t.
Proof. unfold rowMessage. simpl. eauto. Qed.

(** Row-level and document-level diagnostics are told apart by their
    first unit. *)
Lemma row_message_not_document (e : str) :
  isRowMessage e -> ~ isDocumentMessage e.
Proof.
  intros (lineNo & k & missing & ->) Hdoc.
  destruct (rowMessage_head lineNo (k :: missing)) as [t Ht].
  rewrite Ht in Hdoc.
  destruct Hdoc as [H | [H | (m & cells & H)]]; discriminate H.
Qed.

Lemma setAdd_elem_of (x s : str) (l : list str) :
  s ∈ setAdd x l <-> s = x \/ s ∈ l.
Proof.
  unfold setAdd. case_bool_decide as Hin.
  - split; [auto|]. intros [->|H]; assumption.
  - rewrite elem_of_app, list_elem_of_singleton. tauto.
Qed.

Lemma setAdd_NoDup (x : str) (l : list str) :
  NoDup l -> NoDup (setAdd x l).
Proof.
  intros Hnd. unfold setAdd. case_bool_decide as Hin; [exact Hnd|].
  apply NoDup_app. split_and!; [exact Hnd| |apply NoDup_singleton].
  intros y Hy Hy'. apply list_elem_of_singleton in Hy'. now subst.
Qed.

Lemma loopInvariant_initial : loopInvariant initialLoopState.
Proof.
  unfold loopInvariant. simpl. split_and!; try constructor.
  - now intros ?%elem_of_nil.
  - intros (_ & row & ?%elem_of_nil & _). contradiction.
Qed.

Lemma isEmpty_true (s : str) : isEmpty s = true <-> s = [].
Proof. destruct s; simpl; split; congruence. Qed.

Lemma loopInvariant_step indexOf delimiter lineNo raw st :
  loopInvariant st -> loopInvariant (loopBody indexOf delimiter lineNo raw st).
Proof.
  intros (Hnames & Hnd & Herr & Hrows).
  destruct (isBlank raw) eqn:Hb;
    [rewrite loopBody_blank by assumption; split_and!; assumption|].
  destruct (isEmpty (Day (rowOfLine indexOf delimiter raw))
            && isEmpty (Exercise (rowOfLine indexOf delimiter raw))) eqn:Hk.
  { unfold loopBody. unfold isBlank in Hb. rewrite Hb, Hk. split_and!; assumption. }
  rewrite loopBody_kept by assumption.
  pose proof (rowOfLine_Trimmed indexOf delimiter raw) as Hrow.
  set (row := rowOfLine indexOf delimiter raw) in *. clearbody row.
  cbv zeta. split_and!; cbn [l_rows l_sessionNames l_errors].
  - intros s. destruct (isEmpty (Day row)) eqn:Hd.
    + apply isEmpty_true in Hd. rewrite Hnames. split.
      * intros (Hs & r & Hr & <-). split; [exact Hs|].
        exists r. split; [|reflexivity]. apply elem_of_app. now left.
      * intros (Hs & r & Hr & <-). split; [exact Hs|].
        apply elem_of_app in Hr as [Hr|Hr%list_elem_of_singleton].
        -- now exists r.
        -- subst r. congruence.
    + rewrite setAdd_elem_of, Hnames. split.
      * intros [-> | (Hs & r & Hr & <-)].
        -- split; [intros E; rewrite E in Hd; discriminate|].
           exists row. split; [|reflexivity].
           apply elem_of_app. right. now apply list_elem_of_singleton.
        -- split; [exact Hs|]. exists r. split; [|reflexivity].
           apply elem_of_app. now left.
      * intros (Hs & r & Hr & <-).
        apply elem_of_app in Hr as [Hr|Hr%list_elem_of_singleton].
        -- right. split; [exact Hs|]. now exists r.
        -- left. now subst r.
  - destruct (isEmpty (Day row)); [exact Hnd | now apply setAdd_NoDup].
  - destruct (missingInRowOf row) as [|k ks] eqn:Hm; [exact Herr|].
    apply Forall_app. split; [exact Herr|].
    constructor; [|constructor]. now exists lineNo, k, ks.
  - apply Forall_app. split; [exact Hrows|].
    constructor; [exact Hrow|constructor].
Qed.

Lemma loopInvariant_dataLoop indexOf delimiter lines lineNo :
  loopInvariant (dataLoop indexOf delimiter lineNo lines initialLoopState).
Proof.
  apply dataLoop_invariant.
  - intros. now apply loopInvariant_step.
  - apply loopInvariant_initial.
Qed.

Section ImporterResults.

Variable toLowerCase : str -> str.

(** Every document takes one of the four ways out. *)
Lemma parseCsv_cases (csvText : str) :
  (isBlank csvText = true
   /\ parseCsv toLowerCase csvText = failure MSG_EMPTY)
  \/ (isBlank csvText = false /\ includes LF csvText = false
      /\ parseCsv toLowerCase csvText = failure MSG_TOO_FEW)
  \/ (isBlank csvText = false /\ includes LF csvText = true
      /\ missingRequiredIn toLowerCase csvText <> []
      /\ parseCsv toLowerCase csvText
         = failure (missingHeadersMessage
                      (missingRequiredIn toLowerCase csvText)
                      (headerCellsOf csvText)))
  \/ (isBlank csvText = false /\ includes LF csvText = true
      /\ missingRequiredIn toLowerCase csvText = []
      /\ exists st,
           loopInvariant st
           /\ st = dataLoop (resolveHeaders toLowerCase (headerCellsOf csvText))
                     (detectDelimiter (headerLineOf csvText)) 1%nat
                     (dataLinesOf csvText) initialLoopState
           /\ parseCsv toLowerCase csvText
              = {| rows := l_rows st;
                   sessionNames := sort (l_sessionNames st);
                   errors := l_errors st |}).
Proof.
  destruct (isBlank csvText) eqn:Hb;
    [left; split; [reflexivity | now apply parseCsv_blank]|].
  destruct (includes LF csvText) eqn:Hlf;
    [|right; left; repeat split; now apply parseCsv_one_line].
  destruct (missingRequiredIn toLowerCase csvText) as [|k ks] eqn:Hm.
  - right; right; right. repeat split.
    eexists. split; [|split; [reflexivity|]].
    + apply loopInvariant_dataLoop.
    + now apply parseCsv_rows.
  - right; right; left. repeat split; [discriminate|].
    now apply parseCsv_missing.
Qed.

End ImporterResults.

Section ImporterExits.

Variable toLowerCase : str -> str.

Lemma dataLoop_all_blank indexOf delimiter lines lineNo st :
  forallb isBlank lines = true ->
  dataLoop indexOf delimiter lineNo lines st = st.
Proof.
  revert lineNo. induction lines as [|raw lines IH]; intros lineNo H;
    [reflexivity|].
  simpl in H. apply andb_true_iff in H as [Hraw Hrest].
  simpl. rewrite loopBody_blank by exact Hraw. now apply IH.
Qed.

Lemma MSG_TOO_FEW_document : isDocumentMessage MSG_TOO_FEW.
Proof. right. now left. Qed.

(** The too-few-lines result is returned for the non-blank texts that
    hold no line feed, and for no other text. *)
Lemma too_few_iff (csvText : str) :
  errors (parseCsv toLowerCase csvText) = [MSG_TOO_FEW]
  <-> isBlank csvText = false /\ includes LF csvText = false.
Proof.
  split.
  - intros He.
    destruct (parseCsv_cases toLowerCase csvText)
      as [(Hb & E) | [(Hb & Hlf & E) | [(Hb & Hlf & Hm & E)
         | (Hb & Hlf & Hm & st & Hinv & _ & E)]]];
      rewrite E in He; simpl in He.
    + discriminate He.
    + now split.
    + exfalso. injection He as He. unfold missingHeadersMessage in He.
      discriminate He.
    + exfalso. destruct Hinv as (_ & _ & Herr & _). rewrite He in Herr.
      inversion Herr as [|? ? Hrow _]; subst.
      exact (row_message_not_document _ Hrow MSG_TOO_FEW_document).
  - intros [Hb Hlf]. now rewrite parseCsv_one_line.
Qed.

End ImporterExits.

(** ** The importer on ASCII headers *)

Section LowerCasing.

Variables lower1 lower2 : str -> str.

Lemma indexHeaders_ext (cells : list str) (idx : nat) (m : gmap str nat) :
  (forall h, In h cells -> normHeader lower1 h = normHeader lower2 h) ->
  indexHeaders lower1 cells idx m = indexHeaders lower2 cells idx m.
Proof.
  revert idx m. induction cells as [|h cells IH]; intros idx m H;
    [reflexivity|].
  simpl. rewrite (H h) by now left.
  apply IH. intros h' Hh'. apply H. now right.
Qed.

Lemma findIndex_ext (m : gmap str nat) (variants : list str) :
  (forall v, In v variants -> normHeader lower1 v = normHeader lower2 v) ->
  findIndex lower1 m variants = findIndex lower2 m variants.
Proof.
  induction variants as [|v variants IH]; intros H; [reflexivity|].
  simpl. rewrite (H v) by now left.
  destruct (m !! normHeader lower2 v); [reflexivity|].
  apply IH. intros v' Hv'. apply H. now right.
Qed.

Lemma resolveHeaders_ext (cells : list str) :
  (forall h, In h (cells ++ aliasNames) ->
     normHeader lower1 h = normHeader lower2 h) ->
  resolveHeaders lower1 cells = resolveHeaders lower2 cells.
Proof.
  intros H. unfold resolveHeaders.
  rewrite (indexHeaders_ext cells 0 ∅)
    by (intros h Hh; apply H, in_or_app; now left).
  apply map_ext_in. intros e He. f_equal.
  apply findIndex_ext. intros v Hv. apply H, in_or_app. right.
  unfold aliasNames. apply in_flat_map. now exists e.
Qed.

Lemma parseCsv_ext (csvText : str) :
  resolveHeaders lower1 (headerCellsOf csvText)
  = resolveHeaders lower2 (headerCellsOf csvText) ->
  parseCsv lower1 csvText = parseCsv lower2 csvText.
Proof.
  intros H.
  assert (Hmiss : missingRequiredIn lower1 csvText
                  = missingRequiredIn lower2 csvText)
    by (unfold missingRequiredIn; now rewrite H).
  destruct (parseCsv_cases lower1 csvText)
    as [(Hb & E) | [(Hb & Hlf & E) | [(Hb & Hlf & Hm & E)
       | (Hb & Hlf & Hm & st & _ & -> & E)]]]; rewrite E.
  - now rewrite parseCsv_blank.
  - now rewrite parseCsv_one_line.
  - destruct (missingRequiredIn lower1 csvText) as [|k ks] eqn:Hk;
      [contradiction|].
    symmetry. apply parseCsv_missing; [assumption..|now rewrite <- Hmiss].
  - rewrite (parseCsv_rows lower2) by (try assumption; now rewrite <- Hmiss).
    cbv zeta. now rewrite H.
Qed.

End LowerCasing.

Lemma aliasNames_ascii :
  forallb (fun h => isAscii (preNorm h)) aliasNames = true.
Proof. reflexivity. Qed.

(** On a document whose header cells normalize to ASCII strings, only the
    ASCII part of [toLowerCase] matters. *)
Lemma parseCsv_ascii (toLowerCase : str -> str) (csvText : str) :
  asciiAgree toLowerCase ->
  forallb (fun h => isAscii (preNorm h)) (headerCellsOf csvText) = true ->
  parseCsv toLowerCase csvText = parseCsv asciiLower csvText.
Proof.
  intros Hagree Hcells. apply parseCsv_ext, resolveHeaders_ext.
  intros h [Hh|Hh]%in_app_or; rewrite !normHeader_preNorm.
  - rewrite Hagree; [reflexivity|].
    rewrite forallb_forall in Hcells. now apply Hcells.
  - rewrite Hagree; [reflexivity|].
    pose proof aliasNames_ascii as Ha.
    rewrite forallb_forall in Ha. now apply Ha.
Qed.

Lemma asciiLower_agrees : asciiAgree asciiLower.
Proof. intros s _. reflexivity. Qed.

(** ** Blank documents *)

Section Blank.

Lemma trimStart_nil_iff (s : str) :
  trimStart s = [] <-> allWhiteSpace s = true.
Proof.
  unfold allWhiteSpace. induction s as [|c s IH]; simpl; [tauto|].
  destruct (isWhiteSpace c); simpl; [exact IH|]. split; discriminate.
Qed.

Lemma trim_nil_iff (s : str) : trim s = [] <-> allWhiteSpace s = true.
Proof.
  unfold trim, trimEnd. split.
  - intros H. apply (f_equal (@rev N)) in H. rewrite rev_involutive in H.
    simpl in H. apply trimStart_nil_iff in H.
    destruct (trimStart s) as [|c r] eqn:E; [now apply trimStart_nil_iff|].
    pose proof (trimStart_head_not_space s c r E) as Hc.
    unfold allWhiteSpace in H. rewrite forallb_forall in H.
    rewrite (H c) in Hc; [discriminate|].
    apply in_rev. rewrite rev_involutive. now left.
  - intros H. apply trimStart_nil_iff in H. now rewrite H.
Qed.

Lemma isBlank_allWhiteSpace (s : str) :
  isBlank s = true <-> allWhiteSpace s = true.
Proof.
  unfold isBlank. rewrite orb_true_iff, !isEmpty_true, <- trim_nil_iff.
  split; [intros [->|H]; [reflexivity|exact H] | now right].
Qed.

Lemma allWhiteSpace_stripLeadingBOM (s : str) :
  allWhiteSpace s = true -> allWhiteSpace (stripLeadingBOM s) = true.
Proof.
  destruct s as [|c s]; [reflexivity|]. simpl.
  destruct (c =? BOM); [|trivial]. now intros [_ H]%andb_true_iff.
Qed.

Lemma allWhiteSpace_stripTrailingCR (s : str) :
  allWhiteSpace s = true -> allWhiteSpace (stripTrailingCR s) = true.
Proof.
  induction s as [|c s IH]; [reflexivity|].
  intros [Hc Hs]%andb_true_iff. destruct s as [|c' s'].
  - simpl. destruct (c =? CR); [reflexivity|]. simpl. now rewrite Hc.
  - change (stripTrailingCR (c :: c' :: s'))
      with (c :: stripTrailingCR (c' :: s')).
    simpl allWhiteSpace. rewrite Hc. now apply IH.
Qed.

Lemma allWhiteSpace_first_line (s : str) :
  allWhiteSpace s = true -> allWhiteSpace (List.hd [] (splitLF s)) = true.
Proof.
  induction s as [|c s IH]; [reflexivity|].
  intros [Hc Hs]%andb_true_iff. simpl.
  destruct (c =? LF); [reflexivity|].
  specialize (IH Hs). destruct (splitLF s) as [|l ls]; simpl in *.
  - now rewrite Hc.
  - now rewrite Hc, IH.
Qed.

(** White space holds no quote, so a line of white space is cut at its
    delimiters into tokens of white space. *)
Lemma splitLoop_allWhiteSpace (delimiter : N) (line cur : str)
    (out : list str) :
  allWhiteSpace line = true -> allWhiteSpace cur = true ->
  Forall (fun t => allWhiteSpace t = true) out ->
  Forall (fun t => allWhiteSpace t = true)
    (splitLoop delimiter line false cur out).
Proof.
  revert cur out. induction line as [|ch line IH]; intros cur out Hl Hc Ho.
  - simpl. apply Forall_app. split; [exact Ho|]. now constructor.
  - apply andb_true_iff in Hl as [Hch Hl]. simpl.
    destruct (N.eqb_spec ch QUOTE) as [->|_]; [discriminate Hch|].
    destruct (ch =? delimiter).
    + apply IH; [exact Hl|reflexivity|].
      apply Forall_app. split; [exact Ho|]. now constructor.
    + destruct (ch =? CR); [now apply IH|].
      apply IH; [exact Hl| |exact Ho].
      unfold allWhiteSpace. rewrite forallb_app. simpl.
      fold (allWhiteSpace cur). now rewrite Hc, Hch.
Qed.

Lemma blank_headerCells (csvText : str) :
  isBlank csvText = true -> Forall (fun h => h = []) (headerCellsOf csvText).
Proof.
  intros Hb%isBlank_allWhiteSpace.
  unfold headerCellsOf, headerLineOf, splitCsvLine.
  apply List.Forall_forall. intros h (t & <- & Ht)%in_map_iff.
  apply trim_nil_iff. revert t Ht. apply List.Forall_forall.
  apply splitLoop_allWhiteSpace; [|reflexivity|constructor].
  now apply allWhiteSpace_stripTrailingCR, allWhiteSpace_first_line,
    allWhiteSpace_stripLeadingBOM.
Qed.

(** Empty header cells index the empty name only. *)
Lemma indexHeaders_empty_cells (cells : list str) (idx : nat)
    (m : gmap str nat) (key : str) :
  Forall (fun h => h = []) cells -> key <> [] ->
  indexHeaders asciiLower cells idx m !! key = m !! key.
Proof.
  intros Hc Hk. revert idx m. induction Hc as [|h cells -> _ IH];
    intros idx m; [reflexivity|].
  simpl. rewrite IH. apply lookup_insert_ne. intros E. apply Hk.
  now rewrite <- E.
Qed.

Lemma blank_unresolved (toLowerCase : str -> str) (csvText : str) :
  asciiAgree toLowerCase -> isBlank csvText = true ->
  missingRequiredIn toLowerCase csvText <> [].
Proof.
  intros Hagree Hb. pose proof (blank_headerCells csvText Hb) as Hcells.
  unfold missingRequiredIn.
  rewrite (resolveHeaders_ext toLowerCase asciiLower).
  - unfold resolveHeaders, missingRequiredOf, lookupIndex. simpl.
    rewrite !indexHeaders_empty_cells by (exact Hcells || discriminate).
    rewrite !lookup_empty. simpl. discriminate.
  - intros h [Hh|Hh]%in_app_or; rewrite !normHeader_preNorm; apply Hagree.
    + rewrite List.Forall_forall in Hcells. now rewrite (Hcells h Hh).
    + pose proof aliasNames_ascii as Ha.
      rewrite forallb_forall in Ha. now apply Ha.
Qed.

End Blank.

(** C1, as amended: whenever a required header does not resolve, the
    result has no rows, no session names and exactly one diagnostic, a
    document-level one, however many data lines follow; for a text that is
    not blank and holds a line feed the diagnostic is the missing-headers
    message, which names the missing fields and echoes the header cells. *)
Theorem C1_missing_headers (toLowerCase : str -> str) (csvText : str) :
  missingRequiredIn toLowerCase csvText <> [] ->
  let r := parseCsv toLowerCase csvText in
  rows r = [] /\ sessionNames r = []
  /\ (exists message, errors r = [message] /\ isDocumentMessage message)
  /\ (isBlank csvText = false -> includes LF csvText = true ->
      errors r
      = [ lit "Missing required headers: "
          ++ join (lit ", ")
               (List.map keyName (missingRequiredIn toLowerCase csvText))
          ++ lit ". Found headers: "
          ++ join (lit " | ") (headerCellsOf csvText) ]).
Proof.
  intros Hmiss r. subst r.
  destruct (parseCsv_cases toLowerCase csvText)
    as [(Hb & E) | [(Hb & Hlf & E) | [(Hb & Hlf & Hm & E)
       | (Hb & Hlf & Hm & _)]]]; [| | |contradiction];
    rewrite E; simpl; split_and!; try reflexivity; try congruence.
  - eexists. split; [reflexivity|]. now left.
  - eexists. split; [reflexivity|]. right. now left.
  - eexists. split; [reflexivity|]. right. right. eauto.
Qed.

Lemma C1_missing_headers_witness :
  missingRequiredIn asciiLower scenarioB <> []
  /\ rows (parseCsv asciiLower scenarioB) = []
  /\ sessionNames (parseCsv asciiLower scenarioB) = []
  /\ errors (parseCsv asciiLower scenarioB)
     = [lit "Missing required headers: Weight. Found headers: Day | Exercise | Sets | Reps or Time"].
Proof.
  assert (Hmiss : missingRequiredIn asciiLower scenarioB <> [])
    by (vm_compute; discriminate).
  split; [exact Hmiss|].
  destruct (C1_missing_headers asciiLower scenarioB Hmiss)
    as (Hrows & Hnames & _ & Herr).
  split; [exact Hrows|]. split; [exact Hnames|].
  rewrite Herr by reflexivity. vm_compute. reflexivity.
Defined.

(** C1 as stated fails: with no line feed in the text the one diagnostic
    is the too-few-lines message, not the missing-headers message. *)
Lemma C1_counterexample :
  let csvText := lit "Day,Exercise,Sets,Reps" in
  missingRequiredIn asciiLower csvText = [K_Weight]
  /\ errors (parseCsv asciiLower csvText)
     = [lit "CSV must have a header and at least one data row"]
  /\ errors (parseCsv asciiLower csvText)
     <> [missingHeadersMessage (missingRequiredIn asciiLower csvText)
           (headerCellsOf csvText)].
Proof. vm_compute. repeat split. discriminate. Qed.

(** C2, as amended: for a text that holds a line feed and resolves all
    five required headers, no diagnostic of the result is a document-level
    one, and the session names are the non-empty [Day] values of the rows
    of the result, without duplicates, in increasing order of the default
    string comparison.  [toLowerCase] is any function that lower-cases
    ASCII strings as the host does. *)
Theorem C2_session_names (toLowerCase : str -> str) (csvText : str) :
  asciiAgree toLowerCase ->
  includes LF csvText = true ->
  missingRequiredIn toLowerCase csvText = [] ->
  let r := parseCsv toLowerCase csvText in
  (forall e, e ∈ errors r -> isRowMessage e /\ ~ isDocumentMessage e)
  /\ StronglySorted strLt (sessionNames r)
  /\ NoDup (sessionNames r)
  /\ (forall s, s ∈ sessionNames r
        <-> s <> [] /\ exists row, row ∈ rows r /\ Day row = s).
Proof.
  intros Hagree Hlf Hm r. subst r.
  assert (Hb : isBlank csvText = false).
  { destruct (isBlank csvText) eqn:Hb; [|reflexivity].
    now elim (blank_unresolved toLowerCase csvText Hagree Hb). }
  rewrite parseCsv_rows by assumption. cbv zeta. simpl.
  destruct (loopInvariant_dataLoop
              (resolveHeaders toLowerCase (headerCellsOf csvText))
              (detectDelimiter (headerLineOf csvText))
              (dataLinesOf csvText) 1%nat) as (Hnames & Hnd & Herr & _).
  split_and!.
  - intros e He. rewrite List.Forall_forall in Herr.
    assert (Hrow : isRowMessage e) by (apply Herr; now apply list_elem_of_In).
    split; [exact Hrow | now apply row_message_not_document].
  - now apply sort_strictly_sorted.
  - now apply sort_NoDup.
  - intros s. rewrite sort_elem_of. apply Hnames.
Qed.

Lemma C2_session_names_witness :
  includes LF paddedDays = true
  /\ missingRequiredIn asciiLower paddedDays = []
  /\ StronglySorted strLt (sessionNames (parseCsv asciiLower paddedDays))
  /\ sessionNames (parseCsv asciiLower paddedDays)
     = [lit "Arm day"; lit "Leg day"].
Proof.
  split; [reflexivity|]. split; [reflexivity|]. split; [|reflexivity].
  apply (C2_session_names asciiLower paddedDays);
    [exact asciiLower_agrees | reflexivity | reflexivity].
Defined.

(** C2 as stated fails: a text with all five headers and no line feed
    gets the too-few-lines diagnostic, a document-level one. *)
Lemma C2_counterexample :
  let csvText := lit "Day,Exercise,Sets,Reps,Weight" in
  missingRequiredIn asciiLower csvText = []
  /\ errors (parseCsv asciiLower csvText) = [MSG_TOO_FEW]
  /\ isDocumentMessage MSG_TOO_FEW.
Proof. repeat split. right. now left. Qed.

(** C9: every field of every row of the result is trimmed, and so is
    every session name. *)
Theorem C9_rows_trimmed (toLowerCase : str -> str) (csvText : str) :
  let r := parseCsv toLowerCase csvText in
  Forall (fun row => forall k, Trimmed (field k row)
                               /\ trim (field k row) = field k row) (rows r)
  /\ Forall (fun s => Trimmed s /\ trim s = s) (sessionNames r).
Proof.
  intros r. subst r.
  destruct (parseCsv_cases toLowerCase csvText)
    as [(Hb & E) | [(Hb & Hlf & E) | [(Hb & Hlf & Hm & E)
       | (Hb & Hlf & Hm & st & Hinv & _ & E)]]];
    rewrite E; simpl; try (split; constructor).
  destruct Hinv as (Hnames & _ & _ & Hrows).
  rewrite List.Forall_forall in Hrows. split.
  - apply List.Forall_forall. intros row Hrow k.
    split; [|apply Trimmed_trim]; now apply Hrows.
  - apply List.Forall_forall. intros s Hs.
    apply list_elem_of_In, sort_elem_of, Hnames in Hs
      as (_ & row & Hrow%list_elem_of_In & <-).
    split; [|apply Trimmed_trim]; exact (Hrows row Hrow K_Day).
Qed.

(** C10: a non-blank text with a line feed whose header line resolves all
    five required headers and whose other lines are blank gives no rows,
    no session names and no diagnostics; the too-few-lines result is that
    of the non-blank texts without any line feed, and of no other text. *)
Theorem C10_header_only (toLowerCase : str -> str) (csvText : str) :
  isBlank csvText = false ->
  includes LF csvText = true ->
  missingRequiredIn toLowerCase csvText = [] ->
  forallb isBlank (dataLinesOf csvText) = true ->
  parseCsv toLowerCase csvText
  = {| rows := []; sessionNames := []; errors := [] |}
  /\ (forall other,
        errors (parseCsv toLowerCase other) = [MSG_TOO_FEW]
        <-> isBlank other = false /\ includes LF other = false).
Proof.
  intros Hb Hlf Hm Hlines. split.
  - rewrite parseCsv_rows by assumption. cbv zeta.
    now rewrite dataLoop_all_blank by exact Hlines.
  - apply too_few_iff.
Qed.

Lemma C10_header_only_witness :
  parseCsv asciiLower headerOnly
  = {| rows := []; sessionNames := []; errors := [] |}
  /\ (forall other,
        errors (parseCsv asciiLower other) = [MSG_TOO_FEW]
        <-> isBlank other = false /\ includes LF other = false).
Proof. apply (C10_header_only asciiLower headerOnly); reflexivity. Defined.

(** C4: a data line that is not blank, whose row has a [Day] or an
    [Exercise] and lacks [k :: ks] among the required fields, adds its row
    to the rows and the one diagnostic "Row N: missing ..." to the
    diagnostics, [N] being the index of the line plus one (the header line
    is line 1, the first data line row 2), and the result keeps both;
    scenario A gives three rows and the one diagnostic
    "Row 3: missing Weight".  [toLowerCase] is any function that
    lower-cases ASCII strings as the host does. *)
Theorem C4_row_diagnostics (toLowerCase : str -> str) (csvText : str)
    (lineNo : nat) (raw : str) (k : Key) (ks : list Key) :
  asciiAgree toLowerCase ->
  missingRequiredIn toLowerCase csvText = [] ->
  (1 <= lineNo)%nat ->
  splitLF (stripLeadingBOM csvText) !! lineNo = Some raw ->
  isBlank raw = false ->
  let row :=
    rowOfLine (resolveHeaders toLowerCase (headerCellsOf csvText))
      (detectDelimiter (headerLineOf csvText)) raw in
  isEmpty (Day row) && isEmpty (Exercise row) = false ->
  missingInRowOf row = k :: ks ->
  let r := parseCsv toLowerCase csvText in
  let message :=
    lit "Row " ++ decimal (lineNo + 1) ++ lit ": missing "
    ++ join (lit ", ") (List.map keyName (k :: ks)) in
  let before := stateAtLine toLowerCase csvText lineNo in
  let after := stateAtLine toLowerCase csvText (S lineNo) in
  l_rows after = l_rows before ++ [row]
  /\ l_errors after = l_errors before ++ [message]
  /\ (exists rowsAfter errorsAfter,
        rows r = l_rows after ++ rowsAfter
        /\ errors r = l_errors after ++ errorsAfter)
  /\ row ∈ rows r
  /\ message ∈ errors r
  /\ parseCsv toLowerCase scenarioA
     = {| rows :=
            [ {| Day := lit "Day 1"; Exercise := lit "Push-ups";
                 Sets := lit "3"; Reps_or_Time := lit "12";
                 Weight := lit "Bodyweight"; Notes := []; Form_Guidance := [];
                 Muscle_Group := []; Main_Muscle := []; Day_Type := [] |};
              {| Day := lit "Day 1"; Exercise := lit "Plank";
                 Sets := lit "3"; Reps_or_Time := lit "60s";
                 Weight := []; Notes := []; Form_Guidance := [];
                 Muscle_Group := []; Main_Muscle := []; Day_Type := [] |};
              {| Day := lit "Day 2"; Exercise := lit "Squats";
                 Sets := lit "4"; Reps_or_Time := lit "10";
                 Weight := lit "40kg"; Notes := []; Form_Guidance := [];
                 Muscle_Group := []; Main_Muscle := []; Day_Type := [] |} ];
          sessionNames := [lit "Day 1"; lit "Day 2"];
          errors := [lit "Row 3: missing Weight"] |}.
Proof.
  intros Hagree Hm Hline Hraw Hrawb row Hkept Hmissing r message before after.
  assert (Hb : isBlank csvText = false).
  { destruct (isBlank csvText) eqn:Hb; [|reflexivity].
    now elim (blank_unresolved toLowerCase csvText Hagree Hb). }
  assert (Hlf : includes LF csvText = true).
  { apply lookup_lt_Some in Hraw.
    rewrite <- includes_LF_stripLeadingBOM.
    destruct (includes LF (stripLeadingBOM csvText)) eqn:E; [reflexivity|].
    pose proof (splitLF_length (stripLeadingBOM csvText)) as Hlen.
    rewrite E in Hlen. apply Nat.ltb_lt in Hlen. lia. }
  assert (Hdata : dataLinesOf csvText !! (lineNo - 1)%nat = Some raw).
  { unfold dataLinesOf. rewrite lookup_tail.
    now replace (S (lineNo - 1)) with lineNo by lia. }
  destruct (dataLoop_at
              (resolveHeaders toLowerCase (headerCellsOf csvText))
              (detectDelimiter (headerLineOf csvText))
              _ _ _ initialLoopState Hdata)
    as (Hstep & rs & es & Hrows & Herrs).
  replace (1 + (lineNo - 1))%nat with lineNo in Hstep by lia.
  replace (S (lineNo - 1)) with (S lineNo - 1)%nat in Hstep, Hrows, Herrs by lia.
  fold (stateAtLine toLowerCase csvText lineNo) in Hstep.
  fold (stateAtLine toLowerCase csvText (S lineNo)) in Hstep, Hrows, Herrs.
  fold before in Hstep. fold after in Hstep, Hrows, Herrs.
  rewrite loopBody_kept in Hstep by assumption.
  cbv zeta in Hstep. fold row in Hstep. rewrite Hmissing in Hstep.
  assert (Er : rows r = l_rows after ++ rs).
  { subst r. rewrite parseCsv_rows by assumption. exact Hrows. }
  assert (Ee : errors r = l_errors after ++ es).
  { subst r. rewrite parseCsv_rows by assumption. exact Herrs. }
  assert (Hr : l_rows after = l_rows before ++ [row]) by now rewrite Hstep.
  assert (He : l_errors after = l_errors before ++ [message])
    by now rewrite Hstep.
  split_and!.
  - exact Hr.
  - exact He.
  - now exists rs, es.
  - rewrite Er, Hr. set_solver.
  - rewrite Ee, He. set_solver.
  - rewrite parseCsv_ascii by (exact Hagree || reflexivity).
    vm_compute. reflexivity.
Qed.

Lemma C4_row_diagnostics_witness :
  let r := parseCsv asciiLower scenarioA in
  (length (rows r) = 3)%nat
  /\ errors r = [lit "Row 3: missing Weight"]
  /\ (exists row, row ∈ rows r /\ Exercise row = lit "Plank"
                 /\ missingInRowOf row = [K_Weight])
  /\ lit "Row 3: missing Weight" ∈ errors r.
Proof.
  destruct (C4_row_diagnostics asciiLower scenarioA 2
              (lit "Day 1,Plank,3,60s,") K_Weight [])
    as (_ & _ & _ & Hrow & Hmsg & HA);
    [exact asciiLower_agrees | reflexivity | lia | reflexivity | reflexivity
    | reflexivity | reflexivity |].
  split; [now rewrite HA|]. split; [now rewrite HA|]. split.
  - eexists. split; [exact Hrow|]. split; reflexivity.
  - exact Hmsg.
Defined.

(** White space around a [Day] cell does not reach the session names. *)
Example paddedDays_session_names :
  sessionNames (parseCsv asciiLower paddedDays) = [lit "Arm day"; lit "Leg day"].
Proof. reflexivity. Qed.

(** ** The session builder *)

Section Selectors.

Lemma orOne_positive (z : Z) : (0 < z)%Z -> orOne (Some z) = z.
Proof. intros H. unfold orOne. destruct (Z.eqb_spec z 0); [lia|reflexivity]. Qed.

Lemma orOne_nonzero (x : option Z) : orOne x <> 0%Z.
Proof.
  destruct x as [z|]; simpl; [|discriminate].
  destruct (Z.eqb_spec z 0); [discriminate|assumption].
Qed.

Lemma Forall2_imap_same {A B} (P : B -> A -> Prop) (f : nat -> A -> B)
    (l : list A) :
  (forall i x, P (f i x) x) -> Forall2 P (imap f l) l.
Proof.
  revert f. induction l as [|x l IH]; intros f H; simpl; constructor.
  - apply H.
  - apply IH. intros i y. apply H.
Qed.

End Selectors.

(** C5, as amended: in every session that [buildTodaySessions] returns,
    the exercises are those of the rows of that day, in order, and the
    [sets] of each is the integer its [Sets] string parses to when that is
    a positive integer, and 1 when the string does not parse (as the
    empty string does not) or parses to 0; [sets] is never 0. *)
Theorem C5_sets (parsedRows : list CsvRow) (selectedSessions : list str) :
  List.map Session.name (buildTodaySessions parsedRows selectedSessions)
  = selectedSessions
  /\ Forall
       (fun session =>
          Forall2
            (fun e row =>
               (forall z, parseInt (Sets row) = Some z -> (0 < z)%Z ->
                          ExerciseVM.sets e = z)
               /\ (parseInt (Sets row) = None \/ parseInt (Sets row) = Some 0%Z ->
                   ExerciseVM.sets e = 1%Z)
               /\ ExerciseVM.sets e <> 0%Z)
            (Session.exercises session)
            (sessionRowsOf parsedRows (Session.name session)))
       (buildTodaySessions parsedRows selectedSessions)
  /\ parseInt [] = None.
Proof.
  unfold buildTodaySessions. split_and!; [| |reflexivity].
  - rewrite List.map_map. simpl. apply List.map_id.
  - apply List.Forall_forall. intros session Hs.
    apply in_map_iff in Hs as (sessionName & <- & _). simpl.
    apply Forall2_imap_same. intros i row. simpl. split_and!.
    + intros z -> Hz. now apply orOne_positive.
    + now intros [-> | ->].
    + apply orOne_nonzero.
Qed.

(** C5 as stated fails: a [Sets] string that parses to a negative integer
    gives a negative [sets], and one that parses to 0 gives 1, not 0. *)
Lemma C5_counterexample :
  let row sets :=
    {| Day := lit "Day 1"; Exercise := lit "Plank"; Sets := sets;
       Reps_or_Time := lit "60s"; Weight := []; Notes := [];
       Form_Guidance := []; Muscle_Group := []; Main_Muscle := [];
       Day_Type := [] |} in
  parseInt (lit "-3") = Some (-3)%Z
  /\ parseInt (lit "0") = Some 0%Z
  /\ List.map (fun s => List.map ExerciseVM.sets (Session.exercises s))
       (buildTodaySessions [row (lit "-3"); row (lit "0")] [lit "Day 1"])
     = [[(-3)%Z; 1%Z]].
Proof. repeat split. Qed.

(** ** JSON values *)

Section JsonValues.

Lemma depth_item (items : list jsval) (x : jsval) :
  In x items -> (depth x < depth (VArr items))%nat.
Proof.
  simpl. induction items as [|y items IH]; intros Hin; [contradiction|].
  simpl. destruct Hin as [->|Hin]; [lia|]. specialize (IH Hin). lia.
Qed.

Lemma depth_prop (props : gmap str jsval) (k : str) (x : jsval) :
  props !! k = Some x -> (depth x < depth (VObj props))%nat.
Proof.
  simpl. revert k x.
  apply (map_fold_weak_ind
           (fun r (m : gmap str jsval) =>
              forall k x, m !! k = Some x -> (depth x < S r)%nat)).
  - intros k x. rewrite lookup_empty. discriminate.
  - intros i x m r Hi IH k y. rewrite lookup_insert. case_decide.
    + intros [= <-]. lia.
    + intros Hk. specialize (IH _ _ Hk). lia.
Qed.

Lemma jsonSafe_props (props : gmap str jsval) :
  jsonSafe (VObj props) = true
  <-> forall k x, props !! k = Some x -> jsonSafe x = true.
Proof.
  simpl.
  apply (map_fold_weak_ind
           (fun r (m : gmap str jsval) =>
              r = true <-> forall k x, m !! k = Some x -> jsonSafe x = true)).
  - split; [|reflexivity]. intros _ k x. rewrite lookup_empty. discriminate.
  - intros i x m r Hi IH. rewrite andb_true_iff, IH. split.
    + intros [Hx Hm] k y. rewrite lookup_insert. case_decide.
      * now intros [= <-].
      * apply Hm.
    + intros H. split.
      * apply (H i). now rewrite lookup_insert_eq.
      * intros k y Hk. apply (H k).
        rewrite lookup_insert_ne; [exact Hk|]. intros ->. congruence.
Qed.

Lemma jsonSafe_defined (x : jsval) : jsonSafe x = true -> isUndefined x = false.
Proof. now destruct x. Qed.

(** The round trip through JSON text keeps a JSON value as it is. *)
Lemma jsonSafe_clean (v : jsval) : jsonSafe v = true -> jsonClean v = v.
Proof.
  remember (S (depth v)) as n eqn:Hn.
  assert (Hd : (depth v < n)%nat) by lia. clear Hn.
  revert v Hd. induction n as [|n IH]; intros v Hd Hs; [lia|].
  destruct v as [| | | | |items|props]; try reflexivity.
  - cbn [jsonClean]. f_equal.
    rewrite <- (List.map_id items) at 2. apply map_ext_in.
    intros x Hx.
    assert (Hsx : jsonSafe x = true).
    { cbn [jsonSafe] in Hs. rewrite forallb_forall in Hs. now apply Hs. }
    assert (Hcx : jsonClean x = x).
    { apply IH; [|exact Hsx]. pose proof (depth_item items x Hx). lia. }
    destruct x; try exact Hcx. discriminate Hsx.
  - cbn [jsonClean]. f_equal. apply map_eq. intros k.
    rewrite lookup_omap.
    destruct (props !! k) as [x|] eqn:Hk; [|reflexivity]. simpl.
    assert (Hsx : jsonSafe x = true)
      by (eapply (proj1 (jsonSafe_props props)); eassumption).
    assert (Hcx : jsonClean x = x).
    { apply IH; [|exact Hsx]. pose proof (depth_prop props k x Hk). lia. }
    destruct x; try (now rewrite Hcx). discriminate Hsx.
Qed.

(** What the round trip returns is a JSON value. *)
Lemma jsonClean_safe (v : jsval) :
  isUndefined v = false -> jsonSafe (jsonClean v) = true.
Proof.
  remember (S (depth v)) as n eqn:Hn.
  assert (Hd : (depth v < n)%nat) by lia. clear Hn.
  revert v Hd. induction n as [|n IH]; intros v Hd Hu; [lia|].
  destruct v as [| | | | |items|props]; try reflexivity; try discriminate.
  - cbn [jsonClean jsonSafe]. apply forallb_forall. intros y Hy.
    apply in_map_iff in Hy as (x & <- & Hx).
    pose proof (depth_item items x Hx).
    destruct x; try reflexivity; apply IH; (reflexivity || lia).
  - cbn [jsonClean]. apply jsonSafe_props. intros k y.
    rewrite lookup_omap.
    destruct (props !! k) as [x|] eqn:Hk; [|discriminate].
    pose proof (depth_prop props k x Hk).
    destruct (isUndefined x) eqn:Hx.
    + destruct x; discriminate.
    + replace (Some x ≫= _) with (Some (jsonClean x))
        by (destruct x; [discriminate Hx|reflexivity..]).
      intros [= <-]. apply IH; [lia|exact Hx].
Qed.

Lemma survivesJson_props (snapshot : gmap str jsval) :
  survivesJson snapshot = true
  <-> forall k x, snapshot !! k = Some x ->
        if isUndefined x then isUndefined (getProp DEFAULT_STATE k) = true
        else jsonSafe x = true.
Proof.
  unfold survivesJson.
  apply (map_fold_weak_ind
           (fun r (m : gmap str jsval) =>
              r = true
              <-> forall k x, m !! k = Some x ->
                    if isUndefined x
                    then isUndefined (getProp DEFAULT_STATE k) = true
                    else jsonSafe x = true)).
  - split; [|reflexivity]. intros _ k x. rewrite lookup_empty. discriminate.
  - intros i x m r Hi IH. rewrite andb_true_iff, IH. split.
    + intros [Hx Hm] k y. rewrite lookup_insert. case_decide.
      * intros [= <-]. subst k. destruct (isUndefined x); exact Hx.
      * apply Hm.
    + intros H. split.
      * specialize (H i x). rewrite lookup_insert_eq in H.
        specialize (H eq_refl). destruct (isUndefined x); exact H.
      * intros k y Hk. apply (H k).
        rewrite lookup_insert_ne; [exact Hk|]. intros ->. congruence.
Qed.

End JsonValues.

(** ** The persistent store *)

Section StoreFacts.

Lemma strictEqNum_true (v : jsval) (n : Z) :
  strictEqNum v n = true -> v = VNum n.
Proof.
  destruct v; simpl; try discriminate. intros H%Z.eqb_eq. now subst.
Qed.

Lemma getProp_lookup (o : gmap str jsval) (k : str) (x : jsval) :
  o !! k = Some x -> getProp o k = x.
Proof. unfold getProp. now intros ->. Qed.

Lemma getProp_defined (o : gmap str jsval) (k : str) (x : jsval) :
  getProp o k = x -> isUndefined x = false -> o !! k = Some x.
Proof.
  unfold getProp. destruct (o !! k); simpl; intros <- H; [reflexivity|].
  discriminate H.
Qed.

(** What [JSON.parse] returns is a JSON value. *)
Lemma JSON_parse_safe (text : StoredText) (parsed : jsval) :
  JSON_parse text = Some parsed -> jsonSafe parsed = true.
Proof.
  destruct text as [| |v]; try discriminate.
  intros H.
  assert (Hu : isUndefined v = false)
    by (destruct v; [discriminate H|reflexivity..]).
  assert (E : JSON_parse (Stringified v) = Some (jsonClean v))
    by (destruct v; [discriminate Hu|reflexivity..]).
  rewrite E in H. injection H as <-. now apply jsonClean_safe.
Qed.

(** The text [setState] writes parses to the state without its
    [undefined] properties. *)
Lemma JSON_parse_stringify_object (state : gmap str jsval) :
  JSON_parse (JSON_stringify (VObj state)) = Some (jsonClean (VObj state)).
Proof. reflexivity. Qed.

(** Reading a stored object of the current version merges it over the
    defaults and leaves the store alone. *)
Lemma getState_current (st : Storage) (props : gmap str jsval) :
  storedDocument st = Some (VObj props) ->
  strictEqNum (getProp props (lit "version")) SCHEMA_VERSION = true ->
  getState st = (spread DEFAULT_STATE props, st).
Proof.
  unfold storedDocument, getState. intros Hst Hv.
  destruct (st !! STORAGE_KEY) as [stored|]; [|discriminate]. simpl in Hst.
  destruct stored; try discriminate.
  rewrite Hst. simpl. now rewrite Hv.
Qed.

(** A read either leaves the store alone or removes the document. *)
Lemma getState_store (st : Storage) :
  snd (getState st) = st \/ snd (getState st) = delete STORAGE_KEY st.
Proof.
  unfold getState.
  destruct (st !! STORAGE_KEY) as [stored|]; [|now left].
  destruct stored; try (now left);
    (destruct (JSON_parse _) as [parsed|]; [|now left]);
    (destruct (versionOf parsed) as [version|]; [|now left]);
    (destruct (strictEqNum version SCHEMA_VERSION); [now left | now right]).
Qed.

(** The round trip keeps a property that holds a JSON value, and reads
    as [undefined] a property that holds [undefined]. *)
Lemma getProp_jsonClean (o : gmap str jsval) (k : str) :
  (forall x, o !! k = Some x -> isUndefined x = true \/ jsonSafe x = true) ->
  exists doc, jsonClean (VObj o) = VObj doc /\ getProp doc k = getProp o k.
Proof.
  intros H. eexists. split; [reflexivity|].
  unfold getProp. rewrite lookup_omap.
  destruct (o !! k) as [x|] eqn:Hk; [|reflexivity].
  destruct (H x eq_refl) as [Hu|Hs].
  - destruct x; try discriminate Hu. reflexivity.
  - pose proof (jsonSafe_clean x Hs) as Hc.
    destruct x; try discriminate Hs; simpl in *; now rewrite ?Hc.
Qed.

Lemma DEFAULT_STATE_survives : survivesJson DEFAULT_STATE = true.
Proof. reflexivity. Qed.

(** What [getState] returns holds JSON values and [undefined]s only. *)
Lemma getState_props (st : Storage) (k : str) (x : jsval) :
  fst (getState st) !! k = Some x ->
  isUndefined x = true \/ jsonSafe x = true.
Proof.
  intros Hk.
  assert (Hdef : forall y, DEFAULT_STATE !! k = Some y ->
                           isUndefined y = true \/ jsonSafe y = true).
  { intros y Hy.
    pose proof (proj1 (survivesJson_props _) DEFAULT_STATE_survives k y Hy) as H.
    destruct (isUndefined y); [now left | now right]. }
  unfold getState in Hk.
  destruct (st !! STORAGE_KEY) as [stored|]; [|now apply Hdef].
  assert (Hparse : forall parsed,
            JSON_parse stored = Some parsed ->
            fst (match versionOf parsed with
                 | None => (DEFAULT_STATE, st)
                 | Some version =>
                   if strictEqNum version SCHEMA_VERSION
                   then (spread DEFAULT_STATE (ownProps parsed), st)
                   else (clearAll;;; ret DEFAULT_STATE) st
                 end) !! k = Some x ->
            isUndefined x = true \/ jsonSafe x = true).
  { intros parsed Hp H. apply JSON_parse_safe in Hp.
    destruct (versionOf parsed) as [version|]; [|now apply Hdef].
    destruct (strictEqNum version SCHEMA_VERSION); [|now apply Hdef].
    simpl in H. unfold spread in H.
    apply lookup_union_Some_raw in H as [H|[_ H]]; [|now apply Hdef].
    destruct parsed; simpl in H; try (rewrite lookup_empty in H; discriminate).
    right. eapply (proj1 (jsonSafe_props _)); eassumption. }
  destruct stored; [now apply Hdef| |];
    (destruct (JSON_parse _) as [parsed|] eqn:Hp;
     [now apply (Hparse parsed) | now apply Hdef]).
Qed.

Lemma rowToJs_safe (row : CsvRow) : jsonSafe (rowToJs row) = true.
Proof. destruct row. reflexivity. Qed.

End StoreFacts.



(** C7, as amended: for a snapshot with the current version in which
    every property holds a JSON value, or holds [undefined] where the
    default is [undefined] too, writing it and reading it back returns a
    document equal, property for property, to the snapshot merged over the
    defaults; the read leaves the store as the write left it. *)
Theorem C7_write_then_read (st : Storage) (snapshot : gmap str jsval) :
  strictEqNum (getProp snapshot (lit "version")) SCHEMA_VERSION = true ->
  survivesJson snapshot = true ->
  let st' := snd (setState snapshot st) in
  (forall k, getProp (fst (getState st')) k
             = getProp (spread DEFAULT_STATE snapshot) k)
  /\ snd (getState st') = st'.
Proof.
  intros Hver Hsurv st'. subst st'. unfold setState. simpl.
  pose proof (proj1 (survivesJson_props _) Hsurv) as Hprops.
  set (doc := omap (fun x => match x with
                             | VUndefined => None
                             | _ => Some (jsonClean x)
                             end) snapshot).
  assert (Hdoc : forall k,
             doc !! k = match snapshot !! k with
                        | Some x => if isUndefined x then None else Some x
                        | None => None
                        end).
  { intros k. unfold doc. rewrite lookup_omap.
    destruct (snapshot !! k) as [x|] eqn:Hk; [|reflexivity].
    specialize (Hprops k x Hk). simpl.
    destruct (isUndefined x) eqn:Hu.
    - destruct x; try discriminate Hu. reflexivity.
    - pose proof (jsonSafe_clean x Hprops) as Hc.
      destruct x; try discriminate Hu; simpl in *; now rewrite ?Hc. }
  assert (Hv : strictEqNum (getProp doc (lit "version")) SCHEMA_VERSION = true).
  { apply strictEqNum_true in Hver.
    apply getProp_defined in Hver; [|reflexivity].
    unfold getProp. rewrite Hdoc, Hver. reflexivity. }
  rewrite (getState_current _ doc);
    [|unfold storedDocument; now rewrite lookup_insert_eq|exact Hv].
  split; [|reflexivity]. intros k. simpl. unfold getProp, spread.
  rewrite !lookup_union, Hdoc.
  destruct (snapshot !! k) as [x|] eqn:Hk; [|reflexivity].
  specialize (Hprops k x Hk).
  destruct (isUndefined x) eqn:Hu.
  - destruct x; try discriminate Hu. unfold getProp in Hprops.
    destruct (DEFAULT_STATE !! k) as [y|]; simpl in *; [|reflexivity].
    destruct y; try discriminate Hprops. reflexivity.
  - destruct (DEFAULT_STATE !! k); reflexivity.
Qed.

Lemma C7_write_then_read_witness :
  let snapshot :=
    <[ lit "panel" := VStr (lit "upload") ]>
      (<[ lit "selectedSessions" := VArr [VStr (lit "Day 1")] ]> DEFAULT_STATE) in
  survivesJson snapshot = true
  /\ getProp (fst (getState (snd (setState snapshot ∅)))) (lit "panel")
     = VStr (lit "upload")
  /\ getProp (fst (getState (snd (setState snapshot ∅)))) (lit "csvText")
     = VUndefined.
Proof.
  intros snapshot. split; [reflexivity|].
  destruct (C7_write_then_read ∅ snapshot) as [H _]; [reflexivity..|].
  split; rewrite H; reflexivity.
Defined.

(** C7 as stated fails: a property that the snapshot sets to [undefined]
    is not written, so the read takes the default where the merged
    snapshot has [undefined]. *)
Lemma C7_counterexample :
  let snapshot := <[ lit "sessionCompletion" := VUndefined ]> DEFAULT_STATE in
  strictEqNum (getProp snapshot (lit "version")) SCHEMA_VERSION = true
  /\ getProp (fst (getState (snd (setState snapshot ∅))))
       (lit "sessionCompletion") = VObj ∅
  /\ getProp (spread DEFAULT_STATE snapshot) (lit "sessionCompletion")
     = VUndefined.
Proof. repeat split. Qed.

Section CsvData.

Variables (csvText : str) (parsedRows : list CsvRow) (sessionNames : list str).

Abbreviation updates :=
  (storageActions.csvDataUpdates csvText parsedRows sessionNames).

Lemma updates_safe (k : str) (x : jsval) :
  updates !! k = Some x -> jsonSafe x = true.
Proof.
  intros Hk. unfold storageActions.csvDataUpdates, object in Hk.
  apply elem_of_list_to_map_2 in Hk. simpl in Hk.
  repeat (apply elem_of_cons in Hk as [[= _ ->]|Hk]; [try reflexivity|]).
  - simpl. apply forallb_forall. intros y (row & <- & _)%in_map_iff.
    apply rowToJs_safe.
  - simpl. apply forallb_forall. now intros y (s & <- & _)%in_map_iff.
  - now apply elem_of_nil in Hk.
Qed.

Lemma updates_other (k : str) : k ∉ csvDataKeys -> updates !! k = None.
Proof.
  intros Hk. unfold storageActions.csvDataUpdates, object.
  apply not_elem_of_list_to_map_1. exact Hk.
Qed.

Lemma setCsvData_store (st : Storage) :
  snd (storageActions.setCsvData csvText parsedRows sessionNames st)
  = <[ STORAGE_KEY :=
         JSON_stringify (VObj (spread (fst (getState st)) updates)) ]>
      (snd (getState st)).
Proof.
  unfold storageActions.setCsvData, updateState, bind, setState.
  now destruct (getState st).
Qed.

End CsvData.

(** C8: after [setCsvData], the stored document holds the three arguments
    under [csvText], [parsedRows] and [sessionNames], the empty list under
    [selectedSessions], 0 under [currentSessionIndex] and empty objects
    under [currentExerciseIndex] and [checkedSets]; every other property
    (panel, sessionTemplates, timers, version, csvMeta, sessionCompletion
    among them) reads as it did in the state [getState] returned before
    the call, which for a stored document of the current version is what
    that document held; nothing else in the store changes. *)
Theorem C8_setCsvData (st : Storage) (csvText : str)
    (parsedRows : list CsvRow) (sessionNames : list str) :
  let prior := fst (getState st) in
  let st' := snd (storageActions.setCsvData csvText parsedRows sessionNames st) in
  exists doc,
    storedDocument st' = Some (VObj doc)
    /\ getProp doc (lit "csvText") = VStr csvText
    /\ getProp doc (lit "parsedRows") = VArr (List.map rowToJs parsedRows)
    /\ getProp doc (lit "sessionNames") = VArr (List.map VStr sessionNames)
    /\ getProp doc (lit "selectedSessions") = VArr []
    /\ getProp doc (lit "currentSessionIndex") = VNum 0
    /\ getProp doc (lit "currentExerciseIndex") = VObj ∅
    /\ getProp doc (lit "checkedSets") = VObj ∅
    /\ (forall k, k ∉ csvDataKeys -> getProp doc k = getProp prior k)
    /\ Forall (fun k => getProp doc k = getProp prior k) otherKeys
    /\ (forall old,
          storedDocument st = Some (VObj old) ->
          strictEqNum (getProp old (lit "version")) SCHEMA_VERSION = true ->
          forall k, k ∉ csvDataKeys -> is_Some (old !! k) ->
                    getProp doc k = getProp old k)
    /\ (forall key, key <> STORAGE_KEY -> st' !! key = st !! key).
Proof.
  intros prior st'. subst st'. rewrite setCsvData_store. fold prior.
  set (updates := storageActions.csvDataUpdates _ _ _).
  assert (Hall : forall k x, spread prior updates !! k = Some x ->
                             isUndefined x = true \/ jsonSafe x = true).
  { intros k x Hk. unfold spread in Hk.
    apply lookup_union_Some_raw in Hk as [Hk|[_ Hk]].
    - right. eapply updates_safe. exact Hk.
    - eapply getState_props; eassumption. }
  assert (Hget : forall k,
            getProp (omap (fun x => match x with
                                    | VUndefined => None
                                    | _ => Some (jsonClean x)
                                    end) (spread prior updates)) k
            = getProp (spread prior updates) k).
  { intros k. destruct (getProp_jsonClean (spread prior updates) k (Hall k))
      as (doc & [= <-] & H). exact H. }
  assert (Hnew : forall k x, updates !! k = Some x ->
                             getProp (spread prior updates) k = x).
  { intros k x Hk. apply getProp_lookup. unfold spread.
    now apply lookup_union_Some_l. }
  assert (Hold : forall k, k ∉ csvDataKeys ->
                           getProp (spread prior updates) k = getProp prior k).
  { intros k Hk. unfold getProp, spread.
    rewrite lookup_union_r; [reflexivity|]. now apply updates_other. }
  eexists. split.
  { unfold storedDocument. rewrite lookup_insert_eq. reflexivity. }
  rewrite !Hget. split_and!.
  - now apply Hnew.
  - now apply Hnew.
  - now apply Hnew.
  - now apply Hnew.
  - now apply Hnew.
  - now apply Hnew.
  - now apply Hnew.
  - intros k Hk. rewrite Hget. now apply Hold.
  - repeat constructor; rewrite Hget; apply Hold;
      unfold csvDataKeys; rewrite !elem_of_cons, elem_of_nil;
      intros H; repeat (destruct H as [H|H]; [discriminate H|]); exact H.
  - intros old Hstored Hv k Hk [x Hx]. rewrite Hget, Hold by exact Hk.
    unfold prior. rewrite (getState_current st old Hstored Hv). simpl.
    unfold getProp, spread. now rewrite (lookup_union_Some_l _ _ _ _ Hx), Hx.
  - intros key Hkey. rewrite lookup_insert_ne by congruence.
    destruct (getState_store st) as [-> | ->]; [reflexivity|].
    now rewrite lookup_delete_ne by congruence.
Qed.

(** C8 as stated fails for a stored document of another version: the
    version gate of [getState] discards it, so after [setCsvData] the
    stored panel and version are the defaults, not what was stored.  The
    store is reached by the program's own actions, [setPanel] and then
    [setVersion]. *)
Lemma C8_counterexample :
  let st :=
    snd (storageReducer.setVersion 0
           (snd (storageReducer.setPanel (lit "workout") ∅))) in
  let st' := snd (storageActions.setCsvData scenarioA [] [lit "Day 1"] st) in
  exists old doc,
    storedDocument st = Some (VObj old)
    /\ storedDocument st' = Some (VObj doc)
    /\ getProp old (lit "panel") = VStr (lit "workout")
    /\ getProp doc (lit "panel") = VStr (lit "landing")
    /\ getProp old (lit "version") = VNum 0
    /\ getProp doc (lit "version") = VNum 1
    /\ getProp doc (lit "panel") <> getProp old (lit "panel")
    /\ getProp doc (lit "version") <> getProp old (lit "version").
Proof.
  intros st st'. eexists _, _.
  split; [reflexivity|]. split; [reflexivity|].
  split_and!; try reflexivity; vm_compute; discriminate.
Qed.

(** Replacing the CSV data of a stored document keeps its panel and
    resets its selection. *)
Example setCsvData_keeps_panel :
  let old :=
    <[ lit "panel" := VStr (lit "workout") ]>
      (<[ lit "selectedSessions" := VArr [VStr (lit "Day 1")] ]> DEFAULT_STATE) in
  let st := snd (setState old ∅) in
  let st' := snd (storageActions.setCsvData scenarioA [] [lit "Day 2"] st) in
  let now := fst (getState st') in
  getProp now (lit "panel") = VStr (lit "workout")
  /\ getProp now (lit "selectedSessions") = VArr []
  /\ getProp now (lit "sessionNames") = VArr [VStr (lit "Day 2")]
  /\ getProp now (lit "csvText") = VStr scenarioA.
Proof. repeat split. Qed.

(** * More properties *)

(** ** Reading the store *)

Section StoreReads.

(** The three ways out of [getState]. *)
Lemma getState_cases (st : Storage) :
  getState st = (DEFAULT_STATE, st)
  \/ getState st = (DEFAULT_STATE, delete STORAGE_KEY st)
  \/ exists props : gmap str jsval,
       storedDocument st = Some (VObj props)
       /\ strictEqNum (getProp props (lit "version")) SCHEMA_VERSION = true
       /\ jsonSafe (VObj props) = true
       /\ getState st = (props ∪ DEFAULT_STATE, st).
Proof.
  unfold storedDocument, getState.
  destruct (st !! STORAGE_KEY) as [stored|]; [|now left].
  destruct stored as [| |v]; [now left | now left |].
  cbn [mbind option_bind].
  destruct (JSON_parse (Stringified v)) as [parsed|] eqn:Hp; [|now left].
  pose proof (JSON_parse_safe _ _ Hp) as Hsafe.
  destruct (versionOf parsed) as [version|] eqn:Hv; [|now left].
  destruct (strictEqNum version SCHEMA_VERSION) eqn:Heq; [|right; now left].
  destruct parsed as [| | | | | |props]; simpl in Hv;
    try discriminate Hv; injection Hv as <-; try discriminate Heq.
  right; right. exists props. now split_and!.
Qed.

(** What [getState] returns is the defaults under the properties of a
    stored document, which are JSON values. *)
Lemma readBack_shape (st : Storage) :
  exists props : gmap str jsval,
    readBack st = props ∪ DEFAULT_STATE
    /\ (forall k y, props !! k = Some y -> jsonSafe y = true)
    /\ (props !! lit "version" = None
        \/ props !! lit "version" = Some (VNum SCHEMA_VERSION)).
Proof.
  unfold readBack.
  destruct (getState_cases st) as [E | [E | (props & _ & Hv & Hs & E)]];
    rewrite E; simpl.
  - exists ∅. rewrite (left_id_L ∅ (∪)). split_and!; [reflexivity| |now left].
    intros k y. rewrite lookup_empty. discriminate.
  - exists ∅. rewrite (left_id_L ∅ (∪)). split_and!; [reflexivity| |now left].
    intros k y. rewrite lookup_empty. discriminate.
  - exists props. split_and!; [reflexivity|now apply jsonSafe_props|].
    right. apply strictEqNum_true in Hv.
    now apply getProp_defined in Hv.
Qed.

Lemma DEFAULT_STATE_version :
  DEFAULT_STATE !! lit "version" = Some (VNum SCHEMA_VERSION).
Proof. reflexivity. Qed.

Lemma readBack_version (st : Storage) :
  readBack st !! lit "version" = Some (VNum SCHEMA_VERSION).
Proof.
  destruct (readBack_shape st) as (props & -> & _ & [Hv | Hv]).
  - rewrite lookup_union_r by exact Hv. apply DEFAULT_STATE_version.
  - now apply lookup_union_Some_l.
Qed.

(** A property that reads as [undefined] has no other default. *)
Lemma readBack_undefined (st : Storage) (k : str) :
  isUndefined (getProp (readBack st) k) = true ->
  getProp DEFAULT_STATE k = VUndefined.
Proof.
  destruct (readBack_shape st) as (props & -> & Hsafe & _).
  unfold getProp. rewrite lookup_union.
  destruct (props !! k) as [y|] eqn:Hk.
  - specialize (Hsafe k y Hk). apply jsonSafe_defined in Hsafe.
    destruct (DEFAULT_STATE !! k); simpl; congruence.
  - destruct (DEFAULT_STATE !! k) as [d|]; simpl; [|reflexivity].
    now destruct d.
Qed.

(** The round trip through JSON text keeps what [getState] returned,
    as far as reading a property goes. *)
Lemma readBack_clean (st : Storage) (k : str) (y : jsval) :
  readBack st !! k = Some y -> isUndefined y = false -> jsonClean y = y.
Proof.
  intros Hk Hu. destruct (getState_props st k y Hk) as [H|H]; [congruence|].
  now apply jsonSafe_clean.
Qed.


End StoreReads.

(** X1: whatever the store holds, [getState] returns a document with the
    current version and with every property of the defaults. *)
Theorem getState_complete (st : Storage) :
  getProp (fst (getState st)) (lit "version") = VNum SCHEMA_VERSION
  /\ forall k, is_Some (DEFAULT_STATE !! k) -> is_Some (fst (getState st) !! k).
Proof.
  split.
  - apply getProp_lookup, readBack_version.
  - intros k [d Hd].
    destruct (readBack_shape st) as (props & E & _). unfold readBack in E.
    rewrite E, lookup_union. destruct (props !! k); rewrite Hd; eauto.
Qed.

(** X2: a second [getState] returns what the first returned and leaves
    the store as the first left it. *)
Theorem getState_twice (st : Storage) :
  getState (snd (getState st)) = getState st.
Proof.
  destruct (getState_cases st) as [E | [E | (props & _ & _ & _ & E)]];
    rewrite E; simpl; try exact E.
  (* the first read has removed the document *)
  unfold getState. now rewrite lookup_delete_eq.
Qed.

(** ** Updating the store *)

Section Updates.

Variable updates : gmap str jsval.

Lemma updateState_store (st : Storage) :
  snd (updateState updates st)
  = <[ STORAGE_KEY := JSON_stringify (VObj (spread (readBack st) updates)) ]>
      (snd (getState st)).
Proof.
  unfold updateState, bind, setState, readBack. now destruct (getState st).
Qed.

(** The document [updateState] stores. *)
Lemma updateState_document (st : Storage) :
  storedDocument (snd (updateState updates st))
  = Some (jsonClean (VObj (spread (readBack st) updates))).
Proof.
  rewrite updateState_store. unfold storedDocument.
  now rewrite lookup_insert_eq.
Qed.

(** A property of the stored document, as a read of the document gives
    it. *)
Lemma stored_property (st : Storage) (k : str) (doc : gmap str jsval) :
  jsonClean (VObj (spread (readBack st) updates)) = VObj doc ->
  doc !! k = match updates !! k with
             | Some x => if isUndefined x then None else Some (jsonClean x)
             | None =>
               match readBack st !! k with
               | Some y => if isUndefined y then None else Some y
               | None => None
               end
             end.
Proof.
  intros [= <-]. rewrite lookup_omap. unfold spread. rewrite lookup_union.
  destruct (updates !! k) as [x|] eqn:Hu.
  - destruct (readBack st !! k); simpl; now destruct x.
  - destruct (readBack st !! k) as [y|] eqn:Hr; simpl; [|reflexivity].
    destruct (isUndefined y) eqn:Hy.
    + now destruct y.
    + rewrite <- (readBack_clean st k y Hr Hy) at 2. now destruct y.
Qed.

Lemma stored_version (st : Storage) (doc : gmap str jsval) :
  jsonClean (VObj (spread (readBack st) updates)) = VObj doc ->
  strictEqNum (getProp doc (lit "version")) SCHEMA_VERSION
  = keepsVersion updates.
Proof.
  intros Hdoc. unfold getProp, keepsVersion.
  rewrite (stored_property st _ doc Hdoc).
  destruct (updates !! lit "version") as [x|].
  - now destruct x.
  - now rewrite readBack_version.
Qed.

End Updates.

(** The document an update leaves, and the read that follows. *)
Lemma updated_document (updates : gmap str jsval) (st : Storage) :
  keepsVersion updates = true ->
  exists doc : gmap str jsval,
    jsonClean (VObj (spread (readBack st) updates)) = VObj doc
    /\ getState (snd (updateState updates st))
       = (spread DEFAULT_STATE doc, snd (updateState updates st)).
Proof.
  intros Hkeep.
  destruct (jsonClean (VObj (spread (readBack st) updates))) as [| | | | | |doc]
    eqn:Hdoc; try discriminate Hdoc.
  exists doc. split; [reflexivity|]. apply getState_current.
  - now rewrite updateState_document, Hdoc.
  - now rewrite (stored_version updates st doc Hdoc).
Qed.

(** Reading a property after an update. *)
Lemma updateState_read (updates : gmap str jsval) (st : Storage) :
  keepsVersion updates = true ->
  forall k,
    getProp (fst (getState (snd (updateState updates st)))) k
    = match updates !! k with
      | Some x => writtenAs k x
      | None => getProp (fst (getState st)) k
      end.
Proof.
  intros Hkeep k.
  destruct (updated_document updates st Hkeep) as (doc & Hdoc & Hread).
  rewrite Hread. simpl.
  unfold getProp at 1. unfold spread. rewrite lookup_union.
  rewrite (stored_property updates st k doc Hdoc).
  fold (readBack st). unfold writtenAs.
  destruct (updates !! k) as [x|].
  - unfold getProp. destruct (isUndefined x), (DEFAULT_STATE !! k); reflexivity.
  - destruct (readBack st !! k) as [y|] eqn:Hr.
    + destruct (isUndefined y) eqn:Hy.
      * assert (Hd : getProp DEFAULT_STATE k = VUndefined).
        { apply (readBack_undefined st). unfold getProp. now rewrite Hr. }
        unfold getProp in *. rewrite Hr. simpl.
        destruct (DEFAULT_STATE !! k); simpl in *; [rewrite Hd|];
          now destruct y.
      * unfold getProp. rewrite Hr. now destruct (DEFAULT_STATE !! k).
    + unfold getProp. rewrite Hr. simpl.
      destruct (readBack_shape st) as (props & E & _).
      rewrite E, lookup_union in Hr.
      destruct (props !! k), (DEFAULT_STATE !! k); simpl in Hr;
        try discriminate Hr. reflexivity.
Qed.

(** X3: after [updateState] with an update that leaves the version alone
    or sets the current one, [getState] returns each property of the
    update as written (cleaned by the JSON round trip, or the default if
    the update holds [undefined]) and every other property as it read
    before; that read leaves the store alone. *)
Theorem updateState_then_read (updates : gmap str jsval) (st : Storage) :
  keepsVersion updates = true ->
  let st' := snd (updateState updates st) in
  (forall k,
     getProp (fst (getState st')) k
     = match updates !! k with
       | Some x => writtenAs k x
       | None => getProp (fst (getState st)) k
       end)
  /\ snd (getState st') = st'.
Proof.
  intros Hkeep st'. split.
  - exact (updateState_read updates st Hkeep).
  - destruct (updated_document updates st Hkeep) as (doc & _ & Hread).
    unfold st'. now rewrite Hread.
Qed.

Lemma updateState_then_read_witness :
  let st := snd (storageActions.setCsvData scenarioA [] [lit "Day 1"] ∅) in
  let updates := object [ ("panel", VStr (lit "workout")) ]%string in
  let st' := snd (updateState updates st) in
  keepsVersion updates = true
  /\ getProp (fst (getState st')) (lit "panel") = VStr (lit "workout")
  /\ getProp (fst (getState st')) (lit "csvText") = VStr scenarioA.
Proof.
  intros st updates st'. split; [reflexivity|].
  destruct (updateState_then_read updates st) as [H _]; [reflexivity|].
  split; rewrite H; reflexivity.
Defined.

(** X4: two updates in a row read back as the one update that merges
    them, the later over the earlier, when both leave the version alone
    or set the current one. *)
Theorem updateState_twice (first second : gmap str jsval) (st : Storage) :
  keepsVersion first = true ->
  keepsVersion second = true ->
  let st2 := snd (updateState second (snd (updateState first st))) in
  let st1 := snd (updateState (spread first second) st) in
  forall k, getProp (fst (getState st2)) k = getProp (fst (getState st1)) k.
Proof.
  intros H1 H2 st2 st1 k.
  assert (H12 : keepsVersion (spread first second) = true).
  { unfold keepsVersion, spread in *. rewrite lookup_union.
    destruct (second !! lit "version"), (first !! lit "version"); assumption. }
  pose proof (updateState_read second (snd (updateState first st)) H2) as Hs.
  pose proof (updateState_read first st H1) as Hf.
  pose proof (updateState_read (spread first second) st H12) as Hm.
  unfold st2, st1. rewrite Hs, Hm, Hf. unfold spread. rewrite lookup_union.
  now destruct (second !! k), (first !! k).
Qed.

Lemma updateState_twice_witness :
  let first := object [ ("panel", VStr (lit "upload"));
                        ("currentSessionIndex", VNum 2) ]%string in
  let second := object [ ("panel", VStr (lit "workout")) ]%string in
  let st2 := snd (updateState second (snd (updateState first ∅))) in
  keepsVersion first = true
  /\ keepsVersion second = true
  /\ getProp (fst (getState st2)) (lit "panel") = VStr (lit "workout")
  /\ getProp (fst (getState st2)) (lit "currentSessionIndex") = VNum 2.
Proof.
  intros first second st2.
  pose proof (updateState_twice first second ∅ eq_refl eq_refl) as H.
  split_and!; try reflexivity; (etransitivity; [apply H|reflexivity]).
Defined.



(** ** Session completion, timers, CSV metadata *)

Section Fields.

Lemma keepsVersion_single (name : string) (x : jsval) :
  lit name <> lit "version" ->
  keepsVersion (object [ (name, x) ]) = true.
Proof.
  intros Hne. unfold keepsVersion, object. simpl.
  now rewrite lookup_insert_ne.
Qed.

Lemma object_single (name : string) (x : jsval) (k : str) :
  object [ (name, x) ] !! k = if bool_decide (k = lit name) then Some x else None.
Proof.
  unfold object. simpl. case_bool_decide as Hk.
  - subst. apply lookup_insert_eq.
  - rewrite lookup_insert_ne by congruence. apply lookup_empty.
Qed.










Lemma getCsvMeta_value (st : Storage) :
  fst (getCsvMeta st) = orElse (getProp (readBack st) (lit "csvMeta")) VNull.
Proof.
  unfold getCsvMeta, bind, ret, readBack. now destruct (getState st).
Qed.



Lemma keepsVersion_csvData (csvText : str) (parsedRows : list CsvRow)
    (sessionNames : list str) :
  keepsVersion (storageActions.csvDataUpdates csvText parsedRows sessionNames)
  = true.
Proof.
  unfold keepsVersion. rewrite updates_other; [reflexivity|].
  unfold csvDataKeys. rewrite !not_elem_of_cons. split_and!; try discriminate.
  apply not_elem_of_nil.
Qed.

Lemma setCsvData_read (csvText : str) (parsedRows : list CsvRow)
    (sessionNames : list str) (st : Storage) (k : str) :
  getProp (readBack (snd (storageActions.setCsvData csvText parsedRows
                            sessionNames st))) k
  = match storageActions.csvDataUpdates csvText parsedRows sessionNames !! k with
    | Some x => x
    | None => getProp (readBack st) k
    end.
Proof.
  pose proof (updateState_read _ st
              (keepsVersion_csvData csvText parsedRows sessionNames)) as H.
  unfold storageActions.setCsvData, readBack. rewrite H.
  destruct (_ !! k) as [x|] eqn:Hk; [|reflexivity].
  pose proof (updates_safe _ _ _ k x Hk) as Hs. unfold writtenAs.
  now rewrite (jsonSafe_defined x Hs), (jsonSafe_clean x Hs).
Qed.

Lemma hasCsv_value (coercedPositive : jsval -> bool) (st : Storage) :
  fst (hasCsv coercedPositive st)
  = truthy (getProp (readBack st) (lit "csvText"))
    && truthy (getProp (readBack st) (lit "parsedRows"))
    && greaterThanZero coercedPositive
         (lengthOf (getProp (readBack st) (lit "parsedRows"))).
Proof.
  unfold hasCsv, bind, ret, readBack. now destruct (getState st).
Qed.

End Fields.





(** X9: [getCsvMeta] returns the metadata [setCsvMeta] has stored, and
    [null] once the store is cleared. *)
Theorem setCsvMeta_then_get (meta : CsvMeta) (st : Storage) :
  fst (getCsvMeta (snd (setCsvMeta meta st))) = metaToJs meta
  /\ fst (getCsvMeta (snd (storageReducer.setCsvMeta meta st))) = metaToJs meta
  /\ fst (getCsvMeta (snd (clearAll st))) = VNull.
Proof.
  assert (H : fst (getCsvMeta (snd (setCsvMeta meta st))) = metaToJs meta).
  { rewrite getCsvMeta_value. unfold setCsvMeta, readBack.
    pose proof (updateState_read (object [ ("csvMeta", metaToJs meta) ]%string) st
                (keepsVersion_single "csvMeta" _ ltac:(discriminate))) as E.
    rewrite E, object_single, bool_decide_eq_true_2 by reflexivity.
    reflexivity. }
  split_and!; [exact H | exact H |].
  rewrite getCsvMeta_value. unfold readBack, clearAll, getState. simpl.
  now rewrite lookup_delete_eq.
Qed.

(** X10: after [setCsvData], [hasCsv] answers whether the text and the
    list of rows are both non-empty, whatever was stored before; after
    [clearAll] it answers no. *)
Theorem hasCsv_after (coercedPositive : jsval -> bool) (csvText : str)
    (parsedRows : list CsvRow) (sessionNames : list str) (st : Storage) :
  fst (hasCsv coercedPositive
         (snd (storageActions.setCsvData csvText parsedRows sessionNames st)))
  = negb (isEmpty csvText) && (0 <? length parsedRows)%nat
  /\ fst (hasCsv coercedPositive (snd (clearAll st))) = false.
Proof.
  split.
  - rewrite hasCsv_value, !setCsvData_read.
    change (storageActions.csvDataUpdates csvText parsedRows sessionNames
              !! lit "csvText") with (Some (VStr csvText)).
    change (storageActions.csvDataUpdates csvText parsedRows sessionNames
              !! lit "parsedRows")
      with (Some (VArr (List.map rowToJs parsedRows))).
    cbn [truthy lengthOf greaterThanZero]. rewrite length_map, andb_true_r.
    f_equal. now destruct parsedRows.
  - rewrite hasCsv_value. unfold readBack, clearAll, getState. simpl.
    now rewrite lookup_delete_eq.
Qed.

(** ** More on the tokenizer *)

Section TokenizerShape.

Variable D : Delimiter.

Abbreviation d := (delimChar D).

(** The fields pushed so far stay in front. *)
Lemma splitLoop_out_bounded (n : nat) :
  forall (line : str) (q : bool) (cur : str) (out : list str),
    (length line <= n)%nat ->
    splitLoop d line q cur out = out ++ splitLoop d line q cur [].
Proof.
  induction n as [|n IH]; intros line q cur out Hn.
  - destruct line; [reflexivity | simpl in Hn; lia].
  - destruct line as [|ch rest]; [reflexivity|]. simpl in Hn.
    cbn [splitLoop]. destruct q.
    + destruct (ch =? QUOTE).
      * destruct rest as [|ch' rest']; [apply IH; simpl; lia|].
        destruct (ch' =? QUOTE); apply IH; simpl in *; lia.
      * apply IH; lia.
    + destruct (ch =? QUOTE); [apply IH; lia|].
      destruct (ch =? d).
      * rewrite (IH rest false [] (out ++ [cur])),
          (IH rest false [] ([] ++ [cur])) by lia.
        now rewrite app_assoc.
      * destruct (ch =? CR); apply IH; lia.
Qed.

Lemma splitLoop_out (line : str) (q : bool) (cur : str) (out : list str) :
  splitLoop d line q cur out = out ++ splitLoop d line q cur [].
Proof. now apply (splitLoop_out_bounded (length line)). Qed.

Lemma splitLoop_count_bounded (n : nat) :
  forall (line : str) (q : bool) (cur : str),
    (length line <= n)%nat ->
    (1 <= length (splitLoop d line q cur [])
     <= 1 + length (List.filter (fun c => (c =? d)%N) line))%nat.
Proof.
  induction n as [|n IH]; intros line q cur Hn.
  - destruct line; [simpl; lia | simpl in Hn; lia].
  - destruct line as [|ch rest]; [simpl; lia|]. simpl in Hn.
    cbn [splitLoop List.filter]. destruct q.
    + destruct (ch =? QUOTE) eqn:Hq.
      * apply N.eqb_eq in Hq. subst ch. rewrite (N.eqb_sym QUOTE), delim_not_quote.
        destruct rest as [|ch' rest']; [apply IH; simpl; lia|].
        destruct (ch' =? QUOTE) eqn:Hq'.
        -- apply N.eqb_eq in Hq'. subst ch'. cbn [List.filter].
           rewrite (N.eqb_sym QUOTE), delim_not_quote. apply IH. simpl in *. lia.
        -- apply IH. simpl in *. lia.
      * specialize (IH rest true (cur ++ [ch]) ltac:(lia)).
        destruct (ch =? d); simpl; lia.
    + destruct (ch =? QUOTE) eqn:Hq.
      * apply N.eqb_eq in Hq. subst ch. rewrite (N.eqb_sym QUOTE), delim_not_quote.
        apply IH. lia.
      * destruct (ch =? d).
        -- rewrite splitLoop_out. rewrite length_app. simpl.
           specialize (IH rest false [] ltac:(lia)). lia.
        -- destruct (ch =? CR); apply IH; lia.
Qed.

(** Outside quotes and with no quote ahead, the tokenizer cuts at every
    delimiter and drops every carriage return. *)
Lemma splitLoop_quote_free (line : str) :
  includes QUOTE line = false ->
  forall cur : str,
    includes d cur = false -> includes CR cur = false ->
    let fields := splitLoop d line false cur [] in
    join [d] fields = cur ++ removeAll CR line
    /\ length fields = (1 + length (List.filter (fun c => (c =? d)%N) line))%nat
    /\ Forall (fun f => includes d f = false /\ includes CR f = false) fields.
Proof.
  induction line as [|ch rest IH]; intros Hq cur Hd Hcr.
  - simpl. rewrite app_nil_r. split_and!; auto.
  - unfold includes in Hq. cbn [existsb] in Hq.
    apply orb_false_elim in Hq as [Hch Hq]. fold (includes QUOTE rest) in Hq.
    rewrite N.eqb_sym in Hch. cbn [splitLoop]. rewrite Hch.
    cbn [List.filter removeAll]. fold (removeAll CR rest).
    destruct (ch =? d) eqn:Hdl.
    + apply N.eqb_eq in Hdl. subst ch. rewrite delim_not_cr. cbn [negb].
      destruct (IH Hq [] eq_refl eq_refl) as (Hj & Hl & Hf).
      rewrite splitLoop_out. cbn [app length].
      destruct (splitLoop d rest false [] []) as [|f fs] eqn:E;
        [simpl in Hl; lia|].
      split_and!.
      * change (join [d] (cur :: f :: fs))
          with (cur ++ [d] ++ join [d] (f :: fs)).
        now rewrite Hj.
      * now rewrite Hl.
      * constructor; [split; assumption | exact Hf].
    + destruct (ch =? CR) eqn:Hc.
      * cbn [negb]. now apply IH.
      * cbn [negb].
        destruct (IH Hq (cur ++ [ch])) as (Hj & Hl & Hf).
        -- unfold includes. rewrite existsb_app. unfold includes in Hd.
           rewrite Hd. cbn [existsb orb]. now rewrite N.eqb_sym, Hdl.
        -- unfold includes. rewrite existsb_app. unfold includes in Hcr.
           rewrite Hcr. cbn [existsb orb]. now rewrite N.eqb_sym, Hc.
        -- split_and!; [|exact Hl|exact Hf].
           rewrite Hj. now rewrite <- app_assoc.
Qed.

(** A delimiter met outside quotes ends the field: what comes before and
    what comes after are tokenized apart. *)
Lemma splitLoop_app_bounded (l2 : str) (n : nat) :
  forall (l1 : str) (q : bool) (cur : str),
    (length l1 <= n)%nat ->
    (exists m, (length (List.filter (fun c => (c =? QUOTE)%N) l1)
                + (if q then 1 else 0) = 2 * m)%nat) ->
    splitLoop d (l1 ++ d :: l2) q cur []
    = splitLoop d l1 q cur [] ++ splitLoop d l2 false [] [].
Proof.
  induction n as [|n IH]; intros l1 q cur Hn [m Hm].
  - destruct l1; [|simpl in Hn; lia]. simpl in Hm.
    destruct q; [lia|]. cbn [app splitLoop].
    rewrite delim_not_quote, N.eqb_refl. now rewrite splitLoop_out.
  - destruct l1 as [|ch rest].
    { simpl in Hm. destruct q; [lia|]. cbn [app splitLoop].
      rewrite delim_not_quote, N.eqb_refl. now rewrite splitLoop_out. }
    simpl in Hn. rewrite <- app_comm_cons. cbn [splitLoop].
    cbn [List.filter] in Hm. destruct q.
    + destruct (ch =? QUOTE) eqn:Hq.
      * destruct rest as [|ch' rest'].
        -- cbn [app]. rewrite delim_not_quote.
           apply (IH [] false cur); [simpl; lia|]. exists 0%nat. reflexivity.
        -- rewrite <- app_comm_cons. cbn [List.filter length] in Hm.
           destruct (ch' =? QUOTE) eqn:Hq'.
           ++ apply IH; [simpl in *; lia|]. exists (m - 1)%nat.
              simpl in Hm. lia.
           ++ rewrite app_comm_cons. apply IH; [simpl in *; lia|].
              exists (m - 1)%nat. cbn [List.filter]. rewrite Hq'.
              simpl in Hm. lia.
      * apply IH; [lia|]. exists m. exact Hm.
    + destruct (ch =? QUOTE) eqn:Hq.
      * apply IH; [lia|]. exists m. simpl in Hm. lia.
      * destruct (ch =? d).
        -- rewrite splitLoop_out, (splitLoop_out rest).
           rewrite (IH rest false []); [|lia|exists m; exact Hm].
           now rewrite app_assoc.
        -- destruct (ch =? CR); (apply IH; [lia|exists m; exact Hm]).
Qed.

End TokenizerShape.

(** X11: [splitCsvLine] returns at least one field and at most one more
    than the line has delimiters. *)
Theorem splitCsvLine_count (line : str) (delimiter : Delimiter) :
  (1 <= length (splitCsvLine line delimiter)
   <= 1 + length (List.filter (fun c => (c =? delimChar delimiter)%N) line))%nat.
Proof.
  unfold splitCsvLine.
  pose proof (splitLoop_count_bounded delimiter (length line) line false []
                (le_n _)) as [Hmin Hmax].
  split; [exact Hmin | exact Hmax].
Qed.

(** X12: on a line without quotes [splitCsvLine] is the inverse of
    joining: it cuts at every delimiter and drops every carriage return,
    so that the fields joined by the delimiter give the line without its
    carriage returns, and no field holds a delimiter or a carriage
    return. *)
Theorem splitCsvLine_quote_free (line : str) (delimiter : Delimiter) :
  includes QUOTE line = false ->
  let fields := splitCsvLine line delimiter in
  join [delimChar delimiter] fields = removeAll CR line
  /\ length fields
     = (1 + length (List.filter (fun c => (c =? delimChar delimiter)%N) line))%nat
  /\ Forall (fun f => includes (delimChar delimiter) f = false
                      /\ includes CR f = false) fields.
Proof.
  intros Hq.
  exact (splitLoop_quote_free delimiter line Hq [] eq_refl eq_refl).
Qed.

Lemma splitCsvLine_quote_free_witness :
  let line := lit "Day 1,Plank,3,60s," ++ [CR] in
  includes QUOTE line = false
  /\ join [COMMA] (splitCsvLine line Comma) = lit "Day 1,Plank,3,60s,"
  /\ length (splitCsvLine line Comma) = 5%nat.
Proof.
  intros line.
  assert (Hq : includes QUOTE line = false) by reflexivity.
  destruct (splitCsvLine_quote_free line Comma Hq) as (Hj & Hl & _).
  split_and!; [exact Hq | exact Hj | exact Hl].
Defined.

(** X13: a delimiter that follows an even number of quotes separates:
    the fields of the whole line are the fields of the part before it,
    then the fields of the part after it. *)
Theorem splitCsvLine_app (before after : str) (delimiter : Delimiter) :
  Nat.even (length (List.filter (fun c => (c =? QUOTE)%N) before)) = true ->
  splitCsvLine (before ++ delimChar delimiter :: after) delimiter
  = splitCsvLine before delimiter ++ splitCsvLine after delimiter.
Proof.
  intros He. apply Nat.even_spec in He as [m Hm].
  apply (splitLoop_app_bounded delimiter after (length before));
    [lia|]. exists m. lia.
Qed.

Lemma splitCsvLine_app_witness :
  let before := QUOTE :: lit "Squats, Barbell" ++ [QUOTE] in
  let after := lit "3,12" in
  Nat.even (length (List.filter (fun c => (c =? QUOTE)%N) before)) = true
  /\ splitCsvLine (before ++ COMMA :: after) Comma
     = [lit "Squats, Barbell"; lit "3"; lit "12"].
Proof.
  intros before after.
  assert (He : Nat.even (length (List.filter (fun c => (c =? QUOTE)%N) before)) = true)
    by reflexivity.
  split; [exact He|].
  etransitivity; [exact (splitCsvLine_app before after Comma He)|reflexivity].
Defined.

(** ** More on the importer *)

Section LoopShape.

Variable indexOf : list (Key * option nat).
Variable delimiter : Delimiter.

(** What the loop body appends to the rows and to the diagnostics is
    what it makes of the line alone. *)
Lemma loopBody_lineOutcome (lineNo : nat) (raw : str) (st : LoopState) :
  l_rows (loopBody indexOf delimiter lineNo raw st)
  = l_rows st ++ l_rows (lineOutcome indexOf delimiter lineNo raw)
  /\ l_errors (loopBody indexOf delimiter lineNo raw st)
     = l_errors st ++ l_errors (lineOutcome indexOf delimiter lineNo raw).
Proof.
  unfold lineOutcome, loopBody.
  destruct (isEmpty raw || isEmpty (trim raw));
    [simpl; now rewrite !app_nil_r|].
  destruct (isEmpty _ && isEmpty _); [simpl; now rewrite !app_nil_r|].
  cbn [l_rows l_errors initialLoopState]. split; [reflexivity|].
  destruct (missingInRowOf _); [now rewrite app_nil_r | reflexivity].
Qed.

Lemma lineOutcome_rows (lineNo lineNo' : nat) (raw : str) :
  l_rows (lineOutcome indexOf delimiter lineNo raw)
  = l_rows (lineOutcome indexOf delimiter lineNo' raw).
Proof.
  unfold lineOutcome, loopBody.
  destruct (isEmpty raw || isEmpty (trim raw)); [reflexivity|].
  now destruct (isEmpty _ && isEmpty _).
Qed.

(** A row that is kept has a day or an exercise; it has a diagnostic
    exactly when a required field is missing. *)
Lemma dataLoop_kept (lines : list str) (lineNo : nat) :
  let st := dataLoop indexOf delimiter lineNo lines initialLoopState in
  Forall (fun row => Day row <> [] \/ Exercise row <> []) (l_rows st)
  /\ length (l_errors st)
     = length (List.filter (fun row => negb (isComplete row)) (l_rows st)).
Proof.
  apply (dataLoop_invariant indexOf delimiter
    (fun st =>
       Forall (fun row => Day row <> [] \/ Exercise row <> []) (l_rows st)
       /\ length (l_errors st)
          = length (List.filter (fun row => negb (isComplete row)) (l_rows st))));
    [|split; [constructor | reflexivity]].
  clear lines lineNo. intros lineNo raw st [Hrows Herr]. unfold loopBody.
  destruct (isEmpty raw || isEmpty (trim raw)); [now split|].
  destruct (isEmpty (Day _) && isEmpty (Exercise _)) eqn:Hkeep; [now split|].
  set (row := rowOfLine indexOf delimiter raw) in *.
  split; cbn [l_rows l_errors].
  - apply Forall_app. split; [exact Hrows|]. constructor; [|constructor].
    apply andb_false_iff in Hkeep as [H|H]; [left|right];
      intros E; rewrite E in H; discriminate H.
  - rewrite List.filter_app, !length_app, <- Herr. cbn [List.filter].
    unfold isComplete.
    destruct (missingInRowOf row); rewrite ?length_app; simpl; lia.
Qed.

End LoopShape.

Section ImporterShape.

Variable toLowerCase : str -> str.

Lemma parseCsv_failure_or_rows (csvText : str) :
  (exists message, parseCsv toLowerCase csvText = failure message)
  \/ exists indexOf delimiter lines,
       let st := dataLoop indexOf delimiter 1 lines initialLoopState in
       rows (parseCsv toLowerCase csvText) = l_rows st
       /\ errors (parseCsv toLowerCase csvText) = l_errors st.
Proof.
  destruct (parseCsv_cases toLowerCase csvText)
    as [[_ E] | [(_ & _ & E) | [(_ & _ & _ & E) | (_ & _ & _ & st & _ & -> & E)]]];
    [left; eauto..|].
  right. eexists _, _, _. rewrite E. split; reflexivity.
Qed.

End ImporterShape.

(** X14: the rows the loop over the data lines collects are, line after
    line and in the order of the lines, the rows each line gives by
    itself; the diagnostics likewise, each with the number of its
    line. *)
Theorem dataLoop_line_by_line (indexOf : list (Key * option nat))
    (delimiter : Delimiter) (lines : list str) (lineNo : nat) (st : LoopState) :
  l_rows (dataLoop indexOf delimiter lineNo lines st)
  = l_rows st
    ++ flat_map (fun raw => l_rows (lineOutcome indexOf delimiter 0 raw)) lines
  /\ l_errors (dataLoop indexOf delimiter lineNo lines st)
     = l_errors st
       ++ List.concat
            (imap (fun i raw =>
                     l_errors (lineOutcome indexOf delimiter (lineNo + i) raw))
               lines).
Proof.
  revert lineNo st. induction lines as [|raw lines IH]; intros lineNo st.
  - simpl. now rewrite !app_nil_r.
  - cbn [dataLoop flat_map imap List.concat].
    destruct (IH (S lineNo) (loopBody indexOf delimiter lineNo raw st))
      as [-> ->].
    destruct (loopBody_lineOutcome indexOf delimiter lineNo raw st) as [-> ->].
    rewrite <- !app_assoc, Nat.add_0_r.
    rewrite (lineOutcome_rows indexOf delimiter 0 lineNo raw).
    split; [reflexivity|]. do 3 f_equal.
    apply imap_ext. intros i x _. unfold compose.
    now replace (lineNo + S i)%nat with (S lineNo + i)%nat by lia.
Qed.

(** X15: every row [parseCsv] returns has a day or an exercise, and when
    it returns rows it returns one diagnostic for each row that lacks a
    required field: no diagnostic means that every row has all five. *)
Theorem parseCsv_rows_kept (toLowerCase : str -> str) (csvText : str) :
  let r := parseCsv toLowerCase csvText in
  Forall (fun row => Day row <> [] \/ Exercise row <> []) (rows r)
  /\ (rows r <> [] ->
      length (errors r)
      = length (List.filter (fun row => negb (isComplete row)) (rows r))
      /\ (errors r = [] <-> forallb isComplete (rows r) = true)).
Proof.
  intros r. subst r.
  destruct (parseCsv_failure_or_rows toLowerCase csvText)
    as [[message ->] | (indexOf & delimiter & lines & -> & ->)].
  - split; [constructor|]. intros H. now elim H.
  - destruct (dataLoop_kept indexOf delimiter lines 1) as [Hrows Hlen].
    split; [exact Hrows|]. intros _. split; [exact Hlen|].
    rewrite <- length_zero_iff_nil, Hlen, length_zero_iff_nil.
    clear. induction (l_rows _) as [|row rs IH]; [easy|].
    cbn [List.filter forallb]. destruct (isComplete row); cbn [negb andb].
    + exact IH.
    + split; discriminate.
Qed.

Lemma parseCsv_rows_kept_witness :
  let r := parseCsv asciiLower scenarioA in
  rows r <> []
  /\ length (errors r) = 1%nat
  /\ length (List.filter (fun row => negb (isComplete row)) (rows r)) = 1%nat.
Proof.
  intros r.
  assert (Hne : rows r <> []) by (vm_compute; discriminate).
  destruct (parseCsv_rows_kept asciiLower scenarioA) as [_ H].
  destruct (H Hne) as [Hlen _]. fold r in Hlen.
  split_and!; [exact Hne | reflexivity | now rewrite <- Hlen].
Defined.

(** *** Carriage returns and the byte order mark *)

Section LineEndings.

Lemma trim_cons_ws (c : N) (s : str) :
  isWhiteSpace c = true -> trim (c :: s) = trim s.
Proof. intros H. unfold trim. simpl. now rewrite H. Qed.

Lemma trimStart_app_ws (s : str) (c : N) :
  isWhiteSpace c = true ->
  trimStart (s ++ [c]) = match trimStart s with [] => [] | t => t ++ [c] end.
Proof.
  intros H. induction s as [|a s IH]; simpl; [now rewrite H|].
  destruct (isWhiteSpace a); [exact IH | reflexivity].
Qed.

Lemma trim_snoc_ws (s : str) (c : N) :
  isWhiteSpace c = true -> trim (s ++ [c]) = trim s.
Proof.
  intros H. unfold trim, trimEnd. rewrite (trimStart_app_ws s c H).
  destruct (trimStart s) as [|a t]; [reflexivity|].
  rewrite rev_app_distr. simpl. now rewrite H.
Qed.

Variable D : Delimiter.

Abbreviation d := (delimChar D).

(** A carriage return at the end of a line is dropped outside quotes
    and trimmed away inside them. *)
Lemma splitLoop_trailing_CR (n : nat) :
  forall (line : str) (q : bool) (cur : str),
    (length line <= n)%nat ->
    List.map trim (splitLoop d (line ++ [CR]) q cur [])
    = List.map trim (splitLoop d line q cur []).
Proof.
  assert (Hbase : forall q cur,
    List.map trim (splitLoop d ([] ++ [CR]) q cur [])
    = List.map trim (splitLoop d [] q cur [])).
  { intros q cur. cbn [app splitLoop]. change (CR =? QUOTE) with false.
    rewrite (N.eqb_sym CR d), (delim_not_cr D), N.eqb_refl.
    destruct q; cbn [List.map app]; [|reflexivity].
    now rewrite trim_snoc_ws. }
  induction n as [|n IH]; intros line q cur Hn.
  - destruct line; [apply Hbase|simpl in Hn; lia].
  - destruct line as [|ch rest]; [apply Hbase|].
    simpl in Hn. rewrite <- app_comm_cons. cbn [splitLoop]. destruct q.
    + destruct (ch =? QUOTE).
      * destruct rest as [|ch' rest'].
        -- cbn [app]. change (CR =? QUOTE) with false. cbv iota.
           apply (Hbase false cur).
        -- rewrite <- app_comm_cons. destruct (ch' =? QUOTE).
           ++ apply IH. simpl in *. lia.
           ++ rewrite app_comm_cons. apply IH. simpl in *. lia.
      * apply IH. lia.
    + destruct (ch =? QUOTE); [apply IH; lia|].
      destruct (ch =? d).
      * rewrite (splitLoop_out D (rest ++ [CR])), (splitLoop_out D rest).
        rewrite !map_app. f_equal. apply IH. lia.
      * destruct (ch =? CR); apply IH; lia.
Qed.

Lemma stripTrailingCR_cons (c : N) (raw : str) :
  raw <> [] -> stripTrailingCR (c :: raw) = c :: stripTrailingCR raw.
Proof. destruct raw; [contradiction | reflexivity]. Qed.

Lemma stripTrailingCR_snoc (raw : str) : stripTrailingCR (raw ++ [CR]) = raw.
Proof.
  induction raw as [|c raw IH]; [reflexivity|].
  rewrite <- app_comm_cons, stripTrailingCR_cons, IH; [reflexivity|].
  now destruct raw.
Qed.

Lemma stripTrailingCR_cases (raw : str) :
  stripTrailingCR raw = raw \/ raw = stripTrailingCR raw ++ [CR].
Proof.
  induction raw as [|c raw IH]; [now left|].
  destruct raw as [|c' raw'].
  - cbn [stripTrailingCR].
    destruct (N.eqb_spec c CR) as [->|_]; [now right | now left].
  - rewrite stripTrailingCR_cons by discriminate.
    destruct IH as [IH|IH]; [left | right].
    + now rewrite IH.
    + now rewrite <- app_comm_cons, <- IH.
Qed.

(** The cells of a line are those of the line without its last carriage
    return. *)
Lemma cells_stripTrailingCR (raw : str) :
  List.map trim (splitCsvLine (stripTrailingCR raw) D)
  = List.map trim (splitCsvLine raw D).
Proof.
  destruct (stripTrailingCR_cases raw) as [->|E]; [reflexivity|].
  rewrite E at 2. symmetry.
  apply (splitLoop_trailing_CR (length (stripTrailingCR raw))). lia.
Qed.

Lemma isBlank_snoc_CR (raw : str) :
  isBlank (raw ++ [CR]) = isEmpty (trim raw).
Proof.
  unfold isBlank. rewrite trim_snoc_ws by reflexivity. now destruct raw.
Qed.

Lemma isBlank_trim (raw : str) : isBlank raw = isEmpty (trim raw).
Proof. unfold isBlank. now destruct raw. Qed.

End LineEndings.

Lemma loopBody_CR indexOf delimiter lineNo raw st :
  loopBody indexOf delimiter lineNo (raw ++ [CR]) st
  = loopBody indexOf delimiter lineNo raw st.
Proof.
  unfold loopBody. fold (isBlank (raw ++ [CR])). fold (isBlank raw).
  rewrite isBlank_snoc_CR, isBlank_trim.
  unfold rowOfLine. rewrite stripTrailingCR_snoc, cells_stripTrailingCR.
  reflexivity.
Qed.

Section SameResult.

Variable toLowerCase : str -> str.

(** Two documents that are blank or not alike, have as many lines, the
    same delimiter and header cells, and data lines the loop treats
    alike, give the same result. *)
Lemma parseCsv_same (t1 t2 : str) :
  isBlank t1 = isBlank t2 ->
  includes LF t1 = includes LF t2 ->
  detectDelimiter (headerLineOf t1) = detectDelimiter (headerLineOf t2) ->
  headerCellsOf t1 = headerCellsOf t2 ->
  (forall indexOf delimiter,
     dataLoop indexOf delimiter 1 (dataLinesOf t1) initialLoopState
     = dataLoop indexOf delimiter 1 (dataLinesOf t2) initialLoopState) ->
  parseCsv toLowerCase t1 = parseCsv toLowerCase t2.
Proof.
  intros Hb Hlf Hd Hc Hloop.
  destruct (isBlank t2) eqn:B2; [now rewrite !parseCsv_blank|].
  destruct (includes LF t2) eqn:L2; [|now rewrite !parseCsv_one_line].
  assert (Hm : missingRequiredIn toLowerCase t1
               = missingRequiredIn toLowerCase t2)
    by (unfold missingRequiredIn; now rewrite Hc).
  destruct (missingRequiredIn toLowerCase t2) as [|k ks] eqn:M2.
  - rewrite !parseCsv_rows by assumption. now rewrite Hc, Hd, Hloop.
  - rewrite (parseCsv_missing toLowerCase t1 k ks),
      (parseCsv_missing toLowerCase t2 k ks) by assumption.
    now rewrite Hc.
Qed.

End SameResult.

Section CRLF.

Lemma withCRLF_no_LF (s : str) : includes LF s = false -> withCRLF s = s.
Proof.
  induction s as [|c s IH]; [reflexivity|].
  unfold includes. cbn [existsb]. intros [Hc Hs]%orb_false_elim.
  rewrite N.eqb_sym in Hc. unfold withCRLF in *. cbn [flat_map].
  rewrite Hc. cbn [app]. f_equal. now apply IH.
Qed.

Lemma withCRLF_cons (c : N) (s : str) :
  withCRLF (c :: s) = (if c =? LF then [CR; LF] else [c]) ++ withCRLF s.
Proof. reflexivity. Qed.

Lemma allWhiteSpace_withCRLF (s : str) :
  allWhiteSpace (withCRLF s) = allWhiteSpace s.
Proof.
  induction s as [|c s IH]; [reflexivity|].
  rewrite withCRLF_cons. unfold allWhiteSpace in *.
  rewrite forallb_app, IH. cbn [forallb].
  destruct (N.eqb_spec c LF) as [->|_]; [reflexivity|].
  cbn [forallb]. now rewrite andb_true_r.
Qed.

Lemma isBlank_withCRLF (s : str) : isBlank (withCRLF s) = isBlank s.
Proof.
  apply Bool.eq_iff_eq_true.
  now rewrite !isBlank_allWhiteSpace, allWhiteSpace_withCRLF.
Qed.

Lemma includes_LF_withCRLF (s : str) :
  includes LF (withCRLF s) = includes LF s.
Proof.
  induction s as [|c s IH]; [reflexivity|].
  rewrite withCRLF_cons. unfold includes in *. rewrite existsb_app, IH.
  cbn [existsb]. f_equal.
  destruct (N.eqb_spec c LF) as [->|_]; [reflexivity|].
  cbn [existsb]. apply orb_false_r.
Qed.

Lemma stripLeadingBOM_withCRLF (s : str) :
  stripLeadingBOM (withCRLF s) = withCRLF (stripLeadingBOM s).
Proof.
  destruct s as [|c s]; [reflexivity|]. rewrite withCRLF_cons.
  destruct (N.eqb_spec c LF) as [->|Hlf]; [reflexivity|].
  cbn [app stripLeadingBOM]. destruct (c =? BOM); [reflexivity|].
  rewrite withCRLF_cons. apply N.eqb_neq in Hlf. now rewrite Hlf.
Qed.

(** Line by line, the text with the other line endings has the same
    lines, each but the last with a carriage return more. *)
Lemma splitLF_withCRLF (s : str) :
  Forall2 (fun x y => y = x \/ y = x ++ [CR]) (splitLF s) (splitLF (withCRLF s))
  /\ (includes LF s = true ->
      List.hd [] (splitLF (withCRLF s)) = List.hd [] (splitLF s) ++ [CR]).
Proof.
  induction s as [|c s [IH1 IH2]].
  - split; [repeat constructor|discriminate].
  - rewrite withCRLF_cons. unfold includes. cbn [existsb].
    rewrite (N.eqb_sym LF c).
    destruct (N.eqb_spec c LF) as [->|Hlf].
    + cbn [app splitLF]. change (CR =? LF) with false.
      change (LF =? LF) with true. cbv iota.
      split; [constructor; [now right | exact IH1]|reflexivity].
    + cbn [app splitLF orb]. apply N.eqb_neq in Hlf. rewrite Hlf.
      fold (includes LF s).
      destruct (splitLF_cons s) as (l & ls & E).
      destruct (splitLF_cons (withCRLF s)) as (l' & ls' & E').
      rewrite E, E' in *. inversion IH1 as [|? ? ? ? Hh Ht]; subst.
      split.
      * constructor; [|exact Ht].
        destruct Hh as [->| ->]; [now left | now right].
      * intros H. simpl in *. now rewrite (IH2 H).
Qed.

Lemma dataLoop_CR indexOf delimiter (lines lines' : list str) :
  Forall2 (fun x y => y = x \/ y = x ++ [CR]) lines lines' ->
  forall lineNo st,
    dataLoop indexOf delimiter lineNo lines' st
    = dataLoop indexOf delimiter lineNo lines st.
Proof.
  induction 1 as [|x y lines lines' Hxy _ IH]; intros lineNo st;
    [reflexivity|].
  cbn [dataLoop]. rewrite IH.
  destruct Hxy as [->| ->]; [reflexivity | now rewrite loopBody_CR].
Qed.

Lemma detectDelimiter_stripTrailingCR (s : str) :
  detectDelimiter (stripTrailingCR s) = detectDelimiter s.
Proof.
  destruct (stripTrailingCR_cases s) as [->|E]; [reflexivity|].
  rewrite E at 2. unfold detectDelimiter, includes.
  rewrite existsb_app. cbn [existsb]. change (TAB =? CR) with false.
  now rewrite !orb_false_r.
Qed.

End CRLF.

(** X16: a carriage return at the end of a data line changes nothing of
    what the loop makes of the line. *)
Theorem loopBody_trailing_CR (indexOf : list (Key * option nat))
    (delimiter : Delimiter) (lineNo : nat) (raw : str) (st : LoopState) :
  loopBody indexOf delimiter lineNo (raw ++ [CR]) st
  = loopBody indexOf delimiter lineNo raw st.
Proof.
  unfold loopBody. fold (isBlank (raw ++ [CR])). fold (isBlank raw).
  rewrite isBlank_snoc_CR, isBlank_trim.
  unfold rowOfLine. rewrite stripTrailingCR_snoc, cells_stripTrailingCR.
  reflexivity.
Qed.

(** X17: [parseCsv] gives the same result for a text and for the text
    with every line feed preceded by a carriage return. *)
Theorem parseCsv_withCRLF (toLowerCase : str -> str) (csvText : str) :
  parseCsv toLowerCase (withCRLF csvText) = parseCsv toLowerCase csvText.
Proof.
  destruct (includes LF csvText) eqn:Hlf;
    [|now rewrite withCRLF_no_LF].
  assert (Hlf' : includes LF (stripLeadingBOM csvText) = true)
    by now rewrite includes_LF_stripLeadingBOM.
  destruct (splitLF_withCRLF (stripLeadingBOM csvText)) as [Hlines Hhd].
  specialize (Hhd Hlf').
  assert (Hheader : headerLineOf (withCRLF csvText)
                    = List.hd [] (splitLF (stripLeadingBOM csvText))).
  { unfold headerLineOf. rewrite stripLeadingBOM_withCRLF, Hhd.
    apply stripTrailingCR_snoc. }
  apply parseCsv_same.
  - apply isBlank_withCRLF.
  - apply includes_LF_withCRLF.
  - rewrite Hheader. unfold headerLineOf.
    now rewrite detectDelimiter_stripTrailingCR.
  - unfold headerCellsOf. rewrite Hheader. unfold headerLineOf.
    now rewrite detectDelimiter_stripTrailingCR, cells_stripTrailingCR.
  - intros indexOf delimiter. apply dataLoop_CR. unfold dataLinesOf.
    rewrite stripLeadingBOM_withCRLF.
    destruct Hlines; [constructor | assumption].
Qed.

Section LeadingBOM.

Variable D : Delimiter.

Abbreviation d := (delimChar D).

(** What is in front of the current field stays in front of the first
    field. *)
Lemma splitLoop_cur_prefix (p : str) (n : nat) :
  forall (line : str) (q : bool) (cur : str),
    (length line <= n)%nat ->
    splitLoop d line q (p ++ cur) []
    = match splitLoop d line q cur [] with
      | f :: fs => (p ++ f) :: fs
      | [] => []
      end.
Proof.
  induction n as [|n IH]; intros line q cur Hn.
  - destruct line; [reflexivity | simpl in Hn; lia].
  - destruct line as [|ch rest]; [reflexivity|]. simpl in Hn.
    cbn [splitLoop]. destruct q.
    + destruct (ch =? QUOTE).
      * destruct rest as [|ch' rest']; [apply IH; simpl; lia|].
        destruct (ch' =? QUOTE).
        -- rewrite <- app_assoc. apply IH. simpl in *. lia.
        -- apply IH. simpl in *. lia.
      * rewrite <- app_assoc. apply IH. lia.
    + destruct (ch =? QUOTE); [apply IH; lia|].
      destruct (ch =? d).
      * now rewrite (splitLoop_out D rest false [] ([] ++ [p ++ cur])),
          (splitLoop_out D rest false [] ([] ++ [cur])).
      * destruct (ch =? CR); [apply IH; lia|].
        rewrite <- app_assoc. apply IH. lia.
Qed.

Lemma cells_leading_BOM (line : str) :
  List.map trim (splitCsvLine (BOM :: line) D)
  = List.map trim (splitCsvLine line D).
Proof.
  unfold splitCsvLine. cbn [splitLoop]. change (BOM =? QUOTE) with false.
  change (BOM =? CR) with false.
  replace (BOM =? d) with false by now destruct D.
  cbv iota. change (@nil N ++ [BOM]) with ([BOM] ++ @nil N).
  rewrite (splitLoop_cur_prefix [BOM] (length line) line false [] (le_n _)).
  pose proof (splitLoop_count_bounded D (length line) line false [] (le_n _))
    as [Hl _].
  destruct (splitLoop d line false [] []) as [|f fs]; [simpl in Hl; lia|].
  cbn [List.map app]. now rewrite trim_cons_ws.
Qed.

End LeadingBOM.

(** X18: one more byte order mark in front of the text changes nothing
    of what [parseCsv] returns. *)
Theorem parseCsv_leading_BOM (toLowerCase : str -> str) (csvText : str) :
  parseCsv toLowerCase (BOM :: csvText) = parseCsv toLowerCase csvText.
Proof.
  assert (Hcases : stripLeadingBOM csvText = csvText
                   \/ csvText = BOM :: stripLeadingBOM csvText).
  { destruct csvText as [|c s]; [now left|]. simpl.
    destruct (N.eqb_spec c BOM) as [->|_]; [now right | now left]. }
  apply parseCsv_same.
  - rewrite !isBlank_trim. now rewrite trim_cons_ws.
  - reflexivity.
  - unfold headerLineOf. cbn [stripLeadingBOM]. change (BOM =? BOM) with true.
    cbv iota. destruct Hcases as [->|E]; [reflexivity|].
    rewrite E at 1. cbn [splitLF]. change (BOM =? LF) with false. cbv iota.
    destruct (splitLF_cons (stripLeadingBOM csvText)) as (l & ls & ->).
    cbn [List.hd]. destruct l as [|c l]; [reflexivity|].
    rewrite stripTrailingCR_cons by discriminate. reflexivity.
  - unfold headerCellsOf, headerLineOf. cbn [stripLeadingBOM].
    change (BOM =? BOM) with true. cbv iota.
    destruct Hcases as [->|E]; [reflexivity|].
    rewrite E at 1 2. cbn [splitLF]. change (BOM =? LF) with false. cbv iota.
    destruct (splitLF_cons (stripLeadingBOM csvText)) as (l & ls & ->).
    cbn [List.hd].
    assert (Hs : stripTrailingCR (BOM :: l) = BOM :: stripTrailingCR l).
    { destruct l as [|c l]; [reflexivity|].
      now rewrite stripTrailingCR_cons by discriminate. }
    rewrite Hs.
    replace (detectDelimiter (BOM :: stripTrailingCR l))
      with (detectDelimiter (stripTrailingCR l)) by reflexivity.
    apply cells_leading_BOM.
  - intros indexOf delimiter. unfold dataLinesOf. cbn [stripLeadingBOM].
    change (BOM =? BOM) with true. cbv iota.
    destruct Hcases as [->|E]; [reflexivity|].
    rewrite E at 1. cbn [splitLF]. change (BOM =? LF) with false. cbv iota.
    now destruct (splitLF_cons (stripLeadingBOM csvText)) as (l & ls & ->).
Qed.

(** ** Header resolution *)

Section Headers.

Variable toLowerCase : str -> str.

Abbreviation norm := (normHeader toLowerCase).

(** The index the reverse index holds for a normalized name: that of the
    last header cell with that name, or what the map held before. *)
Lemma indexHeaders_lookup (cells : list str) :
  forall (idx : nat) (m : gmap str nat) (key : str) (i : nat),
    indexHeaders toLowerCase cells idx m !! key = Some i
    <-> (exists j h,
           i = (idx + j)%nat /\ cells !! j = Some h /\ norm h = key
           /\ forall j' h', (j < j')%nat -> cells !! j' = Some h' ->
                norm h' <> key)
        \/ (m !! key = Some i
            /\ forall j h, cells !! j = Some h -> norm h <> key).
Proof.
  induction cells as [|h0 rest IH]; intros idx m key i.
  - simpl. split.
    + intros H. right. split; [exact H|]. intros j h Hj. discriminate Hj.
    + intros [(j & h & _ & Hj & _) | [H _]]; [discriminate Hj | exact H].
  - cbn [indexHeaders]. rewrite IH. split.
    + intros [(j & h & -> & Hj & Hk & Hlast) | [Hm Hnone]].
      * left. exists (S j), h. split_and!; [lia | exact Hj | exact Hk |].
        intros [|j'] h' Hlt Hj'; [lia|]. apply (Hlast j' h'); [lia | exact Hj'].
      * destruct (decide (norm h0 = key)) as [E|E].
        -- rewrite E, lookup_insert_eq in Hm. injection Hm as <-.
           left. exists 0%nat, h0. split_and!; [lia | reflexivity | exact E |].
           intros [|j'] h' Hlt Hj'; [lia|]. exact (Hnone j' h' Hj').
        -- rewrite lookup_insert_ne in Hm by exact E.
           right. split; [exact Hm|].
           intros [|j] h Hj; [injection Hj as <-; exact E|].
           exact (Hnone j h Hj).
    + intros [(j & h & -> & Hj & Hk & Hlast) | [Hm Hnone]].
      * destruct j as [|j].
        -- injection Hj as ->. right. split.
           ++ rewrite Hk, lookup_insert_eq. f_equal. lia.
           ++ intros j h' Hj'. apply (Hlast (S j) h'); [lia | exact Hj'].
        -- left. exists j, h. split_and!; [lia | exact Hj | exact Hk |].
           intros j' h' Hlt Hj'. apply (Hlast (S j') h'); [lia | exact Hj'].
      * right. split.
        -- rewrite lookup_insert_ne; [exact Hm|]. exact (Hnone 0%nat h0 eq_refl).
        -- intros j h Hj. exact (Hnone (S j) h Hj).
Qed.

Lemma findIndex_is_Some (m : gmap str nat) (variants : list str) :
  is_Some (findIndex toLowerCase m variants)
  <-> exists v, In v variants /\ is_Some (m !! norm v).
Proof.
  induction variants as [|v rest IH]; cbn [findIndex].
  - split; [intros [? H]; discriminate H | intros (v & [] & _)].
  - destruct (m !! norm v) as [idx|] eqn:E.
    + split; [|eauto]. intros _. exists v. split; [now left|].
      rewrite E. eauto.
    + rewrite IH. split.
      * intros (v' & Hin & Hs). exists v'. split; [now right | exact Hs].
      * intros (v' & [->|Hin] & Hs); [|eauto].
        rewrite E in Hs. destruct Hs as [? Hs]. discriminate Hs.
Qed.

Lemma indexHeaders_is_Some (cells : list str) (key : str) :
  is_Some (indexHeaders toLowerCase cells 0 ∅ !! key)
  <-> exists h, In h cells /\ norm h = key.
Proof.
  split.
  - intros [i Hi]. apply indexHeaders_lookup in Hi
      as [(j & h & _ & Hj & Hk & _) | [He _]].
    + exists h. split; [|exact Hk].
      apply list_elem_of_In. eapply list_elem_of_lookup_2, Hj.
    + rewrite lookup_empty in He. discriminate He.
  - intros (h & Hin & Hk).
    assert (Hex : exists j, (j < length cells)%nat
                            /\ exists h', cells !! j = Some h' /\ norm h' = key).
    { apply list_elem_of_In, list_elem_of_lookup_1 in Hin as [j Hj].
      exists j. split; [eapply lookup_lt_Some, Hj | eauto]. }
    clear h Hin Hk.
    (* the last such cell *)
    assert (Hlast : exists j h',
              cells !! j = Some h' /\ norm h' = key
              /\ forall j' h'', (j < j')%nat -> cells !! j' = Some h'' ->
                   norm h'' <> key).
    { induction cells as [|c rest IH] using rev_ind.
      - destruct Hex as (j & Hj & _). simpl in Hj. lia.
      - destruct (decide (norm c = key)) as [E|E].
        + exists (length rest), c. split_and!.
          * rewrite lookup_app_r by lia. now rewrite Nat.sub_diag.
          * exact E.
          * intros j' h'' Hlt Hj'. apply lookup_lt_Some in Hj'.
            rewrite length_app in Hj'. simpl in Hj'. lia.
        + destruct IH as (j & h' & Hj & Hk & Hl).
          * destruct Hex as (j & Hlt & h' & Hj & Hk).
            rewrite length_app in Hlt. simpl in Hlt.
            destruct (decide (j = length rest)) as [->|Hne].
            -- rewrite lookup_app_r, Nat.sub_diag in Hj by lia.
               injection Hj as <-. contradiction.
            -- exists j. split; [lia|]. exists h'. split; [|exact Hk].
               rewrite lookup_app_l in Hj by lia. exact Hj.
          * exists j, h'. split_and!; [|exact Hk|].
            -- rewrite lookup_app_l; [exact Hj|]. eapply lookup_lt_Some, Hj.
            -- intros j' h'' Hlt Hj'.
               destruct (decide (j' < length rest)%nat) as [Hin|Hout].
               ++ rewrite lookup_app_l in Hj' by exact Hin.
                  exact (Hl j' h'' Hlt Hj').
               ++ rewrite lookup_app_r in Hj' by lia.
                  destruct (j' - length rest)%nat; [|discriminate Hj'].
                  injection Hj' as <-. exact E. }
    destruct Hlast as (j & h' & Hj & Hk & Hl).
    exists (0 + j)%nat. apply indexHeaders_lookup. left. eauto 10.
Qed.

End Headers.

(** X19: when several header cells normalize to the same name, the
    reverse index holds the position of the last of them. *)
Theorem header_last_duplicate_wins (toLowerCase : str -> str)
    (headerCells : list str) (key : str) (i : nat) :
  indexHeaders toLowerCase headerCells 0 ∅ !! key = Some i
  <-> (exists h, headerCells !! i = Some h /\ normHeader toLowerCase h = key)
      /\ forall j h, (i < j)%nat -> headerCells !! j = Some h ->
           normHeader toLowerCase h <> key.
Proof.
  rewrite indexHeaders_lookup. split.
  - intros [(j & h & -> & Hj & Hk & Hlast) | [He _]].
    + split; [exists h; split; [exact Hj | exact Hk]|exact Hlast].
    + rewrite lookup_empty in He. discriminate He.
  - intros [(h & Hi & Hk) Hlast]. left. exists i, h. split_and!; eauto.
Qed.

(** X20: a key of the row resolves to a column exactly when some header
    cell normalizes like the canonical name of the key or like one of
    its aliases. *)
Theorem header_resolves_iff (toLowerCase : str -> str)
    (headerCells : list str) (k : Key) :
  is_Some (lookupIndex (resolveHeaders toLowerCase headerCells) k)
  <-> exists name h,
        In name (namesOf k) /\ In h headerCells
        /\ normHeader toLowerCase h = normHeader toLowerCase name.
Proof.
  assert (E : lookupIndex (resolveHeaders toLowerCase headerCells) k
              = findIndex toLowerCase
                  (indexHeaders toLowerCase headerCells 0 ∅) (namesOf k))
    by now destruct k.
  rewrite E, findIndex_is_Some. split.
  - intros (v & Hv & Hs). apply indexHeaders_is_Some in Hs as (h & Hh & Hk).
    eauto.
  - intros (name & h & Hn & Hh & Hk). exists name. split; [exact Hn|].
    apply indexHeaders_is_Some. eauto.
Qed.

(** *** Letter case *)

Section MapUnits.

(** A change of units that keeps the classes the normalization looks
    at. *)
Variable f : N -> N.
Hypothesis f_ws : forall c, isWhiteSpace (f c) = isWhiteSpace c.
Hypothesis f_bom : forall c, (f c =? BOM) = (c =? BOM).
Hypothesis f_colon : forall c, (f c =? 58) = (c =? 58).
Hypothesis f_dash : forall c, isDashOrUnderscore (f c) = isDashOrUnderscore c.
Hypothesis f_space : f SPACE = SPACE.

Lemma trimStart_map (s : str) :
  trimStart (List.map f s) = List.map f (trimStart s).
Proof.
  induction s as [|c s IH]; [reflexivity|]. simpl. rewrite f_ws, IH.
  now destruct (isWhiteSpace c).
Qed.

Lemma trim_map (s : str) : trim (List.map f s) = List.map f (trim s).
Proof.
  unfold trim, trimEnd.
  now rewrite trimStart_map, <- map_rev, trimStart_map, map_rev.
Qed.

Lemma removeAll_map (c : N) (s : str) :
  (forall x, (f x =? c) = (x =? c)) ->
  removeAll c (List.map f s) = List.map f (removeAll c s).
Proof.
  intros Hc. unfold removeAll.
  induction s as [|x s IH]; [reflexivity|]. cbn [List.map List.filter].
  rewrite Hc, IH. now destruct (x =? c).
Qed.

Lemma collapseRuns_map (class : N -> bool) (inRun : bool) (s : str) :
  (forall c, class (f c) = class c) ->
  collapseRuns class inRun (List.map f s)
  = List.map f (collapseRuns class inRun s).
Proof.
  intros Hc. revert inRun.
  induction s as [|x s IH]; intros inRun; [reflexivity|].
  cbn [List.map collapseRuns]. rewrite Hc, !IH.
  destruct (class x), inRun; cbn [List.map]; now rewrite ?f_space.
Qed.

Lemma preNorm_map (h : str) : preNorm (List.map f h) = List.map f (preNorm h).
Proof.
  unfold preNorm.
  now rewrite trim_map, (removeAll_map BOM), !collapseRuns_map,
    (removeAll_map 58) by auto.
Qed.

End MapUnits.

Section LetterCase.

Lemma In_trimStart (x : N) (s : str) : In x (trimStart s) -> In x s.
Proof.
  destruct (trimStart_suffix s) as [p Hp]. intros H. rewrite Hp.
  apply in_or_app. now right.
Qed.

Lemma In_trim (x : N) (s : str) : In x (trim s) -> In x s.
Proof.
  unfold trim, trimEnd. intros H.
  apply In_trimStart. apply in_rev. apply In_trimStart. now apply in_rev.
Qed.

Lemma In_collapseRuns (class : N -> bool) (x : N) (s : str) :
  forall inRun, In x (collapseRuns class inRun s) -> x = SPACE \/ In x s.
Proof.
  induction s as [|c s IH]; intros inRun H; [now right|].
  cbn [collapseRuns] in H. destruct (class c).
  - destruct inRun.
    + destruct (IH _ H); [now left | right; now right].
    + destruct H as [<-|H]; [now left|].
      destruct (IH _ H); [now left | right; now right].
  - destruct H as [<-|H]; [right; now left|].
    destruct (IH _ H); [now left | right; now right].
Qed.

Lemma isAscii_preNorm (h : str) : isAscii h = true -> isAscii (preNorm h) = true.
Proof.
  unfold isAscii. rewrite !forallb_forall. intros H x Hx.
  unfold preNorm, removeAll in Hx.
  apply filter_In in Hx as [Hx _].
  apply In_collapseRuns in Hx as [->|Hx]; [reflexivity|].
  apply In_collapseRuns in Hx as [->|Hx]; [reflexivity|].
  apply filter_In in Hx as [Hx _]. apply H. now apply In_trim.
Qed.

Abbreviation upper1 := (fun c : N => if (97 <=? c) && (c <=? 122) then c - 32 else c).

Lemma upper1_ws (c : N) : isWhiteSpace (upper1 c) = isWhiteSpace c.
Proof.
  cbv beta. destruct ((97 <=? c) && (c <=? 122)) eqn:E; [|reflexivity].
  apply andb_true_iff in E as [H1%N.leb_le H2%N.leb_le].
  assert (Hno : forall x, (65 <= x <= 122)%N -> isWhiteSpace x = false).
  { intros x Hx. unfold isWhiteSpace.
    repeat match goal with
           | |- context [N.eqb x ?b] =>
             replace (N.eqb x b) with false by (symmetry; apply N.eqb_neq; lia)
           end.
    replace (8192 <=? x) with false by (symmetry; apply N.leb_gt; lia).
    reflexivity. }
  rewrite !Hno by lia. reflexivity.
Qed.

Lemma upper1_unit (k : N) (c : N) :
  (k < 65 \/ 122 < k)%N -> (upper1 c =? k) = (c =? k).
Proof.
  intros Hk. cbv beta.
  destruct ((97 <=? c) && (c <=? 122)) eqn:E; [|reflexivity].
  apply andb_true_iff in E as [H1%N.leb_le H2%N.leb_le].
  transitivity false; [|symmetry]; apply N.eqb_neq; lia.
Qed.

Lemma upper1_dash (c : N) :
  isDashOrUnderscore (upper1 c) = isDashOrUnderscore c.
Proof.
  unfold isDashOrUnderscore. cbv beta.
  destruct ((97 <=? c) && (c <=? 122)) eqn:E; [|reflexivity].
  apply andb_true_iff in E as [H1%N.leb_le H2%N.leb_le].
  replace (c - 32 =? 45) with false by (symmetry; apply N.eqb_neq; lia).
  replace (c - 32 =? 95) with false by (symmetry; apply N.eqb_neq; lia).
  replace (c =? 45) with false by (symmetry; apply N.eqb_neq; lia).
  replace (c =? 95) with false by (symmetry; apply N.eqb_neq; lia).
  reflexivity.
Qed.

Lemma preNorm_asciiUpper (h : str) :
  preNorm (asciiUpper h) = asciiUpper (preNorm h).
Proof.
  unfold asciiUpper. apply preNorm_map.
  - apply upper1_ws.
  - intros c. apply upper1_unit. right. reflexivity.
  - intros c. apply upper1_unit. left. reflexivity.
  - apply upper1_dash.
  - reflexivity.
Qed.

Lemma asciiLower_asciiUpper (s : str) : asciiLower (asciiUpper s) = asciiLower s.
Proof.
  unfold asciiLower, asciiUpper. rewrite List.map_map.
  apply List.map_ext. intros c.
  destruct ((97 <=? c) && (c <=? 122)) eqn:E.
  - apply andb_true_iff in E as [H1%N.leb_le H2%N.leb_le].
    replace ((65 <=? c - 32) && (c - 32 <=? 90)) with true
      by (symmetry; apply andb_true_iff; split; apply N.leb_le; lia).
    replace ((65 <=? c) && (c <=? 90)) with false
      by (symmetry; apply andb_false_iff; right; apply N.leb_gt; lia).
    lia.
  - reflexivity.
Qed.

Lemma isAscii_asciiUpper (s : str) :
  isAscii s = true -> isAscii (asciiUpper s) = true.
Proof.
  unfold isAscii, asciiUpper. rewrite !forallb_forall.
  intros H x (c & <- & Hc)%in_map_iff. specialize (H c Hc).
  apply N.ltb_lt in H. apply N.ltb_lt.
  destruct ((97 <=? c) && (c <=? 122)); lia.
Qed.

Lemma normHeader_asciiUpper (toLowerCase : str -> str) (h : str) :
  asciiAgree toLowerCase -> isAscii h = true ->
  normHeader toLowerCase (asciiUpper h) = normHeader toLowerCase h.
Proof.
  intros Hagree Hh. rewrite !normHeader_preNorm, preNorm_asciiUpper.
  pose proof (isAscii_preNorm h Hh) as Hp.
  rewrite (Hagree _ (isAscii_asciiUpper _ Hp)), (Hagree _ Hp).
  apply asciiLower_asciiUpper.
Qed.

End LetterCase.

(** X21: header matching ignores the case of ASCII letters: header cells
    of ASCII text resolve to the same columns when written in upper
    case. *)
Theorem resolveHeaders_ignores_case (toLowerCase : str -> str)
    (headerCells : list str) :
  asciiAgree toLowerCase ->
  forallb isAscii headerCells = true ->
  resolveHeaders toLowerCase (List.map asciiUpper headerCells)
  = resolveHeaders toLowerCase headerCells.
Proof.
  intros Hagree Hcells. unfold resolveHeaders.
  assert (E : forall idx m,
    indexHeaders toLowerCase (List.map asciiUpper headerCells) idx m
    = indexHeaders toLowerCase headerCells idx m).
  { induction headerCells as [|h rest IH]; intros idx m; [reflexivity|].
    cbn [forallb] in Hcells. apply andb_true_iff in Hcells as [Hh Hrest].
    cbn [List.map indexHeaders].
    rewrite (normHeader_asciiUpper toLowerCase h Hagree Hh).
    now apply IH. }
  now rewrite E.
Qed.

Lemma resolveHeaders_ignores_case_witness :
  let headerCells := [lit "Date"; lit "workout"; lit "Sets"; lit "reps";
                      lit "Load"] in
  asciiAgree asciiLower
  /\ forallb isAscii headerCells = true
  /\ List.map asciiUpper headerCells
     = [lit "DATE"; lit "WORKOUT"; lit "SETS"; lit "REPS"; lit "LOAD"]
  /\ missingRequiredOf (resolveHeaders asciiLower (List.map asciiUpper headerCells))
     = [].
Proof.
  intros headerCells.
  assert (Hc : forallb isAscii headerCells = true) by reflexivity.
  split_and!; [exact asciiLower_agrees | exact Hc | reflexivity |].
  rewrite (resolveHeaders_ignores_case asciiLower headerCells
             asciiLower_agrees Hc).
  reflexivity.
Defined.

(** ** Sessions and progress *)

Section Identifiers.

Lemma lit_inj (s t : string) : lit s = lit t -> s = t.
Proof.
  unfold lit. intros H.
  rewrite <- (string_of_list_ascii_of_string s),
    <- (string_of_list_ascii_of_string t).
  f_equal. revert H.
  generalize (list_ascii_of_string s) (list_ascii_of_string t).
  intros l1. induction l1 as [|a l1 IH]; intros [|b l2] H;
    try discriminate H; [reflexivity|].
  injection H as Hab H. f_equal; [|now apply IH].
  rewrite <- (ascii_N_embedding a), <- (ascii_N_embedding b). now rewrite Hab.
Qed.

Lemma to_uint_nonnil (n : nat) : Nat.to_uint n <> Decimal.Nil.
Proof.
  rewrite <- (Unsigned.of_to n) at 1. rewrite Unsigned.to_of.
  apply unorm_nonnil.
Qed.

Lemma decimal_inj (i j : nat) : decimal i = decimal j -> i = j.
Proof.
  unfold decimal. intros H%lit_inj.
  apply Unsigned.to_uint_inj.
  pose proof (NilZero.usu _ (to_uint_nonnil i)) as Hi.
  pose proof (NilZero.usu _ (to_uint_nonnil j)) as Hj.
  rewrite H in Hi. rewrite Hi in Hj. now injection Hj.
Qed.

Lemma digits_only (u : Decimal.uint) :
  Forall (fun c => 48 <= c <= 57) (lit (NilEmpty.string_of_uint u)).
Proof.
  induction u; cbn [NilEmpty.string_of_uint];
    [constructor | constructor; [vm_compute; split; discriminate | exact IHu]..].
Qed.

Lemma decimal_digits (n : nat) : Forall (fun c => 48 <= c <= 57) (decimal n).
Proof.
  unfold decimal, NilZero.string_of_uint.
  destruct (Nat.to_uint n) eqn:E; try (rewrite <- E; apply digits_only).
  repeat constructor; vm_compute; discriminate.
Qed.

Lemma decimal_no_dash (n : nat) : ~ In 45 (decimal n).
Proof.
  intros H. pose proof (decimal_digits n) as Hd.
  rewrite List.Forall_forall in Hd. specialize (Hd 45 H). lia.
Qed.

(** What follows the last occurrence of a unit is determined by the
    string. *)
Lemma after_last (c : N) (x y a b : str) :
  ~ In c x -> ~ In c y -> a ++ c :: x = b ++ c :: y -> x = y.
Proof.
  intros Hx Hy H. apply (f_equal (@rev N)) in H.
  rewrite !rev_app_distr in H. cbn [rev] in H. rewrite <- !app_assoc in H.
  cbn [app] in H.
  assert (Hx' : ~ In c (rev x)) by (intros ?%in_rev; contradiction).
  assert (Hy' : ~ In c (rev y)) by (intros ?%in_rev; contradiction).
  rewrite <- (rev_involutive x), <- (rev_involutive y). f_equal.
  revert H Hx' Hy'. generalize (rev x) (rev y) (rev a) (rev b).
  clear. intros x. induction x as [|e x IH]; intros [|e' y] a b H Hx Hy.
  - reflexivity.
  - injection H as -> _. elim Hy. now left.
  - injection H as -> _. elim Hx. now left.
  - injection H as -> H. f_equal. apply (IH y a b H).
    + intros ?. apply Hx. now right.
    + intros ?. apply Hy. now right.
Qed.

Lemma exerciseOf_id_inj (sessionName : str) (i j : nat) (row row' : CsvRow) :
  ExerciseVM.id (exerciseOf sessionName i row)
  = ExerciseVM.id (exerciseOf sessionName j row') -> i = j.
Proof.
  cbn [exerciseOf ExerciseVM.id]. intros H%app_inv_head.
  change (lit "-") with [45] in H. cbn [app] in H. injection H as H.
  apply decimal_inj.
  exact (after_last 45 _ _ _ _ (decimal_no_dash i) (decimal_no_dash j) H).
Qed.

Lemma imap_ids_NoDup (sessionName : str) (sessionRows : list CsvRow) :
  forall start,
    NoDup (List.map ExerciseVM.id
             (imap (fun i => exerciseOf sessionName (start + i)) sessionRows)).
Proof.
  induction sessionRows as [|row rest IH]; intros start; [constructor|].
  cbn [imap List.map]. constructor.
  - intros Hin. apply list_elem_of_In, in_map_iff in Hin as (e & He & Hin).
    apply list_elem_of_In, list_elem_of_lookup_1 in Hin as [i Hi].
    rewrite list_lookup_imap in Hi.
    destruct (rest !! i) as [row'|]; [|discriminate Hi].
    injection Hi as <-. unfold compose in He.
    apply exerciseOf_id_inj in He. lia.
  - assert (E : imap ((fun i => exerciseOf sessionName (start + i)) ∘ S) rest
                = imap (fun i => exerciseOf sessionName (S start + i)) rest).
    { apply imap_ext. intros i x _. unfold compose. f_equal. lia. }
    rewrite E. apply IH.
Qed.

End Identifiers.

(** X22: within a session [buildTodaySessions] builds, no two exercises
    have the same [id]. *)
Theorem exercise_ids_distinct (parsedRows : list CsvRow)
    (selectedSessions : list str) (session : Session.t) :
  In session (buildTodaySessions parsedRows selectedSessions) ->
  NoDup (List.map ExerciseVM.id (Session.exercises session)).
Proof.
  unfold buildTodaySessions. intros (sessionName & <- & _)%in_map_iff.
  cbn [Session.exercises].
  exact (imap_ids_NoDup sessionName (sessionRowsOf parsedRows sessionName) 0).
Qed.

Lemma exercise_ids_distinct_witness :
  let row exercise :=
    {| Day := lit "Day 1"; Exercise := exercise; Sets := lit "3";
       Reps_or_Time := lit "12"; Weight := []; Notes := [];
       Form_Guidance := []; Muscle_Group := []; Main_Muscle := [];
       Day_Type := [] |} in
  let sessions :=
    buildTodaySessions [row (lit "Plank"); row (lit "Plank")] [lit "Day 1"] in
  exists session,
    In session sessions
    /\ List.map ExerciseVM.id (Session.exercises session)
       = [lit "Day 1-Plank-0"; lit "Day 1-Plank-1"]
    /\ NoDup (List.map ExerciseVM.id (Session.exercises session)).
Proof.
  intros row sessions.
  exists (List.hd {| Session.name := []; Session.exercises := [] |} sessions).
  assert (Hin : In (List.hd {| Session.name := []; Session.exercises := [] |}
                      sessions) sessions) by (left; reflexivity).
  split_and!; [exact Hin | reflexivity |].
  exact (exercise_ids_distinct _ _ _ Hin).
Defined.

Section Coverage.

(** The session and the name of an exercise; the day and the exercise of
    a row. *)
Abbreviation placeOf :=
  (fun e : ExerciseVM.t => (ExerciseVM.sessionName e, ExerciseVM.name e)).
Abbreviation entryOf := (fun row : CsvRow => (Day row, Exercise row)).

Lemma map_imap_same {A B C} (g : B -> C) (h : A -> C) (f : nat -> A -> B)
    (l : list A) :
  (forall i x, In x l -> g (f i x) = h x) ->
  List.map g (imap f l) = List.map h l.
Proof.
  revert f. induction l as [|x l IH]; intros f H; [reflexivity|].
  cbn [imap List.map]. f_equal; [apply H; now left|].
  apply IH. intros i y Hy. apply H. now right.
Qed.

Lemma session_places (parsedRows : list CsvRow) (sessionName : str) :
  List.map placeOf
    (imap (exerciseOf sessionName) (sessionRowsOf parsedRows sessionName))
  = List.map entryOf (sessionRowsOf parsedRows sessionName).
Proof.
  apply map_imap_same. intros i row Hin. unfold sessionRowsOf in Hin.
  apply filter_In in Hin as [_ Hd]. apply bool_decide_eq_true in Hd.
  cbn [exerciseOf ExerciseVM.sessionName ExerciseVM.name]. now rewrite Hd.
Qed.

Lemma sessions_places (parsedRows : list CsvRow) (selectedSessions : list str) :
  List.map placeOf
    (flat_map Session.exercises
       (buildTodaySessions parsedRows selectedSessions))
  = List.map entryOf (flat_map (sessionRowsOf parsedRows) selectedSessions).
Proof.
  unfold buildTodaySessions.
  induction selectedSessions as [|s rest IH]; [reflexivity|].
  cbn [List.map flat_map Session.exercises].
  now rewrite !map_app, IH, session_places.
Qed.

Lemma filter_disjoint {A} (p q : A -> bool) (l : list A) :
  (forall x, p x && q x = false) ->
  Permutation (List.filter p l ++ List.filter q l)
    (List.filter (fun x => p x || q x) l).
Proof.
  intros H. induction l as [|x l IH]; [constructor|].
  cbn [List.filter]. specialize (H x).
  destruct (p x), (q x); try discriminate H; cbn [orb app].
  - now constructor.
  - rewrite <- Permutation_middle. now constructor.
  - exact IH.
Qed.

Lemma filter_none {A} (l : list A) : List.filter (fun _ => false) l = [].
Proof. induction l; [reflexivity | assumption]. Qed.

Lemma selected_rows (parsedRows : list CsvRow) (selectedSessions : list str) :
  NoDup selectedSessions ->
  Permutation (flat_map (sessionRowsOf parsedRows) selectedSessions)
    (List.filter (fun row => bool_decide (Day row ∈ selectedSessions))
       parsedRows).
Proof.
  induction 1 as [|s rest Hs _ IH].
  - cbn [flat_map].
    rewrite (List.filter_ext _ (fun _ => false)), filter_none; [constructor|].
    intros row. apply bool_decide_eq_false. apply not_elem_of_nil.
  - cbn [flat_map]. rewrite IH. unfold sessionRowsOf.
    rewrite filter_disjoint.
    + rewrite (List.filter_ext _
                 (fun row => bool_decide (Day row ∈ s :: rest)));
        [reflexivity|].
      intros row. apply Bool.eq_iff_eq_true.
      rewrite orb_true_iff, !bool_decide_eq_true, elem_of_cons. tauto.
    + intros row. apply andb_false_iff.
      destruct (decide (Day row = s)) as [->|Hne].
      * right. now apply bool_decide_eq_false.
      * left. now apply bool_decide_eq_false.
Qed.

End Coverage.

(** X23: when no session is selected twice, the exercises of the
    sessions [buildTodaySessions] builds are, up to their order, the
    rows whose day is selected, each once and under the session of its
    day. *)
Theorem buildTodaySessions_covers (parsedRows : list CsvRow)
    (selectedSessions : list str) :
  NoDup selectedSessions ->
  Permutation
    (List.map (fun e => (ExerciseVM.sessionName e, ExerciseVM.name e))
       (flat_map Session.exercises
          (buildTodaySessions parsedRows selectedSessions)))
    (List.map (fun row => (Day row, Exercise row))
       (List.filter (fun row => bool_decide (Day row ∈ selectedSessions))
          parsedRows)).
Proof.
  intros Hnd. rewrite sessions_places.
  apply Permutation_map. now apply selected_rows.
Qed.

Lemma buildTodaySessions_covers_witness :
  let r := parseCsv asciiLower scenarioA in
  let selectedSessions := [lit "Day 2"; lit "Day 1"] in
  NoDup selectedSessions
  /\ length (flat_map Session.exercises
               (buildTodaySessions (rows r) selectedSessions)) = 3%nat.
Proof.
  intros r selectedSessions.
  assert (Hnd : NoDup selectedSessions)
    by (apply (bool_decide_unpack _); vm_compute; reflexivity).
  split; [exact Hnd|].
  pose proof (Permutation_length
                (buildTodaySessions_covers (rows r) selectedSessions Hnd)) as H.
  rewrite !length_map in H. rewrite H. reflexivity.
Defined.

(** X24: building the sessions of all the session names [parseCsv]
    returns, from the rows it returns, places every row that has a day in
    the session of that day, once, and leaves out the rows without a
    day. *)
Theorem sessions_of_import (toLowerCase : str -> str) (csvText : str) :
  let r := parseCsv toLowerCase csvText in
  Permutation
    (List.map (fun e => (ExerciseVM.sessionName e, ExerciseVM.name e))
       (flat_map Session.exercises
          (buildTodaySessions (rows r) (sessionNames r))))
    (List.map (fun row => (Day row, Exercise row))
       (List.filter (fun row => negb (isEmpty (Day row))) (rows r))).
Proof.
  intros r. subst r.
  destruct (parseCsv_cases toLowerCase csvText)
    as [[_ E] | [(_ & _ & E) | [(_ & _ & _ & E)
         | (_ & _ & _ & st & (Hnames & Hnd & _) & _ & E)]]];
    rewrite E; try (cbn; constructor).
  cbn [rows sessionNames]. rewrite sessions_places.
  apply Permutation_map. rewrite selected_rows by now apply sort_NoDup.
  rewrite (List.filter_ext_in _ (fun row => negb (isEmpty (Day row))));
    [reflexivity|].
  intros row Hrow. apply Bool.eq_iff_eq_true.
  rewrite bool_decide_eq_true, sort_elem_of, Hnames, negb_true_iff.
  split.
  - intros [Hne _]. now destruct (Day row).
  - intros Hne. split; [now destruct (Day row)|].
    exists row. split; [now apply list_elem_of_In | reflexivity].
Qed.

(** *** Progress *)

Section Progress.

(** The number of sets checked for an exercise. *)
Abbreviation checkedOf :=
  (fun (checkedSets : gmap str (list bool)) (id : str) =>
     length (List.filter (fun b : bool => b) (default [] (checkedSets !! id)))).

Lemma completedSetsOf_own (checkedSets : gmap str (list bool)) (id : str) :
  id ∉ objectPrototypeKeys ->
  completedSetsOf checkedSets id = Some (checkedOf checkedSets id).
Proof.
  intros Hid. unfold completedSetsOf.
  destruct (checkedSets !! id); [reflexivity|].
  now rewrite bool_decide_eq_false_2.
Qed.

Lemma everyComplete_own (checkedSets : gmap str (list bool))
    (exercises : list ExerciseVM.t) :
  Forall (fun e => ExerciseVM.id e ∉ objectPrototypeKeys) exercises ->
  everyComplete checkedSets exercises
  = Some (forallb
            (fun e => (ExerciseVM.sets e
                       <=? Z.of_nat (checkedOf checkedSets (ExerciseVM.id e)))%Z)
            exercises).
Proof.
  induction 1 as [|e rest He _ IH]; [reflexivity|].
  cbn [everyComplete forallb]. rewrite (completedSetsOf_own _ _ He).
  destruct (_ <=? _)%Z; [exact IH | reflexivity].
Qed.

Lemma prototype_keys_no_dash :
  forallb (fun k => negb (includes 45 k)) objectPrototypeKeys = true.
Proof. reflexivity. Qed.

Lemma exerciseOf_id_own (sessionName : str) (i : nat) (row : CsvRow) :
  ExerciseVM.id (exerciseOf sessionName i row) ∉ objectPrototypeKeys.
Proof.
  intros Hin%list_elem_of_In.
  pose proof prototype_keys_no_dash as H. rewrite forallb_forall in H.
  specialize (H _ Hin). apply negb_true_iff in H.
  cbn [exerciseOf ExerciseVM.id] in H. unfold includes in H.
  rewrite existsb_app in H. cbn [lit] in H.
  apply orb_false_elim in H as [_ H]. discriminate H.
Qed.

Lemma built_ids_own (parsedRows : list CsvRow) (selectedSessions : list str)
    (session : Session.t) :
  In session (buildTodaySessions parsedRows selectedSessions) ->
  Forall (fun e => ExerciseVM.id e ∉ objectPrototypeKeys)
    (Session.exercises session).
Proof.
  unfold buildTodaySessions. intros (sessionName & <- & _)%in_map_iff.
  cbn [Session.exercises]. apply List.Forall_forall.
  intros e Hin. apply list_elem_of_In, list_elem_of_lookup_1 in Hin as [i Hi].
  rewrite list_lookup_imap in Hi.
  destruct (_ !! i) as [row|]; [|discriminate Hi]. injection Hi as <-.
  apply exerciseOf_id_own.
Qed.

Lemma built_sets_nonzero (parsedRows : list CsvRow)
    (selectedSessions : list str) (session : Session.t) :
  In session (buildTodaySessions parsedRows selectedSessions) ->
  Forall (fun e => ExerciseVM.sets e <> 0%Z) (Session.exercises session).
Proof.
  unfold buildTodaySessions. intros (sessionName & <- & _)%in_map_iff.
  cbn [Session.exercises]. apply List.Forall_forall.
  intros e Hin. apply list_elem_of_In, list_elem_of_lookup_1 in Hin as [i Hi].
  rewrite list_lookup_imap in Hi.
  destruct (_ !! i) as [row|]; [|discriminate Hi]. injection Hi as <-.
  apply orOne_nonzero.
Qed.

End Progress.

(** X25: on a session [buildTodaySessions] has built,
    [isSessionFullyComplete] always returns: it says no for a session
    without exercises, and otherwise whether every exercise has at least
    as many sets checked as it has sets. *)
Theorem progress_of_built_session (parsedRows : list CsvRow)
    (selectedSessions : list str) (session : Session.t)
    (checkedSets : gmap str (list bool)) :
  In session (buildTodaySessions parsedRows selectedSessions) ->
  isSessionFullyComplete (Session.exercises session) checkedSets
  = Some
      match Session.exercises session with
      | [] => false
      | exercises =>
        forallb
          (fun e =>
             (ExerciseVM.sets e
              <=? Z.of_nat
                    (length (List.filter (fun b : bool => b)
                               (default [] (checkedSets !! ExerciseVM.id e)))))%Z)
          exercises
      end.
Proof.
  intros Hin. pose proof (built_ids_own _ _ _ Hin) as Hown.
  unfold isSessionFullyComplete.
  destruct (Session.exercises session) as [|e rest]; [reflexivity|].
  now apply everyComplete_own.
Qed.

Lemma progress_of_built_session_witness :
  let r := parseCsv asciiLower scenarioA in
  let sessions := buildTodaySessions (rows r) [lit "Day 2"] in
  let session := List.hd {| Session.name := []; Session.exercises := [] |}
                   sessions in
  let checkedSets : gmap str (list bool) :=
    {[ lit "Day 2-Squats-0" := [true; true; false; true; true] ]} in
  In session sessions
  /\ isSessionFullyComplete (Session.exercises session) checkedSets = Some true
  /\ isSessionFullyComplete (Session.exercises session) ∅ = Some false.
Proof.
  intros r sessions session checkedSets.
  assert (Hin : In session sessions) by (left; reflexivity).
  split; [exact Hin|].
  split; (etransitivity;
          [exact (progress_of_built_session _ _ _ _ Hin) | reflexivity]).
Defined.

(** X26: before any set is checked, a session [buildTodaySessions] has
    built is complete exactly when it has exercises and each of them has
    a negative number of sets. *)
Theorem fresh_session_complete (parsedRows : list CsvRow)
    (selectedSessions : list str) (session : Session.t) :
  In session (buildTodaySessions parsedRows selectedSessions) ->
  isSessionFullyComplete (Session.exercises session) ∅ = Some true
  <-> Session.exercises session <> []
      /\ Forall (fun e => (ExerciseVM.sets e < 0)%Z) (Session.exercises session).
Proof.
  intros Hin. pose proof (built_ids_own _ _ _ Hin) as Hown.
  pose proof (built_sets_nonzero _ _ _ Hin) as Hnz.
  unfold isSessionFullyComplete.
  destruct (Session.exercises session) as [|e rest] eqn:E.
  - split; [discriminate | intros [H _]; now elim H].
  - assert (Hne : e :: rest <> []) by discriminate.
    cbv beta iota. set (l := e :: rest) in *. clearbody l.
    rewrite (everyComplete_own _ _ Hown).
    split.
    + intros H. injection H as H. split; [exact Hne|].
      rewrite forallb_forall in H. rewrite List.Forall_forall in Hnz |- *.
      intros x Hx. specialize (H x Hx). specialize (Hnz x Hx).
      rewrite lookup_empty in H. cbn in H. apply Z.leb_le in H. lia.
    + intros [_ H]. f_equal. apply forallb_forall. intros x Hx.
      rewrite List.Forall_forall in H. specialize (H x Hx).
      rewrite lookup_empty. cbn. apply Z.leb_le. lia.
Qed.

Lemma fresh_session_complete_witness :
  let row :=
    {| Day := lit "Day 1"; Exercise := lit "Plank"; Sets := lit "-3";
       Reps_or_Time := lit "60s"; Weight := []; Notes := [];
       Form_Guidance := []; Muscle_Group := []; Main_Muscle := [];
       Day_Type := [] |} in
  let sessions := buildTodaySessions [row] [lit "Day 1"] in
  let session := List.hd {| Session.name := []; Session.exercises := [] |}
                   sessions in
  In session sessions
  /\ isSessionFullyComplete (Session.exercises session) ∅ = Some true.
Proof.
  intros row sessions session.
  assert (Hin : In session sessions) by (left; reflexivity).
  split; [exact Hin|].
  apply (fresh_session_complete _ _ _ Hin).
  split; [discriminate|]. repeat constructor.
Defined.

(** X27: checking more sets never makes a complete session incomplete:
    if [isSessionFullyComplete] says yes for some checked sets, it says
    yes for checked sets that give every exercise at least as many
    completed sets. *)
Theorem isSessionFullyComplete_monotone (exercises : list ExerciseVM.t)
    (checkedSets checkedSets' : gmap str (list bool)) :
  (forall id n, completedSetsOf checkedSets id = Some n ->
     exists n', completedSetsOf checkedSets' id = Some n' /\ (n <= n')%nat) ->
  isSessionFullyComplete exercises checkedSets = Some true ->
  isSessionFullyComplete exercises checkedSets' = Some true.
Proof.
  intros Hmore. unfold isSessionFullyComplete.
  destruct exercises as [|e0 rest0]; [discriminate|].
  generalize (e0 :: rest0). clear e0 rest0.
  intros exercises. induction exercises as [|e rest IH]; [reflexivity|].
  cbn [everyComplete].
  destruct (completedSetsOf checkedSets (ExerciseVM.id e)) as [n|] eqn:En;
    [|discriminate].
  destruct (Hmore _ _ En) as (n' & -> & Hle).
  destruct (Z.leb_spec (ExerciseVM.sets e) (Z.of_nat n)) as [Hs|Hs];
    [|discriminate].
  intros H. destruct (Z.leb_spec (ExerciseVM.sets e) (Z.of_nat n'));
    [now apply IH | lia].
Qed.

Lemma isSessionFullyComplete_monotone_witness :
  let exercise :=
    {| ExerciseVM.id := lit "Day 1-Plank-0"; ExerciseVM.sessionName := lit "Day 1";
       ExerciseVM.name := lit "Plank"; ExerciseVM.sets := 2;
       ExerciseVM.repsText := lit "60s"; ExerciseVM.weightText := [];
       ExerciseVM.notes := []; ExerciseVM.formGuidance := [];
       ExerciseVM.muscleGroup := []; ExerciseVM.mainMuscle := [] |} in
  let checkedSets : gmap str (list bool) :=
    {[ lit "Day 1-Plank-0" := [true; true] ]} in
  let checkedSets' : gmap str (list bool) :=
    {[ lit "Day 1-Plank-0" := [true; true; true] ]} in
  isSessionFullyComplete [exercise] checkedSets = Some true
  /\ isSessionFullyComplete [exercise] checkedSets' = Some true.
Proof.
  intros exercise checkedSets checkedSets'.
  assert (H : isSessionFullyComplete [exercise] checkedSets = Some true)
    by reflexivity.
  split; [exact H|].
  apply (isSessionFullyComplete_monotone [exercise] checkedSets checkedSets');
    [|exact H].
  intros id n. unfold completedSetsOf, checkedSets, checkedSets'.
  destruct (decide (id = lit "Day 1-Plank-0")) as [->|Hne].
  - rewrite !lookup_singleton_eq. intros [= <-]. exists 3%nat.
    split; [reflexivity | simpl; lia].
  - rewrite !lookup_singleton_ne by congruence. eauto.
Defined.

(** ** The analytics buffer *)

Section Buffer.

Import analytics.

Lemma track_drop (e : AnalyticsEvent) (eventsBuffer : list AnalyticsEvent) :
  track (event e) (properties e) eventsBuffer
  = drop (length (eventsBuffer ++ [e]) - MAX_EVENTS) (eventsBuffer ++ [e]).
Proof.
  unfold track. destruct e as [name props]. cbn [event properties].
  destruct (Nat.ltb_spec MAX_EVENTS
              (length (eventsBuffer ++ [{| event := name; properties := props |}])))
    as [H|H]; [reflexivity|].
  now replace (_ - _)%nat with 0%nat by lia.
Qed.

Lemma trackAll_drop (events : list AnalyticsEvent) :
  forall eventsBuffer : list AnalyticsEvent,
    (length eventsBuffer <= MAX_EVENTS)%nat ->
    trackAll events eventsBuffer
    = drop (length (eventsBuffer ++ events) - MAX_EVENTS) (eventsBuffer ++ events).
Proof.
  unfold trackAll.
  induction events as [|e events IH]; intros eventsBuffer Hlen.
  - cbn [fold_left]. rewrite app_nil_r.
    now replace (_ - _)%nat with 0%nat by lia.
  - cbn [fold_left]. rewrite track_drop.
    set (pushed := eventsBuffer ++ [e]).
    assert (Hp : length pushed = S (length eventsBuffer))
      by (unfold pushed; rewrite length_app; simpl; lia).
    rewrite IH by (rewrite length_drop; lia).
    replace (eventsBuffer ++ e :: events) with (pushed ++ events)
      by (unfold pushed; now rewrite <- app_assoc).
    rewrite <- (drop_app_le pushed events) by lia.
    rewrite drop_drop. f_equal. rewrite length_drop, !length_app. lia.
Qed.

End Buffer.

(** X28: the analytics buffer is a rolling window: starting from a
    buffer of at most [MAX_EVENTS] events, tracking a sequence of events
    leaves the last [MAX_EVENTS] of the old events followed by the new
    ones, so the buffer never holds more than [MAX_EVENTS]. *)
Theorem trackAll_rolling (events eventsBuffer : list analytics.AnalyticsEvent) :
  (length eventsBuffer <= analytics.MAX_EVENTS)%nat ->
  analytics.trackAll events eventsBuffer
  = drop (length (eventsBuffer ++ events) - analytics.MAX_EVENTS)
      (eventsBuffer ++ events)
  /\ (length (analytics.trackAll events eventsBuffer)
      <= analytics.MAX_EVENTS)%nat.
Proof.
  intros Hlen. rewrite (trackAll_drop events eventsBuffer Hlen).
  split; [reflexivity|]. rewrite length_drop. lia.
Qed.

Lemma trackAll_rolling_witness :
  let e n := {| analytics.event := decimal n; analytics.properties := VUndefined |} in
  let events := List.map e (seq 0%nat 150%nat) in
  (length (analytics.clearEvents [e 7%nat]) <= analytics.MAX_EVENTS)%nat
  /\ List.map analytics.event
       (analytics.trackAll events (analytics.clearEvents [e 7%nat]))
     = List.map decimal (seq 50%nat 100%nat).
Proof.
  intros e events.
  assert (Hlen : (length (analytics.clearEvents [e 7%nat])
                  <= analytics.MAX_EVENTS)%nat) by (vm_compute; lia).
  split; [exact Hlen|].
  destruct (trackAll_rolling events (analytics.clearEvents [e 7%nat]) Hlen)
    as [-> _].
  vm_compute. reflexivity.
Defined.

(** ** The upload flow *)

Section Upload.

Variable toLowerCase : str -> str.

Lemma incomplete_row_diagnostic (csvText : str) (row : CsvRow) :
  In row (rows (parseCsv toLowerCase csvText)) ->
  isComplete row = false ->
  errors (parseCsv toLowerCase csvText) <> [].
Proof.
  destruct (parseCsv_failure_or_rows toLowerCase csvText)
    as [[message ->] | (indexOf & delimiter & lines & -> & ->)];
    [intros []|].
  intros Hin Hrow.
  destruct (dataLoop_kept indexOf delimiter lines 1) as [_ Hlen].
  intros E. rewrite E in Hlen. simpl in Hlen. symmetry in Hlen.
  apply length_zero_iff_nil in Hlen.
  assert (In row (List.filter (fun row => negb (isComplete row))
                    (l_rows (dataLoop indexOf delimiter 1 lines initialLoopState)))).
  { apply filter_In. split; [exact Hin | now rewrite Hrow]. }
  rewrite Hlen in H. contradiction.
Qed.

Lemma snd_bind {A B} (m : Store A) (f : A -> Store B) (st : Storage) :
  snd (bind m f st) = snd (f (fst (m st)) (snd (m st))).
Proof. unfold bind. now destruct (m st). Qed.

End Upload.

(** X29: the upload panel imports nothing as soon as [parseCsv] returns
    a diagnostic, and so as soon as one row that is kept lacks a
    required field: the store stays as it is and neither callback
    runs. *)
Theorem upload_needs_clean_import (toLowerCase : str -> str) (now : Z)
    (isReupload : bool)
    (onSuccess onReplaceConfirm : str -> list CsvRow -> list str -> Store unit)
    (csvText : str) (st : Storage) :
  let r := parseCsv toLowerCase csvText in
  errors r <> [] \/ (exists row, In row (rows r) /\ isComplete row = false) ->
  handleProcessCsv toLowerCase now isReupload onSuccess onReplaceConfirm
    csvText st
  = (tt, st).
Proof.
  intros r H.
  assert (Herr : errors r <> []).
  { destruct H as [H | (row & Hin & Hrow)]; [exact H|].
    exact (incomplete_row_diagnostic toLowerCase csvText row Hin Hrow). }
  unfold handleProcessCsv. destruct (isEmpty csvText); [reflexivity|].
  fold r. destruct (errors r); [now elim Herr | reflexivity].
Qed.

Lemma upload_needs_clean_import_witness :
  let r := parseCsv asciiLower scenarioA in
  (exists row, In row (rows r) /\ isComplete row = false)
  /\ snd (handleProcessCsv asciiLower 0 false handleUploadSuccess
            handleUploadSuccess scenarioA ∅) = ∅.
Proof.
  intros r.
  assert (H : exists row, In row (rows r) /\ isComplete row = false).
  { exists (List.nth 1 (rows r) (buildRow [] [])).
    split; [right; left; reflexivity | reflexivity]. }
  split; [exact H|].
  now rewrite (upload_needs_clean_import asciiLower 0 false handleUploadSuccess
                 handleUploadSuccess scenarioA ∅ (or_intror H)).
Defined.

(** X30: when [parseCsv] returns no diagnostic for a non-empty text, the
    upload panel wired to [handleUploadSuccess] leaves a store from which
    [getState] reads the text, the rows and the session names of the
    import, the landing panel, and metadata with the number of session
    names and the time of the upload; [hasCsv] then answers whether the
    import has rows. *)
Theorem upload_stores_import (toLowerCase : str -> str) (now : Z)
    (isReupload : bool) (coercedPositive : jsval -> bool)
    (csvText : str) (st : Storage) :
  let r := parseCsv toLowerCase csvText in
  isEmpty csvText = false ->
  errors r = [] ->
  let st' :=
    snd (handleProcessCsv toLowerCase now isReupload handleUploadSuccess
           handleUploadSuccess csvText st) in
  let state := fst (getState st') in
  getProp state (lit "csvText") = VStr csvText
  /\ getProp state (lit "parsedRows") = VArr (List.map rowToJs (rows r))
  /\ getProp state (lit "sessionNames") = VArr (List.map VStr (sessionNames r))
  /\ getProp state (lit "panel") = VStr (lit "landing")
  /\ getProp state (lit "csvMeta")
     = metaToJs {| sessionsCount := Z.of_nat (length (sessionNames r));
                   uploadedAt := now |}
  /\ fst (hasCsv coercedPositive st') = (0 <? length (rows r))%nat.
Proof.
  intros r Hne Herr st' state.
  set (meta := {| sessionsCount := Z.of_nat (length (sessionNames r));
                  uploadedAt := now |}).
  set (st1 := snd (setCsvMeta meta st)).
  set (st2 := snd (storageActions.setCsvData csvText (rows r) (sessionNames r)
                     st1)).
  assert (Est : st' = snd (storageReducer.setPanel (lit "landing") st2)).
  { unfold st', handleProcessCsv. rewrite Hne. fold r. rewrite Herr.
    cbn [length Nat.eqb]. rewrite snd_bind. fold meta. fold st1.
    assert (E : (if isReupload
                 then handleUploadSuccess csvText (rows r) (sessionNames r)
                 else handleUploadSuccess csvText (rows r) (sessionNames r))
                = handleUploadSuccess csvText (rows r) (sessionNames r))
      by now destruct isReupload.
    rewrite E. unfold handleUploadSuccess. now rewrite snd_bind. }
  assert (Hpanel : forall k,
    getProp state k
    = if bool_decide (k = lit "panel") then VStr (lit "landing")
      else getProp (readBack st2) k).
  { intros k. unfold state. rewrite Est.
    pose proof (updateState_read (object [ ("panel", VStr (lit "landing")) ]%string)
                st2 (keepsVersion_single "panel" _ ltac:(discriminate))) as H.
    unfold storageReducer.setPanel. rewrite H, object_single.
    now case_bool_decide. }
  assert (Hmeta : getProp (readBack st1) (lit "csvMeta") = metaToJs meta).
  { unfold st1, setCsvMeta, readBack.
    pose proof (updateState_read (object [ ("csvMeta", metaToJs meta) ]%string) st
                (keepsVersion_single "csvMeta" _ ltac:(discriminate))) as H.
    now rewrite H, object_single, bool_decide_eq_true_2 by reflexivity. }
  assert (Hrows : getProp state (lit "parsedRows")
                  = VArr (List.map rowToJs (rows r))).
  { rewrite Hpanel, bool_decide_eq_false_2 by discriminate.
    unfold st2. now rewrite setCsvData_read. }
  assert (Htext : getProp state (lit "csvText") = VStr csvText).
  { rewrite Hpanel, bool_decide_eq_false_2 by discriminate.
    unfold st2. now rewrite setCsvData_read. }
  split_and!.
  - exact Htext.
  - exact Hrows.
  - rewrite Hpanel, bool_decide_eq_false_2 by discriminate.
    unfold st2. now rewrite setCsvData_read.
  - now rewrite Hpanel, bool_decide_eq_true_2 by reflexivity.
  - rewrite Hpanel, bool_decide_eq_false_2 by discriminate.
    unfold st2. rewrite setCsvData_read.
    change (storageActions.csvDataUpdates csvText (rows r) (sessionNames r)
              !! lit "csvMeta") with (@None jsval).
    exact Hmeta.
  - rewrite hasCsv_value. fold state. unfold readBack. fold state.
    rewrite Htext, Hrows. cbn [truthy lengthOf greaterThanZero].
    rewrite Hne, length_map. cbn [negb andb].
    now destruct (rows r).
Qed.

Lemma upload_stores_import_witness :
  let csvText :=
    lit "Day,Exercise,Sets,Reps,Weight" ++ [CR; LF]
    ++ lit "Day 1,Squats,4,10,40kg" ++ [CR; LF] in
  let r := parseCsv asciiLower csvText in
  let st' :=
    snd (handleProcessCsv asciiLower 1700000000000 true handleUploadSuccess
           handleUploadSuccess csvText ∅) in
  isEmpty csvText = false
  /\ errors r = []
  /\ getProp (fst (getState st')) (lit "sessionNames")
     = VArr [VStr (lit "Day 1")]
  /\ fst (hasCsv (fun _ => false) st') = true.
Proof.
  intros csvText r st'.
  assert (Hne : isEmpty csvText = false) by reflexivity.
  assert (Herr : errors r = []) by (vm_compute; reflexivity).
  destruct (upload_stores_import asciiLower 1700000000000 true (fun _ => false)
              csvText ∅ Hne Herr) as (_ & _ & Hnames & _ & _ & Hhas).
  split_and!; [exact Hne | exact Herr | |].
  - etransitivity; [exact Hnames|]. vm_compute. reflexivity.
  - etransitivity; [exact Hhas|]. vm_compute. reflexivity.
Defined.
